(** * HTTP/3 demo client and server (src/Http3/client.py, src/Http3/server.py)

    A shallow embedding of the request/response correlation logic of the
    two [QuicConnectionProtocol] subclasses, and the properties of the
    specification that can be stated over it.

    Conventions
    - Python [bytes] is [list byte]; Python [str] is a list of Unicode code
      points ([list N]); Python [int] is [Z].
    - Python [dict] is a [gmap]; a dict that is shared between several
      owners lives in an explicit heap and is referred to by its address.
    - The aioquic objects ([H3Connection], the QUIC connection, the asyncio
      loop) are collaborators.  Calls into them are recorded, in order, in
      a log; whether a call raises is decided by an oracle that sees the
      log, so every result holds for every behaviour of the transport.
    - Logging ([logger.info], [logger.error], [print]) has no effect on the
      state and is left out. *)

From Stdlib Require Import ZArith NArith Lia List.
From Stdlib Require Import Strings.String Strings.Ascii Strings.Byte.
From Stdlib Require Import Numbers.DecimalString.
From stdpp Require Import gmap strings list.

Set Warnings "-register-all".

Local Open Scope N_scope.

(** ** Python values *)

Abbreviation bytes := (list byte).
Abbreviation str := (list N).

(** Exceptions that can be raised inside the modelled code.
    [TransportError] stands for whatever an aioquic call raises. *)
Inductive Exn :=
| UnicodeDecodeError
| UnicodeEncodeError
| TimeoutError
| KeyError
| InvalidStateError
| TransportError (code : nat).

Inductive result (A : Type) :=
| Ok (a : A)
| Raise (e : Exn).
Arguments Ok {A} a.
Arguments Raise {A} e.

Definition result_bind {A B} (r : result A) (k : A -> result B) : result B :=
  match r with
  | Ok a => k a
  | Raise e => Raise e
  end.

(** A bytes literal [b'...'] of the source. *)
Definition blit (s : string) : bytes := list_byte_of_string s.

(** A str literal ['...'] of the source whose characters are all ASCII. *)
Definition slit (s : string) : str := map Byte.to_N (list_byte_of_string s).

Definition byte_of_N (n : N) : byte :=
  match Byte.of_N (n mod 256) with
  | Some x => x
  | None => x00
  end.

(** *** [str.encode()]: UTF-8, strict *)

Definition is_surrogate (c : N) : bool := (0xD800 <=? c) && (c <=? 0xDFFF).

Definition utf8_width (c : N) : nat :=
  if c <? 0x80 then 1%nat
  else if c <? 0x800 then 2%nat
  else if c <? 0x10000 then 3%nat
  else 4%nat.

Definition utf8_encode_cp (c : N) : bytes :=
  if c <? 0x80 then
    [byte_of_N c]
  else if c <? 0x800 then
    [byte_of_N (N.lor 0xC0 (N.shiftr c 6));
     byte_of_N (N.lor 0x80 (N.land c 0x3F))]
  else if c <? 0x10000 then
    [byte_of_N (N.lor 0xE0 (N.shiftr c 12));
     byte_of_N (N.lor 0x80 (N.land (N.shiftr c 6) 0x3F));
     byte_of_N (N.lor 0x80 (N.land c 0x3F))]
  else
    [byte_of_N (N.lor 0xF0 (N.land (N.shiftr c 18) 0x07));
     byte_of_N (N.lor 0x80 (N.land (N.shiftr c 12) 0x3F));
     byte_of_N (N.lor 0x80 (N.land (N.shiftr c 6) 0x3F));
     byte_of_N (N.lor 0x80 (N.land c 0x3F))].

(** [s.encode()] raises [UnicodeEncodeError] on a lone surrogate. *)
Fixpoint str_encode (s : str) : result bytes :=
  match s with
  | [] => Ok []
  | c :: s' =>
      if is_surrogate c then Raise UnicodeEncodeError
      else result_bind (str_encode s') (fun bs => Ok (utf8_encode_cp c ++ bs))
  end.

(** *** [bytes.decode('utf-8')]: strict

    Overlong forms, surrogates, code points above U+10FFFF, stray
    continuation bytes and truncated sequences raise
    [UnicodeDecodeError]. *)

Definition is_cont (x : N) : bool := (0x80 <=? x) && (x <=? 0xBF).
Definition in_range (lo hi x : N) : bool := (lo <=? x) && (x <=? hi).
Definition cont_bits (x : N) : N := N.land x 0x3F.

Fixpoint utf8_decode (bs : list N) : result str :=
  match bs with
  | [] => Ok []
  | b0 :: r0 =>
      if b0 <? 0x80 then
        result_bind (utf8_decode r0) (fun s => Ok (b0 :: s))
      else if in_range 0xC2 0xDF b0 then
        match r0 with
        | b1 :: r1 =>
            if is_cont b1 then
              result_bind (utf8_decode r1) (fun s =>
                Ok (N.lor (N.shiftl (N.land b0 0x1F) 6) (cont_bits b1) :: s))
            else Raise UnicodeDecodeError
        | _ => Raise UnicodeDecodeError
        end
      else if in_range 0xE0 0xEF b0 then
        match r0 with
        | b1 :: b2 :: r2 =>
            if in_range (if b0 =? 0xE0 then 0xA0 else 0x80)
                        (if b0 =? 0xED then 0x9F else 0xBF) b1
               && is_cont b2 then
              result_bind (utf8_decode r2) (fun s =>
                Ok (N.lor (N.shiftl (N.land b0 0x0F) 12)
                      (N.lor (N.shiftl (cont_bits b1) 6) (cont_bits b2)) :: s))
            else Raise UnicodeDecodeError
        | _ => Raise UnicodeDecodeError
        end
      else if in_range 0xF0 0xF4 b0 then
        match r0 with
        | b1 :: b2 :: b3 :: r3 =>
            if in_range (if b0 =? 0xF0 then 0x90 else 0x80)
                        (if b0 =? 0xF4 then 0x8F else 0xBF) b1
               && is_cont b2 && is_cont b3 then
              result_bind (utf8_decode r3) (fun s =>
                Ok (N.lor (N.shiftl (N.land b0 0x07) 18)
                      (N.lor (N.shiftl (cont_bits b1) 12)
                         (N.lor (N.shiftl (cont_bits b2) 6) (cont_bits b3))) :: s))
            else Raise UnicodeDecodeError
        | _ => Raise UnicodeDecodeError
        end
      else Raise UnicodeDecodeError
  end.

Definition bytes_decode (bs : bytes) : result str :=
  utf8_decode (map Byte.to_N bs).

(** *** [str(n)] for an [int] *)

Definition str_of_int (z : Z) : str :=
  slit (NilZero.string_of_int (Z.to_int z)).

(** [len(x)] as a Python [int]. *)
Definition len {A} (l : list A) : Z := Z.of_nat (length l).

(** *** [datetime]

    A [datetime] without time zone, as [datetime.now()] returns it, and
    its [isoformat()]: [YYYY-MM-DDTHH:MM:SS], followed by [.ffffff] when
    the microseconds are not zero. *)

Record datetime := {
  year : N;
  month : N;
  day : N;
  hour : N;
  minute : N;
  second : N;
  microsecond : N;
}.

Definition digit (n : N) : N := 48 + n mod 10.

(** ['%02d' % n], ['%04d' % n] and ['%06d' % n] for the values a
    [datetime] holds. *)
Definition pad2 (n : N) : str := [digit (n / 10); digit n].
Definition pad4 (n : N) : str :=
  [digit (n / 1000); digit (n / 100); digit (n / 10); digit n].
Definition pad6 (n : N) : str :=
  [digit (n / 100000); digit (n / 10000); digit (n / 1000);
   digit (n / 100); digit (n / 10); digit n].

Definition isoformat (d : datetime) : str :=
  pad4 (year d) ++ slit "-" ++ pad2 (month d) ++ slit "-" ++ pad2 (day d)
  ++ slit "T" ++ pad2 (hour d) ++ slit ":" ++ pad2 (minute d) ++ slit ":"
  ++ pad2 (second d)
  ++ (if microsecond d =? 0 then [] else slit "." ++ pad6 (microsecond d)).

(** ** [json.dumps(data, indent=2)]

    The values the server serialises are dicts with [str] keys, lists,
    strings and integers.  [dumps] follows the pure-Python encoder of the
    standard library with its defaults ([ensure_ascii=True], item
    separator [','], key separator [': ']) and a two-space indent. *)

Inductive json :=
| JNull
| JBool (x : bool)
| JInt (n : Z)
| JStr (s : str)
| JList (items : list json)
| JDict (items : list (str * json)).

Definition hex_digit (d : N) : N :=
  if d <? 10 then 48 + d else 87 + d.

(** ['{0:04x}'.format(n)] for [n < 0x10000]. *)
Definition hex4 (n : N) : str :=
  [hex_digit (N.land (N.shiftr n 12) 15);
   hex_digit (N.land (N.shiftr n 8) 15);
   hex_digit (N.land (N.shiftr n 4) 15);
   hex_digit (N.land n 15)].

(** The replacement of one character by [py_encode_basestring_ascii]:
    every character outside [' '..'~'], the quote and the backslash are
    escaped. *)
Definition escape_char (c : N) : str :=
  if c =? 34 then slit "\" ++ [34]
  else if c =? 92 then slit "\\"
  else if c =? 10 then slit "\n"
  else if c =? 13 then slit "\r"
  else if c =? 9 then slit "\t"
  else if c =? 8 then slit "\b"
  else if c =? 12 then slit "\f"
  else if in_range 32 126 c then [c]
  else if c <? 0x10000 then slit "\u" ++ hex4 c
  else
    let n := c - 0x10000 in
    slit "\u" ++ hex4 (N.lor 0xD800 (N.land (N.shiftr n 10) 0x3FF))
    ++ slit "\u" ++ hex4 (N.lor 0xDC00 (N.land n 0x3FF)).

Definition encode_basestring_ascii (s : str) : str :=
  [34] ++ concat (map escape_char s) ++ [34].

Fixpoint join (sep : str) (parts : list str) : str :=
  match parts with
  | [] => []
  | [p] => p
  | p :: ps => p ++ sep ++ join sep ps
  end.

(** ['\n' + indent * level] with [indent = '  ']. *)
Definition newline_indent (level : nat) : str :=
  10 :: repeat 32 (2 * level)%nat.

Fixpoint dumps_at (level : nat) (j : json) : str :=
  match j with
  | JNull => slit "null"
  | JBool true => slit "true"
  | JBool false => slit "false"
  | JInt n => str_of_int n
  | JStr s => encode_basestring_ascii s
  | JList [] => slit "[]"
  | JList items =>
      slit "[" ++ newline_indent (S level)
      ++ join (slit "," ++ newline_indent (S level))
              (map (dumps_at (S level)) items)
      ++ newline_indent level ++ slit "]"
  | JDict [] => slit "{}"
  | JDict items =>
      slit "{" ++ newline_indent (S level)
      ++ join (slit "," ++ newline_indent (S level))
              (map (fun kv => encode_basestring_ascii (fst kv) ++ slit ": "
                              ++ dumps_at (S level) (snd kv)) items)
      ++ newline_indent level ++ slit "}"
  end.

Definition json_dumps (data : json) : str := dumps_at 0 data.

(** ** [json.loads(s)]

    The scanner of the standard library for the values of [json]:
    objects, arrays, strings with their escapes, integers and the three
    literals.  [None] stands for [JSONDecodeError], and for a float. *)

Definition is_ws (c : N) : bool :=
  (c =? 32) || (c =? 9) || (c =? 10) || (c =? 13).

Fixpoint skip_ws (s : str) : str :=
  match s with
  | c :: s' => if is_ws c then skip_ws s' else s
  | [] => []
  end.

Definition hex_value (c : N) : option N :=
  if in_range 48 57 c then Some (c - 48)
  else if in_range 97 102 c then Some (c - 87)
  else if in_range 65 70 c then Some (c - 55)
  else None.

(** [_decode_uXXXX]: four hexadecimal digits. *)
Definition decode_uXXXX (s : str) : option (N * str) :=
  match s with
  | a :: b :: c :: d :: rest =>
      a ← hex_value a; b ← hex_value b; c ← hex_value c; d ← hex_value d;
      Some (a * 4096 + b * 256 + c * 16 + d, rest)
  | _ => None
  end.

Definition backslash (c : N) : option N :=
  if c =? 34 then Some 34
  else if c =? 92 then Some 92
  else if c =? 47 then Some 47
  else if c =? 98 then Some 8
  else if c =? 102 then Some 12
  else if c =? 110 then Some 10
  else if c =? 114 then Some 13
  else if c =? 116 then Some 9
  else None.

(** [py_scanstring], from the character after the opening quote. *)
Fixpoint scanstring (fuel : nat) (s : str) : option (str * str) :=
  match fuel with
  | O => None
  | S fuel' =>
      match s with
      | [] => None
      | c :: rest =>
          if c =? 34 then Some ([], rest)
          else if c =? 92 then
            match rest with
            | [] => None
            | esc :: rest1 =>
                if esc =? 117 then
                  '(uni, rest2) ← decode_uXXXX rest1;
                  '(uni, rest3) ←
                    (if in_range 0xD800 0xDBFF uni then
                       match rest2 with
                       | 92 :: 117 :: rest2' =>
                           '(uni2, rest3) ← decode_uXXXX rest2';
                           if in_range 0xDC00 0xDFFF uni2 then
                             Some (0x10000 + N.lor (N.shiftl (uni - 0xD800) 10)
                                                   (uni2 - 0xDC00), rest3)
                           else Some (uni, rest2)
                       | _ => Some (uni, rest2)
                       end
                     else Some (uni, rest2));
                  '(cs, r) ← scanstring fuel' rest3; Some (uni :: cs, r)
                else
                  ch ← backslash esc;
                  '(cs, r) ← scanstring fuel' rest1; Some (ch :: cs, r)
            end
          else if c <? 32 then None
          else '(cs, r) ← scanstring fuel' rest; Some (c :: cs, r)
      end
  end.

Definition is_digit (c : N) : bool := in_range 48 57 c.

Fixpoint scan_digits (s : str) (acc : Z) : Z * str :=
  match s with
  | c :: s' => if is_digit c then scan_digits s' (acc * 10 + Z.of_N (c - 48))%Z
               else (acc, s)
  | [] => (acc, [])
  end.

(** The integers of [NUMBER_RE]; a fraction or an exponent makes a float,
    which is not a value of [json]. *)
Definition scan_int (s : str) : option (Z * str) :=
  let '(neg, s1) := match s with
                    | 45 :: s' => (true, s')
                    | _ => (false, s)
                    end in
  match s1 with
  | c :: s2 =>
      if is_digit c then
        let '(n, rest) := if c =? 48 then (0%Z, s2)
                          else scan_digits s1 0%Z in
        match rest with
        | 46 :: _ | 101 :: _ | 69 :: _ => None
        | _ => Some (if (neg : bool) then (- n)%Z else n, rest)
        end
      else None
  | [] => None
  end.

(** [dict(pairs)] on an insertion-ordered dict. *)
Fixpoint dict_set (k : str) (v : json) (d : list (str * json)) : list (str * json) :=
  match d with
  | [] => [(k, v)]
  | (k', v') :: d' => if decide (k' = k) then (k, v) :: d' else (k', v') :: dict_set k v d'
  end.

Definition dict_of_pairs (pairs : list (str * json)) : list (str * json) :=
  foldl (fun d kv => dict_set kv.1 kv.2 d) [] pairs.

Section Containers.

(** The scanner for the values inside. *)
Variable scan_once : str -> option (json * str).

(** The loop of [JSONObject], at the opening quote of a key. *)
Fixpoint scan_members (fuel : nat) (s : str) : option (list (str * json) * str) :=
  match fuel with
  | O => None
  | S fuel' =>
      match s with
      | 34 :: r0 =>
          '(key, r1) ← scanstring (length r0) r0;
          match skip_ws r1 with
          | 58 :: r2 =>
              '(value, r3) ← scan_once (skip_ws r2);
              match skip_ws r3 with
              | 125 :: r4 => Some ([(key, value)], r4)
              | 44 :: r4 =>
                  '(rest, r5) ← scan_members fuel' (skip_ws r4);
                  Some ((key, value) :: rest, r5)
              | _ => None
              end
          | _ => None
          end
      | _ => None
      end
  end.

(** The loop of [JSONArray], at a value. *)
Fixpoint scan_elements (fuel : nat) (s : str) : option (list json * str) :=
  match fuel with
  | O => None
  | S fuel' =>
      '(value, r1) ← scan_once s;
      match skip_ws r1 with
      | 93 :: r2 => Some ([value], r2)
      | 44 :: r2 =>
          '(rest, r3) ← scan_elements fuel' (skip_ws r2);
          Some (value :: rest, r3)
      | _ => None
      end
  end.
End Containers.

Fixpoint starts_with (p s : str) : option str :=
  match p, s with
  | [], _ => Some s
  | a :: p', b :: s' => if a =? b then starts_with p' s' else None
  | _ :: _, [] => None
  end.

(** [scan_once] *)
Fixpoint scan_once (fuel : nat) (s : str) : option (json * str) :=
  match fuel with
  | O => None
  | S fuel' =>
      match s with
      | [] => None
      | c :: rest =>
          if c =? 34 then
            '(x, r) ← scanstring (length rest) rest; Some (JStr x, r)
          else if c =? 123 then
            match skip_ws rest with
            | 125 :: r => Some (JDict [], r)
            | r =>
                '(pairs, r') ← scan_members (scan_once fuel') (length r) r;
                Some (JDict (dict_of_pairs pairs), r')
            end
          else if c =? 91 then
            match skip_ws rest with
            | 93 :: r => Some (JList [], r)
            | r =>
                '(items, r') ← scan_elements (scan_once fuel') (length r) r;
                Some (JList items, r')
            end
          else if c =? 110 then r ← starts_with (slit "ull") rest; Some (JNull, r)
          else if c =? 116 then r ← starts_with (slit "rue") rest; Some (JBool true, r)
          else if c =? 102 then r ← starts_with (slit "alse") rest; Some (JBool false, r)
          else '(n, r) ← scan_int s; Some (JInt n, r)
      end
  end.

(** [json.loads(s)] *)
Definition json_loads (s : str) : option json :=
  '(v, rest) ← scan_once (length s) (skip_ws s);
  match skip_ws rest with
  | [] => Some v
  | _ => None
  end.

(** [obj[key]] on a decoded object. *)
Definition json_get (key : str) (j : json) : option json :=
  match j with
  | JDict items => snd <$> List.find (fun kv => bool_decide (kv.1 = key)) items
  | _ => None
  end.

(** ** State and exceptions

    A computation reads and updates a state and either returns a value or
    raises.  [try_except] is [try: ... except Exception: ...]; the state
    changes made before the exception are kept. *)

Definition M (S A : Type) : Type := S -> result A * S.

Global Instance M_ret {S} : MRet (M S) := fun A a st => (Ok a, st).

Global Instance M_bind {S} : MBind (M S) := fun A B k m st =>
  match m st with
  | (Ok a, st') => k a st'
  | (Raise e, st') => (Raise e, st')
  end.

Definition lift {S A} (r : result A) : M S A := fun st => (r, st).

Definition try_except {S A} (body : M S A) (handler : Exn -> M S A) : M S A :=
  fun st =>
    match body st with
    | (Ok a, st') => (Ok a, st')
    | (Raise e, st') => handler e st'
    end.

(** [for x in l: body(x)] *)
Fixpoint for_each {S A} (l : list A) (body : A -> M S unit) : M S unit :=
  match l with
  | [] => mret tt
  | x :: l' => body x ;; for_each l' body
  end.

(** ** The aioquic interface *)

Global Instance byte_eq_dec : EqDecision byte := Byte.byte_eq_dec.
Global Instance byte_countable : Countable byte :=
  inj_countable Byte.to_N Byte.of_N Byte.of_to_N.

(** The events [H3Connection.handle_event] yields.  [EvOther] is any
    event that is neither [HeadersReceived] nor [DataReceived]. *)
Record HeadersReceived := {
  h_stream_id : Z;
  h_headers : list (bytes * bytes);
  h_stream_ended : bool;
}.

Record DataReceived := {
  d_stream_id : Z;
  d_data : bytes;
  d_stream_ended : bool;
}.

Inductive H3Event :=
| EvHeaders (e : HeadersReceived)
| EvData (e : DataReceived)
| EvOther.

(** The calls the code makes: [self._http.send_headers],
    [self._http.send_data] and [self.transmit]. *)
Inductive H3Call :=
| SendHeaders (stream_id : Z) (headers : list (bytes * bytes)) (end_stream : bool)
| SendData (stream_id : Z) (data : bytes) (end_stream : bool)
| Transmit.

(** A call together with the exception it raised, if any. *)
Abbreviation Attempt := (H3Call * option Exn)%type.

(** [dict(pairs)]: a later pair replaces an earlier one with the same key. *)
Definition py_dict (pairs : list (bytes * bytes)) : gmap bytes bytes :=
  foldl (fun m kv => <[kv.1 := kv.2]> m) ∅ pairs.

(** [d.get(key, default)] *)
Definition dict_get (d : gmap bytes bytes) (key default : bytes) : bytes :=
  match d !! key with
  | Some v => v
  | None => default
  end.

Definition dq : str := [34].

(** * The server: [HttpServerProtocol] *)

Module Server.

Record State := {
  calls : list Attempt;   (* the calls made on [self._http] / [self], oldest first *)
  clock_reads : nat;      (* how often [datetime.now()] has been read *)
}.

(** [get_homepage] *)
Definition get_homepage : str :=
  slit "<!DOCTYPE html>
<html>
<head>
    <title>HTTP/3 Server</title>
    <style>
        body { font-family: Arial, sans-serif; max-width: 800px; margin: 50px auto; padding: 20px; background: #f5f5f5; }
        h1 { color: #333; }
        .info { background: white; padding: 20px; border-radius: 8px; box-shadow: 0 2px 4px rgba(0,0,0,0.1); margin: 20px 0; }
        .protocol { color: #4CAF50; font-weight: bold; font-size: 1.2em; }
        .endpoint { background: #fff; padding: 15px; margin: 10px 0; border-left: 4px solid #4CAF50; border-radius: 4px; }
        .endpoint strong { color: #2196F3; }
    </style>
</head>
<body>
    <h1>"
  ++ [0x1F680]
  ++ slit " HTTP/3 Server Running on Kali Linux</h1>
    <div class="
  ++ dq
  ++ slit "info"
  ++ dq
  ++ slit ">
        <p>Protocol: <span class="
  ++ dq
  ++ slit "protocol"
  ++ dq
  ++ slit ">HTTP/3 (QUIC)</span></p>
        <p>Port: 4433</p>
        <p>Status: "
  ++ [0x2705]
  ++ slit " Active and Ready</p>
    </div>
    <h2>"
  ++ [0x1F4E1]
  ++ slit " Available Endpoints:</h2>
    <div class="
  ++ dq
  ++ slit "endpoint"
  ++ dq
  ++ slit ">
        <strong>GET /api/status</strong><br>
        Returns server health status and timestamp
    </div>
    <div class="
  ++ dq
  ++ slit "endpoint"
  ++ dq
  ++ slit ">
        <strong>GET /api/data</strong><br>
        Returns sample JSON data
    </div>
</body>
</html>".

Section WithEnvironment.

(** Whether a call raises, given the calls made so far. *)
Variable h3_raises : list Attempt -> H3Call -> option Exn.
(** [datetime.now()] at the n-th reading of the clock. *)
Variable clock : nat -> datetime.
(** [str(e)] for a caught exception. *)
Variable exn_str : Exn -> str.

Definition perform (c : H3Call) : M State unit := fun st =>
  let o := h3_raises (calls st) c in
  let st' := {| calls := calls st ++ [(c, o)]; clock_reads := clock_reads st |} in
  match o with
  | Some e => (Raise e, st')
  | None => (Ok tt, st')
  end.

Definition datetime_now : M State datetime := fun st =>
  (Ok (clock (clock_reads st)),
   {| calls := calls st; clock_reads := S (clock_reads st) |}).

(** [send_response(self, stream_id, status_code, body, content_type)] *)
Definition send_response (stream_id status_code : Z) (body content_type : str)
  : M State unit :=
  try_except
    (status ← lift (str_encode (str_of_int status_code));
     ctype ← lift (str_encode content_type);
     clen ← lift (str_encode (str_of_int (len body)));
     let headers := [(blit ":status", status);
                     (blit "content-type", ctype);
                     (blit "content-length", clen);
                     (blit "server", blit "HTTP/3-Python-Server")] in
     perform (SendHeaders stream_id headers false);;
     data ← lift (str_encode body);
     perform (SendData stream_id data true);;
     perform Transmit)
    (fun e => mret tt).

(** [send_json_response(self, stream_id, status_code, data)] *)
Definition send_json_response (stream_id status_code : Z) (data : json)
  : M State unit :=
  let body := json_dumps data in
  send_response stream_id status_code body (slit "application/json").

Definition item (id : Z) (name : string) (value : Z) : json :=
  JDict [(slit "id", JInt id); (slit "name", JStr (slit name));
         (slit "value", JInt value)].

(** The [try] block of [handle_request]. *)
Definition handle_request_try (event : HeadersReceived) : M State unit :=
  let headers := py_dict (h_headers event) in
  path ← lift (bytes_decode (dict_get headers (blit ":path") (blit "/")));
  method ← lift (bytes_decode (dict_get headers (blit ":method") (blit "GET")));
  if decide (path = slit "/") then
    send_response (h_stream_id event) 200 get_homepage (slit "text/html")
  else if decide (path = slit "/api/status") then
    now ← datetime_now;
    send_json_response (h_stream_id event) 200
      (JDict [(slit "status", JStr (slit "healthy"));
              (slit "protocol", JStr (slit "HTTP/3"));
              (slit "timestamp", JStr (isoformat now))])
  else if decide (path = slit "/api/data") then
    send_json_response (h_stream_id event) 200
      (JDict [(slit "message", JStr (slit "Sample data from HTTP/3 server"));
              (slit "items", JList [item 1 "Item 1" 100;
                                    item 2 "Item 2" 200;
                                    item 3 "Item 3" 300])])
  else
    send_json_response (h_stream_id event) 404
      (JDict [(slit "error", JStr (slit "Not Found"));
              (slit "path", JStr path)]).

(** [handle_request(self, event)] *)
Definition handle_request (event : HeadersReceived) : M State unit :=
  try_except
    (handle_request_try event)
    (fun e =>
       try_except
         (send_json_response (h_stream_id event) 500
            (JDict [(slit "error", JStr (slit "Internal Server Error"));
                    (slit "message", JStr (exn_str e))]))
         (fun _ => mret tt)).

(** [quic_event_received(self, event)]; [events] is what
    [self._http.handle_event(event)] yields. *)
Definition quic_event_received (events : list H3Event) : M State unit :=
  try_except
    (for_each events (fun http_event =>
       match http_event with
       | EvHeaders e => handle_request e
       | EvData _ => mret tt
       | EvOther => mret tt
       end))
    (fun e => mret tt).

End WithEnvironment.

Definition init : State := {| calls := []; clock_reads := 0 |}.

End Server.

(** * The client: [HttpClient] *)

Module Client.

(** The address of a dict object. *)
Abbreviation loc := nat.

(** A dict [{'headers': ..., 'data': ...}]. *)
Record Entry := {
  headers : option (gmap bytes bytes);
  data : bytes;
}.

Definition empty_entry : Entry := {| headers := None; data := [] |}.

(** An [asyncio.Future] whose result, once set, is the entry dict it was
    given: the dict itself, not a copy. *)
Inductive Future :=
| Pending
| Finished (result : loc)
| Cancelled.

(** A future of [_request_waiter] and, once [asyncio.wait_for] waits on
    it, the loop time at which its timeout fires. *)
Record Waiter := {
  fut : Future;
  timer : option N;
}.

Definition done (w : Waiter) : bool :=
  match fut w with
  | Pending => false
  | _ => true
  end.

Record State := {
  heap : gmap loc Entry;             (* the entry dicts *)
  _request_events : gmap Z loc;
  _request_waiter : gmap Z Waiter;
  calls : list Attempt;              (* calls on [self._http] / [self] *)
  next_stream_id : Z;                (* of the QUIC connection *)
  now : N;                           (* loop time, in milliseconds *)
  set_result_calls : list (Z * loc); (* every [set_result], oldest first *)
}.

Definition init : State := {|
  heap := ∅;
  _request_events := ∅;
  _request_waiter := ∅;
  calls := [];
  next_stream_id := 0;
  now := 0;
  set_result_calls := [];
|}.

Definition with_heap (h : gmap loc Entry) (st : State) : State :=
  {| heap := h; _request_events := _request_events st;
     _request_waiter := _request_waiter st; calls := calls st;
     next_stream_id := next_stream_id st; now := now st;
     set_result_calls := set_result_calls st |}.

Definition with_events (m : gmap Z loc) (st : State) : State :=
  {| heap := heap st; _request_events := m;
     _request_waiter := _request_waiter st; calls := calls st;
     next_stream_id := next_stream_id st; now := now st;
     set_result_calls := set_result_calls st |}.

Definition with_waiter (m : gmap Z Waiter) (st : State) : State :=
  {| heap := heap st; _request_events := _request_events st;
     _request_waiter := m; calls := calls st;
     next_stream_id := next_stream_id st; now := now st;
     set_result_calls := set_result_calls st |}.

(** The timeout of [asyncio.wait_for(waiter, timeout=5.0)]. *)
Definition timeout_ms : N := 5000.

(** [self._request_events[stream_id] = {'headers': None, 'data': b''}]:
    a new dict object. *)
Definition new_entry (stream_id : Z) : M State unit := fun st =>
  let l := fresh (dom (heap st)) in
  (Ok tt, with_events (<[stream_id := l]> (_request_events st))
            (with_heap (<[l := empty_entry]> (heap st)) st)).

(** [if stream_id not in self._request_events: ...] *)
Definition ensure_entry (stream_id : Z) : M State unit := fun st =>
  match _request_events st !! stream_id with
  | Some _ => (Ok tt, st)
  | None => new_entry stream_id st
  end.

(** [self._request_events[stream_id]] *)
Definition lookup_entry (stream_id : Z) : M State loc := fun st =>
  match _request_events st !! stream_id with
  | Some l => (Ok l, st)
  | None => (Raise KeyError, st)
  end.

(** An assignment to a key of the dict at [l]. *)
Definition update_entry (l : loc) (f : Entry -> Entry) : M State unit := fun st =>
  (Ok tt, with_heap (alter f l (heap st)) st).

Definition set_headers (h : gmap bytes bytes) (e : Entry) : Entry :=
  {| headers := Some h; data := data e |}.

Definition append_data (d : bytes) (e : Entry) : Entry :=
  {| headers := headers e; data := data e ++ d |}.

(** [stream_id in self._request_waiter and
     not self._request_waiter[stream_id].done()] *)
Definition waiter_pending (stream_id : Z) : M State bool := fun st =>
  match _request_waiter st !! stream_id with
  | Some w => (Ok (negb (done w)), st)
  | None => (Ok false, st)
  end.

(** [self._request_waiter[stream_id].set_result(entry)] *)
Definition set_result (stream_id : Z) (l : loc) : M State unit := fun st =>
  match _request_waiter st !! stream_id with
  | None => (Raise KeyError, st)
  | Some w =>
      match fut w with
      | Pending =>
          (Ok tt,
           {| heap := heap st; _request_events := _request_events st;
              _request_waiter :=
                <[stream_id := {| fut := Finished l; timer := timer w |}]>
                  (_request_waiter st);
              calls := calls st; next_stream_id := next_stream_id st;
              now := now st;
              set_result_calls := set_result_calls st ++ [(stream_id, l)] |})
      | _ => (Raise InvalidStateError, st)
      end
  end.

(** [quic_event_received], for one of the events of
    [self._http.handle_event(event)]. *)
Definition on_http_event (http_event : H3Event) : M State unit :=
  match http_event with
  | EvHeaders e =>
      let stream_id := h_stream_id e in
      ensure_entry stream_id;;
      l ← lookup_entry stream_id;
      update_entry l (set_headers (py_dict (h_headers e)))
  | EvData e =>
      let stream_id := d_stream_id e in
      ensure_entry stream_id;;
      l ← lookup_entry stream_id;
      update_entry l (append_data (d_data e));;
      if d_stream_ended e then
        pending ← waiter_pending stream_id;
        if (pending : bool) then
          l ← lookup_entry stream_id;
          set_result stream_id l
        else mret tt
      else mret tt
  | EvOther => mret tt
  end.

(** [quic_event_received(self, event)]; [events] is what
    [self._http.handle_event(event)] yields. *)
Definition quic_event_received (events : list H3Event) : M State unit :=
  for_each events on_http_event.

(** The timers of the loop: when the loop time reaches the deadline of a
    [wait_for] whose future is not done, [wait_for] cancels the future
    and raises [TimeoutError] in the waiting [get]. *)
Definition expire (t : N) (w : Waiter) : Waiter :=
  match fut w, timer w with
  | Pending, Some d =>
      if d <=? t then {| fut := Cancelled; timer := timer w |} else w
  | _, _ => w
  end.

Definition tick (dt : N) (st : State) : State :=
  let t := now st + dt in
  {| heap := heap st; _request_events := _request_events st;
     _request_waiter := expire t <$> _request_waiter st;
     calls := calls st; next_stream_id := next_stream_id st;
     now := t; set_result_calls := set_result_calls st |}.

Section WithEnvironment.

(** Whether a call raises, given the calls made so far. *)
Variable h3_raises : list Attempt -> H3Call -> option Exn.

Definition perform (c : H3Call) : M State unit := fun st =>
  let o := h3_raises (calls st) c in
  let st' :=
    {| heap := heap st; _request_events := _request_events st;
       _request_waiter := _request_waiter st;
       calls := calls st ++ [(c, o)];
       next_stream_id := next_stream_id st; now := now st;
       set_result_calls := set_result_calls st |} in
  match o with
  | Some e => (Raise e, st')
  | None => (Ok tt, st')
  end.

(** [self._quic.get_next_available_stream_id()] *)
Definition get_next_available_stream_id : M State Z := fun st =>
  (Ok (next_stream_id st), st).

(** Sending on a stream creates it: the connection hands out the next
    client-initiated bidirectional id from then on. *)
Definition stream_opened (stream_id : Z) : M State unit := fun st =>
  (Ok tt,
   {| heap := heap st; _request_events := _request_events st;
      _request_waiter := _request_waiter st; calls := calls st;
      next_stream_id := (stream_id + 4)%Z; now := now st;
      set_result_calls := set_result_calls st |}).

(** [waiter = self._loop.create_future();
     self._request_waiter[stream_id] = waiter] *)
Definition register_waiter (stream_id : Z) : M State unit := fun st =>
  (Ok tt, with_waiter (<[stream_id := {| fut := Pending; timer := None |}]>
                         (_request_waiter st)) st).

(** [asyncio.wait_for(waiter, timeout=5.0)] arms its timer. *)
Definition wait_for (stream_id : Z) : M State unit := fun st =>
  (Ok tt, with_waiter (alter (fun w => {| fut := fut w;
                                          timer := Some (now st + timeout_ms) |})
                         stream_id (_request_waiter st)) st).

(** [get(self, path)] up to its [await]: the id of the stream whose
    waiter it awaits. *)
Definition get (path : str) : M State Z :=
  stream_id ← get_next_available_stream_id;
  p ← lift (str_encode path);
  let headers := [(blit ":method", blit "GET");
                  (blit ":scheme", blit "https");
                  (blit ":authority", blit "localhost:4433");
                  (blit ":path", p);
                  (blit "user-agent", blit "Python-HTTP3-Client")] in
  perform (SendHeaders stream_id headers true);;
  stream_opened stream_id;;
  new_entry stream_id;;
  register_waiter stream_id;;
  perform Transmit;;
  wait_for stream_id;;
  mret stream_id.

(** What [await asyncio.wait_for(waiter, ...)] gives [get] on the stream:
    nothing yet, the entry dict, or [TimeoutError]. *)
Definition get_outcome (st : State) (stream_id : Z) : option (result loc) :=
  match _request_waiter st !! stream_id with
  | Some w =>
      match fut w with
      | Pending => None
      | Finished l => Some (Ok l)
      | Cancelled => Some (Raise TimeoutError)
      end
  | None => None
  end.

(** What happens on the connection: a call of [get], a QUIC event, or
    time passing. *)
Inductive Input :=
| CallGet (path : str)
| QuicEvent (events : list H3Event)
| Tick (dt : N).

Definition step (st : State) (i : Input) : State :=
  match i with
  | CallGet path => (get path st).2
  | QuicEvent events => (quic_event_received events st).2
  | Tick dt => tick dt st
  end.

Definition run (ins : list Input) (st : State) : State := foldl step st ins.

End WithEnvironment.

End Client.

(** * [test_endpoint]

    The value [test_endpoint(path)] returns, given how the [get] it awaits
    ends; opening the connection and what is printed are left out. *)

Module TestEndpoint.

(** What the [try] block raises: an exception of [get] or of [decode], or
    the [AttributeError] of [None.get]. *)
Inductive Error :=
| Raised (e : Exn)
| AttributeError.

(** From the response to the status and the text that are printed.
    [response.get('headers', {})] is the value of the key, which every
    entry dict has: [None] when no headers were received. *)
Definition read_response (response : Client.Entry) : Error + str * str :=
  let headers := Client.headers response in
  match bytes_decode (Client.data response) with
  | Raise e => inl (Raised e)
  | Ok data =>
      match headers with
      | None => inl AttributeError
      | Some headers =>
          match bytes_decode (dict_get headers (blit ":status") (blit "???")) with
          | Raise e => inl (Raised e)
          | Ok status => inr (status, data)
          end
      end
  end.

(** [json.loads(data)] and the printing of the body are inside a [try]
    with a bare [except]: whatever they do, [True] is returned.  Every
    exception before that, [TimeoutError] included, gives [False]. *)
Definition test_endpoint (outcome : result Client.Entry) : bool :=
  match outcome with
  | Raise _ => false
  | Ok response =>
      match read_response response with
      | inr _ => true
      | inl _ => false
      end
  end.

End TestEndpoint.

(** * Properties *)

(** ** The encoders on examples *)

Example str_of_int_200 : str_of_int 200 = slit "200".
Proof. reflexivity. Qed.

Example utf8_rocket :
  str_encode [0x1F680] = Ok [xf0; x9f; x9a; x80]
  /\ bytes_decode [xf0; x9f; x9a; x80] = Ok [0x1F680].
Proof. split; reflexivity. Qed.

Example utf8_overlong_rejected :
  bytes_decode [xc0; xaf] = Raise UnicodeDecodeError
  /\ bytes_decode [xed; xa0; x80] = Raise UnicodeDecodeError
  /\ bytes_decode [xff] = Raise UnicodeDecodeError.
Proof. repeat split; reflexivity. Qed.

Example dumps_not_found :
  json_dumps (JDict [(slit "error", JStr (slit "Not Found"));
                     (slit "path", JStr [47; 233; 0x1F680])])
  = slit "{
  " ++ [34] ++ slit "error" ++ [34] ++ slit ": " ++ [34] ++ slit "Not Found"
    ++ [34] ++ slit ",
  " ++ [34] ++ slit "path" ++ [34] ++ slit ": " ++ [34]
    ++ slit "/\u00e9\ud83d\ude80" ++ [34] ++ slit "
}".
Proof. reflexivity. Qed.

(** ** Encoding *)

(** The UTF-8 form of a string without surrogates. *)
Definition utf8 (s : str) : bytes := concat (map utf8_encode_cp s).

Definition is_ascii (s : str) : bool := forallb (fun c => c <? 128) s.

Definition no_surrogate (s : str) : bool :=
  forallb (fun c => negb (is_surrogate c)) s.

Lemma is_ascii_app s t : is_ascii (s ++ t) = is_ascii s && is_ascii t.
Proof. apply forallb_app. Qed.

Lemma is_ascii_no_surrogate s : is_ascii s = true -> no_surrogate s = true.
Proof.
  unfold is_ascii, no_surrogate. rewrite !forallb_forall.
  intros H c Hc. specialize (H c Hc). unfold is_surrogate.
  apply N.ltb_lt in H. apply negb_true_iff, andb_false_iff. left.
  apply N.leb_gt. lia.
Qed.

Lemma str_encode_utf8 s : no_surrogate s = true -> str_encode s = Ok (utf8 s).
Proof.
  induction s as [|c s IH]; [done|]. cbn [no_surrogate forallb].
  intros [Hc Hs]%andb_true_iff. apply negb_true_iff in Hc.
  cbn [str_encode]. rewrite Hc, (IH Hs). done.
Qed.

Lemma length_utf8_encode_cp c : length (utf8_encode_cp c) = utf8_width c.
Proof. unfold utf8_encode_cp, utf8_width. repeat case_match; done. Qed.

Lemma length_utf8 s :
  length (utf8 s) = foldr (fun c n => (utf8_width c + n)%nat) 0%nat s.
Proof.
  induction s as [|c s IH]; [done|]. unfold utf8 in *. cbn [map concat foldr].
  by rewrite length_app, length_utf8_encode_cp, IH.
Qed.

Lemma utf8_width_ge_1 c : (1 <= utf8_width c)%nat.
Proof. unfold utf8_width. repeat case_match; lia. Qed.

(** The encoded form is never shorter than the string, and as long only
    for an ASCII string. *)
Lemma length_utf8_ge s : (length s <= length (utf8 s))%nat.
Proof.
  rewrite length_utf8. induction s as [|c s IH]; cbn [foldr length]; [lia|].
  pose proof (utf8_width_ge_1 c). lia.
Qed.

Lemma length_utf8_ascii s : is_ascii s = true -> length (utf8 s) = length s.
Proof.
  rewrite length_utf8. induction s as [|c s IH]; [done|].
  cbn [is_ascii forallb foldr length]. intros [Hc Hs]%andb_true_iff.
  unfold utf8_width at 1. rewrite Hc. rewrite (IH Hs). done.
Qed.

Lemma length_utf8_non_ascii s :
  is_ascii s = false -> (length s < length (utf8 s))%nat.
Proof.
  rewrite length_utf8. induction s as [|c s IH]; [done|].
  cbn [is_ascii forallb foldr length]. intros H.
  pose proof (length_utf8_ge s) as Hge. rewrite length_utf8 in Hge.
  apply andb_false_iff in H as [Hc|Hs].
  - unfold utf8_width at 1. rewrite Hc. repeat case_match; lia.
  - specialize (IH Hs). pose proof (utf8_width_ge_1 c). lia.
Qed.

Lemma byte_of_to_N x : byte_of_N (Byte.to_N x) = x.
Proof.
  unfold byte_of_N. pose proof (Byte.to_N_bounded x).
  rewrite N.mod_small by lia. by rewrite Byte.of_to_N.
Qed.

Lemma utf8_slit s : is_ascii (slit s) = true -> utf8 (slit s) = blit s.
Proof.
  unfold slit, blit. induction (list_byte_of_string s) as [|x l IH]; [done|].
  cbn [map is_ascii forallb]. intros [Hx Hl]%andb_true_iff.
  unfold utf8 in *. cbn [map concat]. unfold utf8_encode_cp at 1.
  rewrite Hx, byte_of_to_N. cbn [app]. f_equal. by apply IH.
Qed.

(** Decimal numerals are ASCII. *)
Lemma is_ascii_string_of_uint d :
  is_ascii (slit (NilEmpty.string_of_uint d)) = true.
Proof. induction d; cbn; done. Qed.

Lemma is_ascii_str_of_int z : is_ascii (str_of_int z) = true.
Proof.
  unfold str_of_int, NilZero.string_of_int, NilZero.string_of_uint.
  destruct (Z.to_int z) as [d|d]; destruct d;
    try done; try apply is_ascii_string_of_uint;
    change (is_ascii (45 :: slit (NilEmpty.string_of_uint _)) = true);
    cbn [is_ascii forallb]; apply is_ascii_string_of_uint.
Qed.

Lemma str_encode_str_of_int z :
  str_encode (str_of_int z) = Ok (blit (NilZero.string_of_int (Z.to_int z))).
Proof.
  rewrite str_encode_utf8 by apply is_ascii_no_surrogate, is_ascii_str_of_int.
  f_equal. apply utf8_slit, is_ascii_str_of_int.
Qed.

(** ** Serialised JSON is ASCII *)

Section JsonInduction.
Variable P : json -> Prop.
Hypothesis Hnull : P JNull.
Hypothesis Hbool : forall x, P (JBool x).
Hypothesis Hint : forall n, P (JInt n).
Hypothesis Hstr : forall s, P (JStr s).
Hypothesis Hlist : forall items, Forall P items -> P (JList items).
Hypothesis Hdict : forall items, Forall (fun kv => P kv.2) items -> P (JDict items).

Fixpoint json_nested_ind (j : json) : P j :=
  match j with
  | JNull => Hnull
  | JBool x => Hbool x
  | JInt n => Hint n
  | JStr s => Hstr s
  | JList items =>
      Hlist items
        ((fix go (l : list json) : Forall P l :=
            match l with
            | [] => List.Forall_nil P
            | x :: l' => List.Forall_cons P x l' (json_nested_ind x) (go l')
            end) items)
  | JDict items =>
      Hdict items
        ((fix go (l : list (str * json)) : Forall (fun kv => P kv.2) l :=
            match l with
            | [] => List.Forall_nil _
            | kv :: l' =>
                List.Forall_cons (fun kv => P kv.2) kv l' (json_nested_ind kv.2) (go l')
            end) items)
  end.
End JsonInduction.

Lemma is_ascii_hex_digit d : d < 16 -> (hex_digit d <? 128) = true.
Proof. intros H. unfold hex_digit. apply N.ltb_lt. case_match; lia. Qed.

Lemma land_15_lt n : N.land n 15 < 16.
Proof.
  change 15 with (N.ones 4). rewrite N.land_ones.
  apply N.mod_upper_bound. done.
Qed.

Lemma is_ascii_hex4 n : is_ascii (hex4 n) = true.
Proof.
  unfold hex4. cbn [is_ascii forallb].
  rewrite !is_ascii_hex_digit by apply land_15_lt. done.
Qed.

Lemma is_ascii_escape_char c : is_ascii (escape_char c) = true.
Proof.
  unfold escape_char.
  repeat case_match; try done; rewrite ?is_ascii_app, ?is_ascii_hex4; try done.
  cbn [is_ascii forallb]. rewrite andb_true_r. apply N.ltb_lt.
  match goal with H : in_range _ _ _ = true |- _ =>
    apply andb_true_iff in H as [_ H]; apply N.leb_le in H end. lia.
Qed.

Lemma is_ascii_concat (l : list str) :
  Forall (fun s => is_ascii s = true) l -> is_ascii (concat l) = true.
Proof.
  induction 1 as [|s l Hs _ IH]; [done|].
  cbn [concat]. by rewrite is_ascii_app, Hs, IH.
Qed.

Lemma is_ascii_encode_basestring_ascii s :
  is_ascii (encode_basestring_ascii s) = true.
Proof.
  unfold encode_basestring_ascii. rewrite !is_ascii_app, andb_true_r.
  cbn [andb is_ascii forallb N.ltb]. apply is_ascii_concat, List.Forall_forall.
  intros x [c [<- _]]%in_map_iff. apply is_ascii_escape_char.
Qed.

Lemma is_ascii_join sep (parts : list str) :
  is_ascii sep = true ->
  Forall (fun s => is_ascii s = true) parts ->
  is_ascii (join sep parts) = true.
Proof.
  intros Hsep. induction 1 as [|s l Hs Hl IH]; [done|].
  cbn [join]. destruct l as [|s' l]; [done|].
  by rewrite !is_ascii_app, Hs, Hsep, IH.
Qed.

Lemma is_ascii_newline_indent level : is_ascii (newline_indent level) = true.
Proof.
  unfold newline_indent. cbn [is_ascii forallb].
  induction (2 * level)%nat as [|n IH]; [done|]. exact IH.
Qed.

Lemma is_ascii_dumps_at j : forall level, is_ascii (dumps_at level j) = true.
Proof.
  induction j as [| [] | n | s | items IH | items IH] using json_nested_ind;
    intros level; try done.
  - apply is_ascii_str_of_int.
  - apply is_ascii_encode_basestring_ascii.
  - destruct items as [|j items]; [done|].
    cbn [dumps_at]. rewrite !is_ascii_app, !is_ascii_newline_indent, !andb_true_r.
    cbn [slit is_ascii forallb andb]. apply is_ascii_join.
    + by rewrite is_ascii_app, is_ascii_newline_indent.
    + apply List.Forall_forall. intros x [y [<- Hy]]%in_map_iff.
      rewrite List.Forall_forall in IH. by apply IH.
  - destruct items as [|kv items]; [done|].
    cbn [dumps_at]. rewrite !is_ascii_app, !is_ascii_newline_indent, !andb_true_r.
    cbn [slit is_ascii forallb andb]. apply is_ascii_join.
    + by rewrite is_ascii_app, is_ascii_newline_indent.
    + apply List.Forall_forall. intros x [y [<- Hy]]%in_map_iff.
      rewrite List.Forall_forall in IH.
      rewrite !is_ascii_app, is_ascii_encode_basestring_ascii, (IH y Hy). done.
Qed.

Lemma is_ascii_json_dumps data : is_ascii (json_dumps data) = true.
Proof. apply is_ascii_dumps_at. Qed.


(** ** Reading a serialised object back *)

Lemma utf8_ascii s : is_ascii s = true -> utf8 s = map byte_of_N s.
Proof.
  induction s as [|c s IH]; [done|]. cbn [is_ascii forallb].
  intros [Hc Hs]%andb_true_iff. unfold utf8 in *. cbn [map concat].
  unfold utf8_encode_cp at 1. rewrite Hc. cbn [app]. f_equal. by apply IH.
Qed.

Lemma to_N_byte_of_N c : c < 256 -> Byte.to_N (byte_of_N c) = c.
Proof.
  intros H. unfold byte_of_N. rewrite N.mod_small by done.
  destruct (Byte.of_N c) as [x|] eqn:E.
  - by apply Byte.to_of_N.
  - apply Byte.of_N_None_iff in E. lia.
Qed.

(** Decoding the bytes sent for an ASCII body gives the body back. *)
Lemma bytes_decode_utf8_ascii s :
  is_ascii s = true -> bytes_decode (utf8 s) = Ok s.
Proof.
  intros H. rewrite utf8_ascii by done. unfold bytes_decode.
  induction s as [|c s IH]; [done|]. cbn [is_ascii forallb] in H.
  apply andb_true_iff in H as [Hc Hs]. cbn [map utf8_decode].
  apply N.ltb_lt in Hc. rewrite to_N_byte_of_N by lia.
  rewrite (proj2 (N.ltb_lt c 128) Hc). rewrite (IH Hs). done.
Qed.

Definition plain_char (c : N) : bool :=
  in_range 32 126 c && negb (c =? 34) && negb (c =? 92).

Definition plain (s : str) : bool := forallb plain_char s.

Lemma escape_char_plain c : plain_char c = true -> escape_char c = [c].
Proof.
  unfold plain_char, escape_char, in_range.
  intros [[[H1 H2]%andb_true_iff H3%negb_true_iff]%andb_true_iff
            H4%negb_true_iff]%andb_true_iff.
  rewrite H3, H4. apply N.leb_le in H1.
  rewrite !(proj2 (N.eqb_neq _ _)) by lia.
  unfold in_range. by rewrite (proj2 (N.leb_le _ _) H1), H2.
Qed.

Lemma encode_basestring_ascii_plain s :
  plain s = true -> encode_basestring_ascii s = 34 :: s ++ [34].
Proof.
  intros H. unfold encode_basestring_ascii. cbn [app]. do 2 f_equal.
  induction s as [|c s IH]; [done|].
  cbn [plain forallb] in H. apply andb_true_iff in H as [Hc Hs].
  cbn [map concat]. by rewrite escape_char_plain, IH.
Qed.

Lemma scanstring_plain s rest : forall fuel,
  plain s = true -> (length s < fuel)%nat ->
  scanstring fuel (s ++ 34 :: rest) = Some (s, rest).
Proof.
  induction s as [|c s IH]; intros fuel H Hf.
  - destruct fuel; [lia|]. done.
  - destruct fuel; [cbn in Hf; lia|].
    cbn [plain forallb] in H. apply andb_true_iff in H as [Hc Hs].
    cbn [app scanstring].
    unfold plain_char, in_range in Hc.
    apply andb_true_iff in Hc as [[[H1 H2]%andb_true_iff H3%negb_true_iff]%andb_true_iff
            H4%negb_true_iff].
    rewrite H3, H4. apply N.leb_le in H1.
    rewrite (proj2 (N.ltb_ge _ _)) by lia.
    rewrite IH; [done|done|]. cbn in Hf. lia.
Qed.


(** An object whose values are strings, as [(key, value)] pairs. *)
Definition flat_object (items : list (str * str)) : json :=
  JDict (map (fun kv => (kv.1, JStr kv.2)) items).

Definition flat_plain (items : list (str * str)) : bool :=
  forallb (fun kv => plain kv.1 && plain kv.2) items.

(** The members of a flat object as [json.dumps(indent=2)] writes them,
    up to the closing brace, followed by [tail]. *)
Fixpoint flat_text (items : list (str * str)) (tail : str) : str :=
  match items with
  | [] => tail
  | kv :: items' =>
      34 :: kv.1 ++ 34 :: 58 :: 32 :: 34 :: kv.2 ++ 34 ::
        match items' with
        | [] => 10 :: 125 :: tail
        | _ => 44 :: 10 :: 32 :: 32 :: flat_text items' tail
        end
  end.

Lemma join_cons sep p (ps : list str) :
  ps <> [] -> join sep (p :: ps) = p ++ sep ++ join sep ps.
Proof. by destruct ps. Qed.

Lemma flat_text_cons kv items tail :
  items <> [] ->
  flat_text (kv :: items) tail
  = 34 :: kv.1 ++ 34 :: 58 :: 32 :: 34 :: kv.2 ++ 34 :: 44 :: 10 :: 32 :: 32 ::
      flat_text items tail.
Proof. by destruct items. Qed.

Lemma join_flat_text items tail :
  flat_plain items = true -> items <> [] ->
  join (slit "," ++ newline_indent 1)
    (map (fun kv => encode_basestring_ascii kv.1 ++ slit ": " ++ dumps_at 1 kv.2)
       (map (fun kv => (kv.1, JStr kv.2)) items))
  ++ 10 :: 125 :: tail
  = flat_text items tail.
Proof.
  induction items as [|kv items IH]; intros H Hne; [done|].
  cbn [flat_plain forallb] in H.
  apply andb_true_iff in H as [[Hk Hv]%andb_true_iff Hrest].
  destruct (decide (items = [])) as [->|Hne'].
  - cbn [map join flat_text fst snd dumps_at].
    rewrite !encode_basestring_ascii_plain by done.
    rewrite <- !app_assoc. cbn [app]. rewrite <- !app_assoc. done.
  - rewrite flat_text_cons by done. rewrite <- (IH Hrest Hne').
    cbn [map]. rewrite join_cons by (by destruct items).
    cbn [fst snd dumps_at].
    rewrite !encode_basestring_ascii_plain by done.
    rewrite <- !app_assoc. cbn [app]. rewrite <- !app_assoc. done.
Qed.

Lemma skip_ws_indent (s : str) : skip_ws (10 :: 32 :: 32 :: s) = skip_ws s.
Proof. reflexivity. Qed.

Lemma skip_ws_quote (s : str) : skip_ws (34 :: s) = 34 :: s.
Proof. reflexivity. Qed.

Lemma flat_text_quote items tail :
  items <> [] -> exists r, flat_text items tail = 34 :: r.
Proof. destruct items; [done|]. intros _. eexists. reflexivity. Qed.

Lemma scan_once_string f s rest :
  plain s = true ->
  scan_once (S f) (34 :: s ++ 34 :: rest) = Some (JStr s, rest).
Proof.
  intros H. cbn [scan_once N.eqb Pos.eqb].
  rewrite scanstring_plain; [done|done|].
  rewrite length_app. cbn. lia.
Qed.

Lemma scan_members_flat f items tail : forall fuel,
  flat_plain items = true -> items <> [] -> (length items <= fuel)%nat ->
  scan_members (scan_once (S f)) fuel (flat_text items tail)
  = Some (map (fun kv => (kv.1, JStr kv.2)) items, tail).
Proof.
  induction items as [|kv items IH]; intros fuel H Hne Hf; [done|].
  cbn [flat_plain forallb] in H.
  apply andb_true_iff in H as [[Hk Hv]%andb_true_iff Hrest].
  destruct fuel as [|fuel]; [cbn in Hf; lia|].
  destruct (decide (items = [])) as [->|Hne'].
  - cbn [flat_text scan_members].
    rewrite scanstring_plain by (done || rewrite length_app; cbn; lia).
    cbn [mbind option_bind]. change (skip_ws (58 :: ?x)) with (58 :: x).
    cbv iota. change (skip_ws (32 :: 34 :: ?x)) with (34 :: x).
    rewrite scan_once_string by done. cbn [mbind option_bind].
    change (skip_ws (10 :: 125 :: ?x)) with (125 :: x). done.
  - rewrite flat_text_cons by done. cbn [scan_members].
    rewrite scanstring_plain by (done || rewrite length_app; cbn; lia).
    cbn [mbind option_bind]. change (skip_ws (58 :: ?x)) with (58 :: x).
    cbv iota. change (skip_ws (32 :: 34 :: ?x)) with (34 :: x).
    rewrite scan_once_string by done. cbn [mbind option_bind].
    change (skip_ws (44 :: ?x)) with (44 :: x). cbv iota.
    rewrite skip_ws_indent.
    destruct (flat_text_quote items tail Hne') as [r Hr].
    rewrite Hr, skip_ws_quote, <- Hr.
    rewrite IH by (done || cbn in Hf; lia). done.
Qed.

Lemma length_flat_text items tail :
  (length items <= length (flat_text items tail))%nat.
Proof.
  induction items as [|kv items IH]; [cbn; lia|].
  destruct (decide (items = [])) as [->|Hne].
  - cbn. lia.
  - rewrite flat_text_cons by done. cbn [length]. rewrite !length_app.
    cbn [length]. rewrite !length_app. cbn [length]. lia.
Qed.

Lemma scan_once_object f rest :
  scan_once (S f) (123 :: rest)
  = match skip_ws rest with
    | 125 :: r => Some (JDict [], r)
    | r =>
        '(pairs, r') ← scan_members (scan_once f) (length r) r;
        Some (JDict (dict_of_pairs pairs), r')
    end.
Proof. reflexivity. Qed.

(** A non-empty object with plain string keys and values is read back
    from its serialisation. *)
Lemma json_loads_flat_object items :
  flat_plain items = true -> items <> [] ->
  json_loads (json_dumps (flat_object items))
  = Some (JDict (dict_of_pairs (map (fun kv => (kv.1, JStr kv.2)) items))).
Proof.
  intros H Hne.
  assert (json_dumps (flat_object items)
          = 123 :: 10 :: 32 :: 32 :: flat_text items []) as ->.
  { rewrite <- (join_flat_text items [] H Hne).
    unfold json_dumps, flat_object. destruct items as [|kv items]; [done|].
    cbn [map dumps_at]. generalize (join (slit "," ++ newline_indent 1)).
    intros j. reflexivity. }
  unfold json_loads. change (skip_ws (123 :: ?x)) with (123 :: x).
  change (length (123 :: 10 :: ?x)) with (S (S (length x))).
  generalize (length (32 :: 32 :: flat_text items [])). intros f.
  rewrite scan_once_object.
  change (skip_ws (10 :: 32 :: 32 :: ?x)) with (skip_ws x).
  destruct (flat_text_quote items [] Hne) as [r Hr].
  rewrite Hr. change (skip_ws (34 :: r)) with (34 :: r). cbv iota.
  rewrite <- Hr. cbv zeta.
  rewrite scan_members_flat by (done || apply length_flat_text).
  done.
Qed.

Lemma plain_char_digit n : plain_char (digit n) = true.
Proof.
  unfold plain_char, digit, in_range.
  pose proof (N.mod_upper_bound n 10 ltac:(done)) as Hm.
  set (m := n mod 10) in *.
  assert ((32 <=? 48 + m) = true) as -> by (apply N.leb_le; lia).
  assert ((48 + m <=? 126) = true) as -> by (apply N.leb_le; lia).
  assert ((48 + m =? 34) = false) as -> by (apply N.eqb_neq; lia).
  assert ((48 + m =? 92) = false) as -> by (apply N.eqb_neq; lia).
  done.
Qed.

Lemma plain_app s t : plain (s ++ t) = plain s && plain t.
Proof. apply forallb_app. Qed.

Lemma plain_isoformat d : plain (isoformat d) = true.
Proof.
  unfold isoformat, pad2, pad4, pad6. rewrite !plain_app.
  destruct (microsecond d =? 0); rewrite ?plain_app;
    cbn [plain forallb]; rewrite !plain_char_digit; reflexivity.
Qed.

(** ** The server *)

Section ServerProperties.

Variable h3_raises : list Attempt -> H3Call -> option Exn.
Variable clock : nat -> datetime.
Variable exn_str : Exn -> str.

Local Abbreviation send_response := (Server.send_response h3_raises).
Local Abbreviation send_json_response := (Server.send_json_response h3_raises).
Local Abbreviation handle_request :=
  (Server.handle_request h3_raises clock exn_str).
Local Abbreviation quic_event_received :=
  (Server.quic_event_received h3_raises clock exn_str).

(** The log after trying the calls [cs] in order, up to and including the
    first one that raises. *)
Fixpoint attempt_all (cs : list H3Call) (log : list Attempt) : list Attempt :=
  match cs with
  | [] => log
  | c :: cs' =>
      match h3_raises log c with
      | Some e => log ++ [(c, Some e)]
      | None => attempt_all cs' (log ++ [(c, None)])
      end
  end.

(** [str(n).encode()] *)
Definition bytes_of_int (n : Z) : bytes :=
  blit (NilZero.string_of_int (Z.to_int n)).

(** The three calls of a response with an encodable body. *)
Definition response (stream_id status_code : Z) (content_type body : str)
  : list H3Call :=
  [SendHeaders stream_id
     [(blit ":status", bytes_of_int status_code);
      (blit "content-type", utf8 content_type);
      (blit "content-length", bytes_of_int (len body));
      (blit "server", blit "HTTP/3-Python-Server")]
     false;
   SendData stream_id (utf8 body) true;
   Transmit].

Definition responded (stream_id status_code : Z) (content_type body : str)
    (st : Server.State) : Server.State :=
  {| Server.calls :=
       attempt_all (response stream_id status_code content_type body)
                   (Server.calls st);
     Server.clock_reads := Server.clock_reads st |}.

Lemma send_response_calls stream_id status_code body content_type st :
  no_surrogate content_type = true ->
  no_surrogate body = true ->
  send_response stream_id status_code body content_type st
  = (Ok tt, responded stream_id status_code content_type body st).
Proof.
  intros Hc Hb. unfold Server.send_response, try_except, responded, response.
  unfold mbind, M_bind, lift, mret, M_ret, Server.perform, bytes_of_int.
  rewrite !str_encode_str_of_int, (str_encode_utf8 _ Hc), (str_encode_utf8 _ Hb).
  cbn [attempt_all Server.calls Server.clock_reads].
  repeat (destruct (h3_raises _ _); [reflexivity|]).
  reflexivity.
Qed.

Lemma send_json_response_calls stream_id status_code data st :
  send_json_response stream_id status_code data st
  = (Ok tt, responded stream_id status_code (slit "application/json")
              (json_dumps data) st).
Proof.
  unfold Server.send_json_response. apply send_response_calls; [done|].
  apply is_ascii_no_surrogate, is_ascii_json_dumps.
Qed.

Lemma no_surrogate_get_homepage : no_surrogate Server.get_homepage = true.
Proof. vm_compute. reflexivity. Qed.

Definition error_500 (e : Exn) : json :=
  JDict [(slit "error", JStr (slit "Internal Server Error"));
         (slit "message", JStr (exn_str e))].

Definition tick_clock (st : Server.State) : Server.State :=
  {| Server.calls := Server.calls st;
     Server.clock_reads := S (Server.clock_reads st) |}.

(** What [handle_request] does, branch by branch. *)
Lemma handle_request_unfold event st :
  let headers := py_dict (h_headers event) in
  let sid := h_stream_id event in
  handle_request event st =
  (Ok tt,
   match bytes_decode (dict_get headers (blit ":path") (blit "/")) with
   | Raise e =>
       responded sid 500 (slit "application/json") (json_dumps (error_500 e)) st
   | Ok path =>
       match bytes_decode (dict_get headers (blit ":method") (blit "GET")) with
       | Raise e =>
           responded sid 500 (slit "application/json")
             (json_dumps (error_500 e)) st
       | Ok _ =>
           if decide (path = slit "/") then
             responded sid 200 (slit "text/html") Server.get_homepage st
           else if decide (path = slit "/api/status") then
             responded sid 200 (slit "application/json")
               (json_dumps
                  (JDict [(slit "status", JStr (slit "healthy"));
                          (slit "protocol", JStr (slit "HTTP/3"));
                          (slit "timestamp",
                           JStr (isoformat (clock (Server.clock_reads st))))]))
               (tick_clock st)
           else if decide (path = slit "/api/data") then
             responded sid 200 (slit "application/json")
               (json_dumps
                  (JDict [(slit "message",
                           JStr (slit "Sample data from HTTP/3 server"));
                          (slit "items",
                           JList [Server.item 1 "Item 1" 100;
                                  Server.item 2 "Item 2" 200;
                                  Server.item 3 "Item 3" 300])]))
               st
           else
             responded sid 404 (slit "application/json")
               (json_dumps (JDict [(slit "error", JStr (slit "Not Found"));
                                   (slit "path", JStr path)]))
               st
       end
   end).
Proof.
  intros headers sid.
  unfold Server.handle_request, Server.handle_request_try, try_except at 1.
  fold headers. fold sid.
  unfold mbind, M_bind, lift.
  destruct (bytes_decode (dict_get headers (blit ":path") (blit "/")))
    as [path|e].
  2: { unfold try_except. by rewrite send_json_response_calls. }
  destruct (bytes_decode (dict_get headers (blit ":method") (blit "GET")))
    as [method|e].
  2: { unfold try_except. by rewrite send_json_response_calls. }
  repeat case_decide.
  - by rewrite send_response_calls by (done || apply no_surrogate_get_homepage).
  - unfold Server.datetime_now.
    by rewrite send_json_response_calls.
  - by rewrite send_json_response_calls.
  - by rewrite send_json_response_calls.
Qed.

Local Abbreviation handle_request_try :=
  (Server.handle_request_try h3_raises clock).

(** An exception of the [try] block is turned into a 500 response. *)
Lemma handle_request_caught event st e st1 :
  handle_request_try event st = (Raise e, st1) ->
  handle_request event st
  = (Ok tt, responded (h_stream_id event) 500 (slit "application/json")
              (json_dumps (error_500 e)) st1).
Proof.
  intros H. unfold Server.handle_request, try_except at 1. rewrite H.
  unfold try_except. by rewrite send_json_response_calls.
Qed.

Lemma handle_request_returns event st : (handle_request event st).1 = Ok tt.
Proof. by rewrite handle_request_unfold. Qed.

(** The [HeadersReceived] events among [events]. *)
Definition requests (events : list H3Event) : list HeadersReceived :=
  omap (fun ev => match ev with EvHeaders e => Some e | _ => None end) events.

Definition dispatch_all (st : Server.State) (es : list HeadersReceived)
  : Server.State :=
  foldl (fun s e => (handle_request e s).2) st es.

Lemma quic_event_received_dispatch_all events st :
  quic_event_received events st = (Ok tt, dispatch_all st (requests events)).
Proof.
  unfold Server.quic_event_received, try_except.
  match goal with |- context [for_each events ?f] => set (body := f) end.
  assert (for_each events body st = (Ok tt, dispatch_all st (requests events)))
    as ->; [|done].
  revert st. induction events as [|ev events IH]; intros st; [done|].
  cbn [for_each]. unfold mbind, M_bind.
  destruct ev as [e| |]; cbn [body requests omap].
  - pose proof (handle_request_returns e st) as Hr.
    destruct (handle_request e st) as [r st1] eqn:Heq. cbn in Hr. subst r.
    rewrite IH. change (requests (EvHeaders e :: events)) with (e :: requests events).
    unfold dispatch_all. cbn [foldl]. by rewrite Heq.
  - apply IH.
  - apply IH.
Qed.


(** *** What was sent on a stream *)

Definition is_send_headers (stream_id : Z) (c : H3Call) : bool :=
  match c with
  | SendHeaders s _ _ => bool_decide (s = stream_id)
  | _ => false
  end.

(** The number of responses started on a stream: one [send_headers] per
    dispatch. *)
Definition dispatch_count (stream_id : Z) (log : list Attempt) : nat :=
  length (List.filter (fun a => is_send_headers stream_id a.1) log).

Definition requests_on (stream_id : Z) (events : list H3Event) : nat :=
  length (List.filter (fun e => bool_decide (h_stream_id e = stream_id))
            (requests events)).

Lemma dispatch_count_app sid l1 l2 :
  dispatch_count sid (l1 ++ l2)
  = (dispatch_count sid l1 + dispatch_count sid l2)%nat.
Proof. unfold dispatch_count. by rewrite List.filter_app, length_app. Qed.

Lemma dispatch_count_responded sid sid' status ctype body st :
  dispatch_count sid (Server.calls (responded sid' status ctype body st))
  = (dispatch_count sid (Server.calls st)
     + if bool_decide (sid' = sid) then 1 else 0)%nat.
Proof.
  unfold responded, response. cbn [Server.calls attempt_all].
  repeat (destruct (h3_raises _ _));
    rewrite ?dispatch_count_app;
    cbn [dispatch_count List.filter is_send_headers fst length];
    destruct (bool_decide (sid' = sid)); cbn [length]; lia.
Qed.

Lemma dispatch_count_handle_request sid event st :
  dispatch_count sid (Server.calls (handle_request event st).2)
  = (dispatch_count sid (Server.calls st)
     + if bool_decide (h_stream_id event = sid) then 1 else 0)%nat.
Proof.
  rewrite handle_request_unfold. cbn [snd].
  repeat case_match; rewrite dispatch_count_responded;
    match goal with H : bool_decide _ = _ |- _ => by rewrite H end.
Qed.

Lemma dispatch_count_dispatch_all sid es st :
  dispatch_count sid (Server.calls (dispatch_all st es))
  = (dispatch_count sid (Server.calls st)
     + length (List.filter (fun e => bool_decide (h_stream_id e = sid)) es))%nat.
Proof.
  revert st. induction es as [|e es IH]; intros st; cbn [dispatch_all foldl].
  - cbn. lia.
  - fold (dispatch_all (handle_request e st).2 es).
    rewrite IH, dispatch_count_handle_request. cbn [List.filter].
    case_bool_decide; cbn [length]; lia.
Qed.

Lemma handle_request_ext e1 e2 st :
  h_stream_id e1 = h_stream_id e2 ->
  h_headers e1 = h_headers e2 ->
  handle_request e1 st = handle_request e2 st.
Proof.
  intros Hs Hh. unfold Server.handle_request, Server.handle_request_try.
  by rewrite Hs, Hh.
Qed.

(** The stream id and the headers of every [HeadersReceived] event. *)
Definition request_headers (events : list H3Event)
  : list (Z * list (bytes * bytes)) :=
  map (fun e => (h_stream_id e, h_headers e)) (requests events).

Lemma dispatch_all_ext es1 : forall es2 st,
  map (fun e => (h_stream_id e, h_headers e)) es1
  = map (fun e => (h_stream_id e, h_headers e)) es2 ->
  dispatch_all st es1 = dispatch_all st es2.
Proof.
  induction es1 as [|e1 es1 IH]; intros [|e2 es2] st H; try done.
  cbn [map] in H. injection H as Hs Hh Hrest.
  unfold dispatch_all. cbn [foldl].
  rewrite (handle_request_ext e1 e2 st Hs Hh). by apply IH.
Qed.

(** C6 (as amended). A request whose headers lack [:path] is handled as a
    request for ['/']: the response is 200 with the homepage, or 500 when
    the [:method] value is not valid UTF-8.  [handle_request] returns
    normally and no 4xx response is made. *)
Theorem missing_path_served_as_root event st :
  py_dict (h_headers event) !! blit ":path" = None ->
  handle_request event st =
  (Ok tt,
   match bytes_decode
           (dict_get (py_dict (h_headers event)) (blit ":method") (blit "GET"))
   with
   | Ok _ =>
       responded (h_stream_id event) 200 (slit "text/html")
         Server.get_homepage st
   | Raise e =>
       responded (h_stream_id event) 500 (slit "application/json")
         (json_dumps (error_500 e)) st
   end).
Proof.
  intros Hpath. rewrite handle_request_unfold.
  unfold dict_get at 1. rewrite Hpath.
  change (bytes_decode (blit "/")) with (Ok (slit "/")).
  by destruct (bytes_decode _).
Qed.


(** The dict of [/api/status], read at time [now]. *)
Definition status_object (now : datetime) : json :=
  JDict [(slit "status", JStr (slit "healthy"));
         (slit "protocol", JStr (slit "HTTP/3"));
         (slit "timestamp", JStr (isoformat now))].

Lemma json_loads_status_object now :
  json_loads (json_dumps (status_object now)) = Some (status_object now).
Proof.
  pose proof (json_loads_flat_object
                [(slit "status", slit "healthy");
                 (slit "protocol", slit "HTTP/3");
                 (slit "timestamp", isoformat now)]) as H.
  unfold flat_object in H. cbn [map fst snd] in H. unfold status_object.
  rewrite H; [|by cbn [flat_plain forallb fst snd]; rewrite plain_isoformat|done].
  vm_compute. reflexivity.
Qed.

(** C9. A request with method GET and path [/api/status] is answered with
    status 200, content type [application/json] and a body that is the
    UTF-8 form of a text which [json.loads] reads as an object whose
    [status] field is ["healthy"]. *)
Theorem api_status_response event st :
  py_dict (h_headers event) !! blit ":method" = Some (blit "GET") ->
  py_dict (h_headers event) !! blit ":path" = Some (blit "/api/status") ->
  let body := json_dumps (status_object (clock (Server.clock_reads st))) in
  handle_request event st
  = (Ok tt,
     responded (h_stream_id event) 200 (slit "application/json") body
       (tick_clock st))
  /\ response (h_stream_id event) 200 (slit "application/json") body
     = [SendHeaders (h_stream_id event)
          [(blit ":status", blit "200");
           (blit "content-type", blit "application/json");
           (blit "content-length", bytes_of_int (len body));
           (blit "server", blit "HTTP/3-Python-Server")]
          false;
        SendData (h_stream_id event) (utf8 body) true;
        Transmit]
  /\ bytes_decode (utf8 body) = Ok body
  /\ exists obj,
       json_loads body = Some obj
       /\ json_get (slit "status") obj = Some (JStr (slit "healthy")).
Proof.
  intros Hm Hp body. split; [|split; [reflexivity|split]].
  - rewrite handle_request_unfold.
    unfold dict_get. rewrite Hm, Hp.
    change (bytes_decode (blit "/api/status")) with (Ok (slit "/api/status")).
    change (bytes_decode (blit "GET")) with (Ok (slit "GET")).
    cbv iota. rewrite decide_False by done. by rewrite decide_True.
  - apply bytes_decode_utf8_ascii, is_ascii_json_dumps.
  - exists (status_object (clock (Server.clock_reads st))). split.
    + apply json_loads_status_object.
    + reflexivity.
Qed.

(** The server starts one response per [HeadersReceived] event. *)
Lemma server_dispatch_count sid events st :
  dispatch_count sid (Server.calls (quic_event_received events st).2)
  = (dispatch_count sid (Server.calls st) + requests_on sid events)%nat.
Proof.
  rewrite quic_event_received_dispatch_all. cbn [snd].
  apply dispatch_count_dispatch_all.
Qed.

(** C10. The server answers each [HeadersReceived] event at once,
    whatever its [stream_ended] flag: handling the event attempts the
    calls of one response on its stream, so that a sequence of events
    starts as many responses on a stream as it holds [HeadersReceived]
    events of that stream.  A [DataReceived] event changes nothing; so two
    event sequences with the same stream ids and headers in their
    [HeadersReceived] events have the same effect. *)
Theorem response_depends_only_on_headers events1 events2 st :
  request_headers events1 = request_headers events2 ->
  quic_event_received events1 st = quic_event_received events2 st
  /\ (forall d st', quic_event_received [EvData d] st' = (Ok tt, st'))
  /\ (forall e st',
        quic_event_received [EvHeaders e] st' = handle_request e st')
  /\ (forall e st',
        exists status ctype body st1,
          quic_event_received [EvHeaders e] st'
          = (Ok tt, responded (h_stream_id e) status ctype body st1)
          /\ Server.calls st1 = Server.calls st'
          /\ dispatch_count (h_stream_id e)
               (Server.calls (quic_event_received [EvHeaders e] st').2)
             = S (dispatch_count (h_stream_id e) (Server.calls st')))
  /\ (forall sid,
        dispatch_count sid (Server.calls (quic_event_received events1 st).2)
        = (dispatch_count sid (Server.calls st) + requests_on sid events1)%nat).
Proof.
  intros H.
  assert (forall e st',
            quic_event_received [EvHeaders e] st' = handle_request e st')
    as Hone.
  { intros e st'. rewrite quic_event_received_dispatch_all.
    change (requests [EvHeaders e]) with [e]. unfold dispatch_all. cbn [foldl].
    pose proof (handle_request_returns e st') as Hr.
    destruct (handle_request e st') as [r st1]. cbn in Hr. by subst r. }
  split_and!.
  - rewrite !quic_event_received_dispatch_all. f_equal.
    by apply dispatch_all_ext.
  - intros d st'. by rewrite quic_event_received_dispatch_all.
  - exact Hone.
  - intros e st'.
    assert (exists status ctype body st1,
              handle_request e st'
              = (Ok tt, responded (h_stream_id e) status ctype body st1)
              /\ Server.calls st1 = Server.calls st')
      as (status & ctype & body & st1 & Hr & Hc).
    { rewrite handle_request_unfold. cbn zeta.
      destruct (bytes_decode (dict_get _ (blit ":path") _)); [|by eauto 6].
      destruct (bytes_decode (dict_get _ (blit ":method") _)); [|by eauto 6].
      repeat case_decide; eexists _, _, _, _; (split; [reflexivity|done]). }
    exists status, ctype, body, st1. rewrite Hone, Hr. split_and!; try done.
    cbn [snd]. rewrite dispatch_count_responded, Hc.
    rewrite bool_decide_eq_true_2 by done. lia.
  - intros sid. by rewrite server_dispatch_count.
Qed.

End ServerProperties.

(** ** The client *)

Section ClientProperties.

Variable h3_raises : list Attempt -> H3Call -> option Exn.

Local Abbreviation get := (Client.get h3_raises).
Local Abbreviation step := (Client.step h3_raises).
Local Abbreviation run := (Client.run h3_raises).

(** The entry dict of a stream and the body accumulated in it. *)
Definition entry (st : Client.State) (stream_id : Z) : option Client.Entry :=
  l ← Client._request_events st !! stream_id; Client.heap st !! l.

Definition body (st : Client.State) (stream_id : Z) : bytes :=
  match entry st stream_id with
  | Some e => Client.data e
  | None => []
  end.

(** How often [set_result] was called on the waiter of a stream. *)
Definition resolutions (stream_id : Z) (st : Client.State) : nat :=
  length (List.filter (fun p => bool_decide (p.1 = stream_id))
            (Client.set_result_calls st)).

(** What holds in every state the client can reach. *)
Record wf (st : Client.State) : Prop := {
  wf_heap : forall sid l,
    Client._request_events st !! sid = Some l -> is_Some (Client.heap st !! l);
  wf_inj : forall sid1 sid2 l,
    Client._request_events st !! sid1 = Some l ->
    Client._request_events st !! sid2 = Some l -> sid1 = sid2;
  wf_fresh : forall sid,
    is_Some (Client._request_waiter st !! sid) ->
    (sid < Client.next_stream_id st)%Z;
  wf_once : forall sid,
    resolutions sid st = 0%nat
    \/ (resolutions sid st = 1%nat
        /\ exists w, Client._request_waiter st !! sid = Some w
                     /\ Client.done w = true);
}.

Lemma wf_init : wf Client.init.
Proof.
  split; cbn.
  - intros sid l H. by rewrite lookup_empty in H.
  - intros sid1 sid2 l H. by rewrite lookup_empty in H.
  - intros sid [w H]. by rewrite lookup_empty in H.
  - intros sid. by left.
Qed.

(** *** The events handler in closed form *)

Definition prepared (sid : Z) (st : Client.State) : Client.State :=
  (Client.ensure_entry sid st).2.

Definition entry_loc (sid : Z) (st : Client.State) : Client.loc :=
  match Client._request_events st !! sid with
  | Some l => l
  | None => fresh (dom (Client.heap st))
  end.

Definition updated (l : Client.loc) (f : Client.Entry -> Client.Entry)
    (st : Client.State) : Client.State :=
  Client.with_heap (alter f l (Client.heap st)) st.

Definition resolve_if (ended : bool) (sid : Z) (l : Client.loc)
    (st : Client.State) : Client.State :=
  if ended then
    match Client._request_waiter st !! sid with
    | Some w => if Client.done w then st else (Client.set_result sid l st).2
    | None => st
    end
  else st.

Lemma prepared_lookup sid st :
  Client._request_events (prepared sid st) !! sid = Some (entry_loc sid st).
Proof.
  unfold prepared, entry_loc, Client.ensure_entry.
  destruct (Client._request_events st !! sid) eqn:E; cbn; [done|].
  by rewrite lookup_insert_eq.
Qed.

Lemma on_headers_closed e st :
  Client.on_http_event (EvHeaders e) st
  = (Ok tt, updated (entry_loc (h_stream_id e) st)
              (Client.set_headers (py_dict (h_headers e)))
              (prepared (h_stream_id e) st)).
Proof.
  unfold Client.on_http_event, mbind, M_bind.
  pose proof (prepared_lookup (h_stream_id e) st) as Hl. unfold prepared in Hl.
  unfold prepared.
  destruct (Client.ensure_entry (h_stream_id e) st) as [[[]|x] st1] eqn:E.
  2: { unfold Client.ensure_entry, Client.new_entry in E. by case_match. }
  cbn [snd] in *. unfold Client.lookup_entry. by rewrite Hl.
Qed.

Lemma on_data_closed e st :
  Client.on_http_event (EvData e) st
  = (Ok tt, resolve_if (d_stream_ended e) (d_stream_id e)
              (entry_loc (d_stream_id e) st)
              (updated (entry_loc (d_stream_id e) st)
                 (Client.append_data (d_data e))
                 (prepared (d_stream_id e) st))).
Proof.
  unfold Client.on_http_event, mbind, M_bind.
  pose proof (prepared_lookup (d_stream_id e) st) as Hl. unfold prepared in Hl.
  unfold prepared.
  destruct (Client.ensure_entry (d_stream_id e) st) as [[[]|x] st1] eqn:E.
  2: { unfold Client.ensure_entry, Client.new_entry in E. by case_match. }
  cbn [snd] in *. unfold Client.lookup_entry at 1. rewrite Hl.
  unfold Client.update_entry. fold (updated (entry_loc (d_stream_id e) st)
    (Client.append_data (d_data e)) st1).
  unfold resolve_if. destruct (d_stream_ended e); [|done].
  unfold Client.waiter_pending.
  destruct (Client._request_waiter _ !! d_stream_id e) as [w|] eqn:Ew; [|done].
  destruct (Client.done w) eqn:Ed; cbn [negb]; [done|].
  unfold Client.lookup_entry. cbn [updated Client.with_heap Client._request_events].
  rewrite Hl.
  destruct (Client.set_result _ _ _) as [[[]|x] st2] eqn:Es; [done|].
  unfold Client.set_result in Es.
  cbn [updated Client.with_heap Client._request_waiter] in Es, Ew.
  rewrite Ew in Es. unfold Client.done in Ed. by destruct (Client.fut w).
Qed.

Definition handled (st : Client.State) (ev : H3Event) : Client.State :=
  (Client.on_http_event ev st).2.

Lemma on_http_event_returns ev st : (Client.on_http_event ev st).1 = Ok tt.
Proof.
  destruct ev; [by rewrite on_headers_closed|by rewrite on_data_closed|done].
Qed.

Lemma quic_event_received_closed events st :
  Client.quic_event_received events st = (Ok tt, foldl handled st events).
Proof.
  unfold Client.quic_event_received. revert st.
  induction events as [|ev events IH]; intros st; [done|].
  cbn [for_each foldl]. unfold mbind, M_bind.
  pose proof (on_http_event_returns ev st) as Hr. unfold handled at 2.
  destruct (Client.on_http_event ev st) as [r st1]. cbn in Hr. subst r.
  apply IH.
Qed.

(** *** Reachable states are well formed *)

Lemma wf_new_entry sid st : wf st -> wf (Client.new_entry sid st).2.
Proof.
  intros Hwf. unfold Client.new_entry.
  pose proof (is_fresh (dom (Client.heap st))) as Hfresh.
  set (l := fresh (dom (Client.heap st))) in *.
  assert (forall s l', Client._request_events st !! s = Some l' -> l <> l') as Hne.
  { intros s l' Hs <-. apply Hfresh, elem_of_dom. by eapply wf_heap. }
  split; cbn.
  - intros s l'. rewrite lookup_insert. case_decide.
    + intros [= <-]. rewrite lookup_insert_eq. eauto.
    + intros Hs. rewrite lookup_insert_ne by by eapply Hne.
      by eapply wf_heap.
  - intros s1 s2 l'. rewrite !lookup_insert. repeat case_decide; subst.
    + done.
    + intros [= <-] Hs. by destruct (Hne _ _ Hs).
    + intros Hs [= <-]. by destruct (Hne _ _ Hs).
    + by apply wf_inj.
  - by apply wf_fresh.
  - by apply wf_once.
Qed.

Lemma wf_prepared sid st : wf st -> wf (prepared sid st).
Proof.
  intros Hwf. unfold prepared, Client.ensure_entry.
  destruct (Client._request_events st !! sid) eqn:E; [done|].
  by apply wf_new_entry.
Qed.

Lemma wf_updated l f st : wf st -> wf (updated l f st).
Proof.
  intros Hwf. split; cbn.
  - intros s l' Hs. rewrite lookup_alter. case_decide; subst.
    + apply fmap_is_Some. by eapply wf_heap.
    + by eapply wf_heap.
  - by apply wf_inj.
  - by apply wf_fresh.
  - by apply wf_once.
Qed.

Lemma resolutions_snoc sid st sid' l log :
  Client.set_result_calls st = log ++ [(sid', l)] ->
  resolutions sid st
  = (length (List.filter (fun p => bool_decide (p.1 = sid)) log)
     + if bool_decide (sid' = sid) then 1 else 0)%nat.
Proof.
  intros H. unfold resolutions. rewrite H, List.filter_app, length_app.
  cbn. by case_bool_decide.
Qed.

Lemma wf_resolve_if ended sid l st : wf st -> wf (resolve_if ended sid l st).
Proof.
  intros Hwf. unfold resolve_if. destruct ended; [|done].
  destruct (Client._request_waiter st !! sid) as [w|] eqn:Ew; [|done].
  destruct (Client.done w) eqn:Ed; [done|].
  unfold Client.set_result. rewrite Ew.
  unfold Client.done in Ed. destruct (Client.fut w) eqn:Ef; try done.
  split; [cbn|cbn|cbn|].
  - by apply wf_heap.
  - by apply wf_inj.
  - intros s. rewrite lookup_insert. case_decide; subst.
    + intros _. apply wf_fresh; [done|]. by rewrite Ew.
    + by apply wf_fresh.
  - intros s.
    rewrite (resolutions_snoc s _ sid l (Client.set_result_calls st)) by done.
    fold (resolutions s st). cbn [snd Client._request_waiter].
    rewrite lookup_insert.
    destruct (wf_once _ Hwf s) as [H0|[H1 [w' [Hw' Hd']]]].
    + rewrite H0. case_bool_decide; subst.
      * right. split; [done|]. rewrite decide_True by done. eauto.
      * by left.
    + rewrite H1. case_bool_decide; subst.
      * rewrite Ew in Hw'. injection Hw' as <-.
        unfold Client.done in Hd'. by rewrite Ef in Hd'.
      * right. split; [done|]. rewrite decide_False by done. eauto.
Qed.

Lemma wf_handled st ev : wf st -> wf (handled st ev).
Proof.
  intros Hwf. unfold handled. destruct ev as [e|e|].
  - rewrite on_headers_closed. by apply wf_updated, wf_prepared.
  - rewrite on_data_closed. by apply wf_resolve_if, wf_updated, wf_prepared.
  - done.
Qed.

Lemma wf_quic_event_received events st :
  wf st -> wf (Client.quic_event_received events st).2.
Proof.
  rewrite quic_event_received_closed. cbn [snd]. revert st.
  induction events as [|ev events IH]; intros st Hwf; [done|].
  cbn [foldl]. by apply IH, wf_handled.
Qed.

Lemma done_expire t w : Client.done w = true -> Client.expire t w = w.
Proof. unfold Client.done, Client.expire. by destruct (Client.fut w). Qed.

Lemma done_expire_mono t w :
  Client.done w = true -> Client.done (Client.expire t w) = true.
Proof. intros H. by rewrite done_expire. Qed.

Lemma wf_tick dt st : wf st -> wf (Client.tick dt st).
Proof.
  intros Hwf. split; cbn.
  - by apply wf_heap.
  - by apply wf_inj.
  - intros s. rewrite lookup_fmap, fmap_is_Some. by apply wf_fresh.
  - intros s. change (resolutions s (Client.tick dt st)) with (resolutions s st).
    destruct (wf_once _ Hwf s) as [H0|[H1 [w [Hw Hd]]]]; [by left|].
    right. split; [done|]. rewrite lookup_fmap, Hw. cbn.
    eexists. split; [done|]. by apply done_expire_mono.
Qed.

Lemma wf_perform c st : wf st -> wf (Client.perform h3_raises c st).2.
Proof.
  intros Hwf. unfold Client.perform.
  destruct (h3_raises _ _);
    (split; cbn;
     [by apply wf_heap|by apply wf_inj|by apply wf_fresh|by apply wf_once]).
Qed.

Lemma wf_stream_opened st :
  wf st -> wf (Client.stream_opened (Client.next_stream_id st) st).2.
Proof.
  intros Hwf. split; cbn; [by apply wf_heap|by apply wf_inj| |by apply wf_once].
  intros s Hs. pose proof (wf_fresh _ Hwf s Hs). lia.
Qed.

Lemma wf_register_waiter sid st :
  wf st ->
  Client._request_waiter st !! sid = None ->
  (sid < Client.next_stream_id st)%Z ->
  wf (Client.register_waiter sid st).2.
Proof.
  intros Hwf Hnone Hlt.
  split; cbn; [by apply wf_heap|by apply wf_inj| |].
  - intros s. rewrite lookup_insert. case_decide; subst; [done|].
    by apply wf_fresh.
  - intros s. change (resolutions s _) with (resolutions s st).
    destruct (wf_once _ Hwf s) as [H0|[H1 [w [Hw Hd]]]]; [by left|].
    right. split; [done|]. rewrite lookup_insert. case_decide; subst.
    + by rewrite Hnone in Hw.
    + eauto.
Qed.

Lemma wf_wait_for sid st : wf st -> wf (Client.wait_for sid st).2.
Proof.
  intros Hwf. split; cbn; [by apply wf_heap|by apply wf_inj| |].
  - intros s. rewrite lookup_alter. case_decide; subst.
    + rewrite fmap_is_Some. by apply wf_fresh.
    + by apply wf_fresh.
  - intros s. change (resolutions s _) with (resolutions s st).
    destruct (wf_once _ Hwf s) as [H0|[H1 [w [Hw Hd]]]]; [by left|].
    right. split; [done|]. rewrite lookup_alter. case_decide; subst.
    + rewrite Hw. cbn. eauto.
    + eauto.
Qed.

(** The state in which [get] has registered its waiter: after
    [send_headers], before [transmit]. *)
Definition registered (c : H3Call) (st : Client.State) : Client.State :=
  let sid := Client.next_stream_id st in
  (Client.register_waiter sid
     (Client.new_entry sid
        (Client.stream_opened sid (Client.perform h3_raises c st).2).2).2).2.

Definition get_headers (stream_id : Z) (p : bytes) : H3Call :=
  SendHeaders stream_id
    [(blit ":method", blit "GET");
     (blit ":scheme", blit "https");
     (blit ":authority", blit "localhost:4433");
     (blit ":path", p);
     (blit "user-agent", blit "Python-HTTP3-Client")]
    true.

(** [get] in closed form. *)
Lemma get_closed path st :
  let sid := Client.next_stream_id st in
  get path st =
  match str_encode path with
  | Raise e => (Raise e, st)
  | Ok p =>
      let c := get_headers sid p in
      match h3_raises (Client.calls st) c with
      | Some e => (Raise e, (Client.perform h3_raises c st).2)
      | None =>
          let st1 := registered c st in
          match h3_raises (Client.calls st1) Transmit with
          | Some e => (Raise e, (Client.perform h3_raises Transmit st1).2)
          | None =>
              (Ok sid,
               (Client.wait_for sid (Client.perform h3_raises Transmit st1).2).2)
          end
      end
  end.
Proof.
  unfold Client.get, mbind, M_bind, Client.get_next_available_stream_id, lift.
  cbn zeta. destruct (str_encode path) as [p|e]; [|done].
  fold (get_headers (Client.next_stream_id st) p).
  unfold registered, Client.perform. cbn.
  destruct (h3_raises (Client.calls st) _); [done|]. cbn.
  destruct (h3_raises _ Transmit); done.
Qed.

Lemma wf_registered c st : wf st -> wf (registered c st).
Proof.
  intros Hwf. unfold registered.
  pose proof (wf_perform c st Hwf) as H1.
  set (st1 := (Client.perform h3_raises c st).2) in *.
  assert (Client.next_stream_id st1 = Client.next_stream_id st) as Hn.
  { unfold st1, Client.perform. by destruct (h3_raises _ _). }
  assert (Client._request_waiter st1 = Client._request_waiter st) as Hw.
  { unfold st1, Client.perform. by destruct (h3_raises _ _). }
  rewrite <- Hn. apply wf_register_waiter.
  - by apply wf_new_entry, wf_stream_opened.
  - cbn. rewrite Hw. destruct (Client._request_waiter st !! _) eqn:E; [|done].
    assert (Client.next_stream_id st1 < Client.next_stream_id st)%Z; [|lia].
    apply wf_fresh; [done|]. by rewrite E.
  - cbn. lia.
Qed.

Lemma wf_get path st : wf st -> wf (get path st).2.
Proof.
  intros Hwf. rewrite get_closed. cbn zeta.
  destruct (str_encode path); [|done].
  destruct (h3_raises _ _); [by apply wf_perform|].
  destruct (h3_raises _ Transmit); cbn [snd].
  - by apply wf_perform, wf_registered.
  - by apply wf_wait_for, wf_perform, wf_registered.
Qed.

Lemma wf_step st i : wf st -> wf (step st i).
Proof.
  intros Hwf. destruct i; cbn.
  - by apply wf_get.
  - by apply wf_quic_event_received.
  - by apply wf_tick.
Qed.

Lemma wf_run ins st : wf st -> wf (run ins st).
Proof.
  revert st. induction ins as [|i ins IH]; intros st Hwf; [done|].
  cbn. by apply IH, wf_step.
Qed.

(** *** Body assembly *)

(** The payloads of the [DataReceived] events of a stream, in order. *)
Definition fragments (stream_id : Z) (events : list H3Event) : list bytes :=
  omap (fun ev =>
          match ev with
          | EvData d =>
              if decide (d_stream_id d = stream_id) then Some (d_data d) else None
          | _ => None
          end) events.

Lemma entry_prepared sid sid' st :
  wf st ->
  entry (prepared sid st) sid'
  = match entry st sid' with
    | Some e => Some e
    | None =>
        if decide (sid' = sid) then
          match Client._request_events st !! sid with
          | Some _ => None
          | None => Some Client.empty_entry
          end
        else None
    end.
Proof.
  intros Hwf. unfold prepared, Client.ensure_entry.
  destruct (Client._request_events st !! sid) as [l0|] eqn:E.
  { cbn [snd]. destruct (entry st sid'); [done|]. by case_decide. }
  pose proof (is_fresh (dom (Client.heap st))) as Hfresh.
  unfold entry, Client.new_entry. cbn.
  set (l := fresh (dom (Client.heap st))) in *.
  rewrite lookup_insert. case_decide as Hs; subst.
  - cbn. rewrite lookup_insert_eq, E. cbn. by rewrite decide_True.
  - destruct (Client._request_events st !! sid') as [l'|] eqn:E'; cbn.
    + destruct (wf_heap _ Hwf _ _ E') as [e He].
      rewrite lookup_insert_ne, He; [done|].
      intros <-. apply Hfresh, elem_of_dom. eauto.
    + by rewrite decide_False by done.
Qed.

Lemma body_prepared sid sid' st :
  wf st -> body (prepared sid st) sid' = body st sid'.
Proof.
  intros Hwf. unfold body. rewrite entry_prepared by done.
  destruct (entry st sid'); [done|]. case_decide; [|done].
  by destruct (Client._request_events st !! sid).
Qed.

Lemma entry_updated l f sid sid' st :
  wf st ->
  Client._request_events st !! sid = Some l ->
  entry (updated l f st) sid'
  = if decide (sid' = sid) then f <$> entry st sid' else entry st sid'.
Proof.
  intros Hwf Hl. unfold entry, updated. cbn.
  destruct (Client._request_events st !! sid') as [l'|] eqn:E'; cbn.
  - rewrite lookup_alter. case_decide as Hd; subst.
    + rewrite decide_True; [done|]. by eapply wf_inj.
    + rewrite decide_False; [done|]. intros ->. congruence.
  - by case_decide.
Qed.

Lemma body_resolve_if ended sid l st sid' :
  body (resolve_if ended sid l st) sid' = body st sid'.
Proof.
  unfold resolve_if. destruct ended; [|done].
  destruct (Client._request_waiter st !! sid) as [w|] eqn:E; [|done].
  destruct (Client.done w); [done|].
  unfold Client.set_result. rewrite E. by destruct (Client.fut w).
Qed.

Lemma entry_resolve_if ended sid l st sid' :
  entry (resolve_if ended sid l st) sid' = entry st sid'.
Proof.
  unfold resolve_if. destruct ended; [|done].
  destruct (Client._request_waiter st !! sid) as [w|] eqn:E; [|done].
  destruct (Client.done w); [done|].
  unfold Client.set_result. rewrite E. by destruct (Client.fut w).
Qed.

Lemma body_handled st ev sid :
  wf st ->
  body (handled st ev) sid = body st sid ++ concat (fragments sid [ev]).
Proof.
  intros Hwf. unfold handled. destruct ev as [e|e|].
  - rewrite on_headers_closed. cbn [snd]. unfold body at 1.
    rewrite (entry_updated _ _ (h_stream_id e))
      by (by apply wf_prepared || apply prepared_lookup).
    fold (body (prepared (h_stream_id e) st) sid).
    change (concat _) with (@nil byte). rewrite app_nil_r.
    rewrite <- (body_prepared (h_stream_id e) sid st Hwf). unfold body.
    case_decide; [|done]. by destruct (entry _ sid).
  - rewrite on_data_closed. cbn [snd]. rewrite body_resolve_if. unfold body at 1.
    rewrite (entry_updated _ _ (d_stream_id e))
      by (by apply wf_prepared || apply prepared_lookup).
    rewrite <- (body_prepared (d_stream_id e) sid st Hwf).
    unfold fragments. cbn [omap list_omap].
    destruct (decide (sid = d_stream_id e)) as [->|Hne].
    + rewrite decide_True by done. cbn. rewrite app_nil_r. unfold body.
      pose proof (prepared_lookup (d_stream_id e) st) as Hl.
      unfold entry at 1 2. rewrite Hl. cbn.
      destruct (wf_heap _ (wf_prepared (d_stream_id e) st Hwf) _ _ Hl) as [x Hx].
      by rewrite Hx.
    + rewrite decide_False by done. cbn. by rewrite app_nil_r.
  - cbn. by rewrite app_nil_r.
Qed.

Lemma fragments_cons sid ev events :
  concat (fragments sid (ev :: events))
  = concat (fragments sid [ev]) ++ concat (fragments sid events).
Proof.
  change (ev :: events) with ([ev] ++ events).
  unfold fragments. by rewrite omap_app, concat_app.
Qed.

Lemma body_foldl_handled events : forall st sid,
  wf st ->
  body (foldl handled st events) sid
  = body st sid ++ concat (fragments sid events).
Proof.
  induction events as [|ev events IH]; intros st sid Hwf.
  - cbn. by rewrite app_nil_r.
  - cbn [foldl]. rewrite IH by by apply wf_handled.
    rewrite body_handled by done. rewrite (fragments_cons sid ev events).
    by rewrite <- app_assoc.
Qed.

(** C3. Whatever happened on the connection before, after a sequence of
    events the body accumulated for a stream is the body it had, followed
    by the payloads of the [DataReceived] events of exactly that stream, in
    the order of arrival; the handler processes every event.  On a new
    connection the body is the concatenation of these payloads. *)
Theorem body_is_concatenation_of_own_fragments ins events sid :
  let st := run ins Client.init in
  (Client.quic_event_received events st).1 = Ok tt
  /\ body (Client.quic_event_received events st).2 sid
     = body st sid ++ concat (fragments sid events)
  /\ body (Client.quic_event_received events Client.init).2 sid
     = concat (fragments sid events).
Proof.
  cbn zeta. rewrite !quic_event_received_closed. split; [done|].
  cbn [snd]. split.
  - apply body_foldl_handled, wf_run, wf_init.
  - by rewrite body_foldl_handled by apply wf_init.
Qed.

(** *** The waiters *)

(** The effect of [set_result] on a waiter that is not done. *)
Definition resolved (l : Client.loc) (w : Client.Waiter) : Client.Waiter :=
  if Client.done w then w
  else {| Client.fut := Client.Finished l; Client.timer := Client.timer w |}.

Lemma waiter_resolve_if ended sid l st sid' :
  Client._request_waiter (resolve_if ended sid l st) !! sid'
  = if ended && bool_decide (sid' = sid)
    then resolved l <$> Client._request_waiter st !! sid'
    else Client._request_waiter st !! sid'.
Proof.
  unfold resolve_if. destruct ended; cbn [andb]; [|done].
  destruct (Client._request_waiter st !! sid) as [w|] eqn:E.
  - destruct (Client.done w) eqn:Ed.
    + case_bool_decide; subst; [|done]. rewrite E. cbn. unfold resolved.
      by rewrite Ed.
    + unfold Client.set_result. rewrite E.
      unfold Client.done in Ed. destruct (Client.fut w) eqn:Ef; try done.
      cbn. rewrite lookup_insert. case_bool_decide; subst.
      * rewrite decide_True by done. rewrite E. cbn. unfold resolved, Client.done.
        by rewrite Ef.
      * by rewrite decide_False by done.
  - case_bool_decide; subst; [|done]. by rewrite E.
Qed.

Definition ends_stream (sid : Z) (ev : H3Event) : bool :=
  match ev with
  | EvData d => d_stream_ended d && bool_decide (sid = d_stream_id d)
  | _ => false
  end.

Lemma waiter_handled st ev sid :
  Client._request_waiter (handled st ev) !! sid
  = if ends_stream sid ev
    then resolved (entry_loc sid st) <$> Client._request_waiter st !! sid
    else Client._request_waiter st !! sid.
Proof.
  unfold handled. destruct ev as [e|e|]; [|..|done].
  - rewrite on_headers_closed. cbn.
    unfold prepared, Client.ensure_entry. by case_match.
  - rewrite on_data_closed. cbn [snd ends_stream]. rewrite waiter_resolve_if.
    assert (Client._request_waiter
              (updated (entry_loc (d_stream_id e) st)
                 (Client.append_data (d_data e)) (prepared (d_stream_id e) st))
            = Client._request_waiter st) as ->.
    { cbn. unfold prepared, Client.ensure_entry. by case_match. }
    destruct (d_stream_ended e); cbn [andb]; [|done].
    by case_bool_decide; subst.
Qed.

Lemma now_handled st ev : Client.now (handled st ev) = Client.now st.
Proof.
  unfold handled. destruct ev as [e|e|]; [|..|done].
  - rewrite on_headers_closed. cbn.
    unfold prepared, Client.ensure_entry. by case_match.
  - rewrite on_data_closed. cbn [snd]. unfold resolve_if.
    assert (Client.now
              (updated (entry_loc (d_stream_id e) st)
                 (Client.append_data (d_data e)) (prepared (d_stream_id e) st))
            = Client.now st) as Hn.
    { cbn. unfold prepared, Client.ensure_entry. by case_match. }
    destruct (d_stream_ended e); [|done].
    destruct (Client._request_waiter _ !! _) as [w|] eqn:E; [|done].
    destruct (Client.done w); [done|].
    unfold Client.set_result. rewrite E. by destruct (Client.fut w).
Qed.

Lemma next_stream_id_handled st ev :
  Client.next_stream_id (handled st ev) = Client.next_stream_id st.
Proof.
  unfold handled. destruct ev as [e|e|]; [|..|done].
  - rewrite on_headers_closed. cbn.
    unfold prepared, Client.ensure_entry. by case_match.
  - rewrite on_data_closed. cbn [snd]. unfold resolve_if.
    assert (Client.next_stream_id
              (updated (entry_loc (d_stream_id e) st)
                 (Client.append_data (d_data e)) (prepared (d_stream_id e) st))
            = Client.next_stream_id st) as Hn.
    { cbn. unfold prepared, Client.ensure_entry. by case_match. }
    destruct (d_stream_ended e); [|done].
    destruct (Client._request_waiter _ !! _) as [w|] eqn:E; [|done].
    destruct (Client.done w); [done|].
    unfold Client.set_result. rewrite E. by destruct (Client.fut w).
Qed.

Lemma perform_fields c st :
  let st' := (Client.perform h3_raises c st).2 in
  Client.heap st' = Client.heap st
  /\ Client._request_events st' = Client._request_events st
  /\ Client._request_waiter st' = Client._request_waiter st
  /\ Client.next_stream_id st' = Client.next_stream_id st
  /\ Client.now st' = Client.now st
  /\ Client.set_result_calls st' = Client.set_result_calls st.
Proof. cbn zeta. unfold Client.perform. by destruct (h3_raises _ _). Qed.

Lemma registered_fields c st :
  let st' := registered c st in
  Client._request_waiter st'
  = <[Client.next_stream_id st :=
        {| Client.fut := Client.Pending; Client.timer := None |}]>
      (Client._request_waiter st)
  /\ Client.next_stream_id st' = (Client.next_stream_id st + 4)%Z
  /\ Client.now st' = Client.now st.
Proof.
  cbn zeta. unfold registered. cbn.
  by destruct (perform_fields c st) as (_ & _ & -> & _ & -> & _).
Qed.

(** What a successful [get] leaves behind. *)
Lemma get_ok path st sid st1 :
  get path st = (Ok sid, st1) ->
  sid = Client.next_stream_id st
  /\ Client._request_waiter st1
     = <[sid := {| Client.fut := Client.Pending;
                   Client.timer := Some (Client.now st + Client.timeout_ms) |}]>
         (Client._request_waiter st)
  /\ Client.next_stream_id st1 = (sid + 4)%Z
  /\ Client.now st1 = Client.now st.
Proof.
  rewrite get_closed. cbn zeta.
  destruct (str_encode path) as [p|]; [|done].
  destruct (h3_raises _ _); [done|].
  destruct (h3_raises _ Transmit) eqn:E; [done|].
  intros [= <- <-]. split; [done|].
  set (c := get_headers _ _).
  destruct (registered_fields c st) as (Hw & Hn & Ht).
  destruct (perform_fields Transmit (registered c st)) as (_ & _ & Hw' & Hn' & Ht' & _).
  cbn [Client.wait_for snd Client.with_waiter Client._request_waiter
       Client.next_stream_id Client.now].
  rewrite Hw', Hn', Ht', Hw, Hn, Ht. split; [|done].
  rewrite alter_insert_eq. done.
Qed.

(** [get] leaves the waiters of the streams opened earlier alone. *)
Lemma waiter_get path st sid :
  sid <> Client.next_stream_id st ->
  Client._request_waiter (get path st).2 !! sid
  = Client._request_waiter st !! sid.
Proof.
  intros Hne. rewrite get_closed. cbn zeta.
  destruct (str_encode path) as [p|]; [|done].
  set (c := get_headers _ _).
  destruct (perform_fields c st) as (_ & _ & Hw0 & _).
  destruct (h3_raises _ _); [cbn [snd]; by rewrite Hw0|].
  destruct (registered_fields c st) as (Hw & Hn & Ht).
  destruct (perform_fields Transmit (registered c st)) as (_ & _ & Hw' & _).
  destruct (h3_raises _ Transmit); cbn [snd].
  - rewrite Hw', Hw. by rewrite lookup_insert_ne.
  - cbn [Client.wait_for snd Client.with_waiter Client._request_waiter].
    rewrite lookup_alter_ne by done. rewrite Hw', Hw.
    by rewrite lookup_insert_ne.
Qed.

Lemma now_get path st : Client.now (get path st).2 = Client.now st.
Proof.
  rewrite get_closed. cbn zeta.
  destruct (str_encode path) as [p|]; [|done].
  set (c := get_headers _ _).
  destruct (perform_fields c st) as (_ & _ & _ & _ & Ht0 & _).
  destruct (h3_raises _ _); [done|].
  destruct (registered_fields c st) as (Hw & Hn & Ht).
  destruct (perform_fields Transmit (registered c st)) as (_ & _ & _ & _ & Ht' & _).
  destruct (h3_raises _ Transmit); cbn [snd]; [congruence|].
  cbn [Client.wait_for snd Client.with_waiter Client.now]. congruence.
Qed.

Lemma next_stream_id_get path st :
  (Client.next_stream_id st <= Client.next_stream_id (get path st).2)%Z.
Proof.
  rewrite get_closed. cbn zeta.
  destruct (str_encode path) as [p|]; [|done].
  set (c := get_headers _ _).
  destruct (perform_fields c st) as (_ & _ & _ & Hn0 & _).
  destruct (h3_raises _ _); [cbn [snd]; lia|].
  destruct (registered_fields c st) as (Hw & Hn & Ht).
  destruct (perform_fields Transmit (registered c st)) as (_ & _ & _ & Hn' & _).
  destruct (h3_raises _ Transmit); cbn [snd]; [lia|].
  cbn [Client.wait_for snd Client.with_waiter Client.next_stream_id]. lia.
Qed.

Lemma resolved_done l w : Client.done w = true -> resolved l w = w.
Proof. unfold resolved. by intros ->. Qed.

Lemma waiter_foldl_handled_kept events : forall st sid w,
  Client._request_waiter st !! sid = Some w ->
  exists w', Client._request_waiter (foldl handled st events) !! sid = Some w'
             /\ (Client.done w = true -> w' = w).
Proof.
  induction events as [|ev events IH]; intros st sid w Hw; [by eauto|].
  cbn [foldl].
  assert (exists w1, Client._request_waiter (handled st ev) !! sid = Some w1
                     /\ (Client.done w = true -> w1 = w)) as (w1 & Hw1 & Hd1).
  { rewrite waiter_handled, Hw. destruct (ends_stream sid ev); cbn; [|by eauto].
    eexists. split; [done|]. apply resolved_done. }
  destruct (IH _ _ _ Hw1) as (w' & Hw' & Hd').
  exists w'. split; [done|]. intros Hd. specialize (Hd1 Hd). subst w1. auto.
Qed.

Lemma waiter_step_kept st i sid w :
  wf st ->
  Client._request_waiter st !! sid = Some w ->
  exists w', Client._request_waiter (step st i) !! sid = Some w'
             /\ (Client.done w = true -> w' = w).
Proof.
  intros Hwf Hw. destruct i as [path|events|dt]; cbn [Client.step].
  - rewrite waiter_get; [by eauto|].
    assert (sid < Client.next_stream_id st)%Z; [|lia].
    apply wf_fresh; [done|]. by rewrite Hw.
  - rewrite quic_event_received_closed. cbn [snd].
    by apply waiter_foldl_handled_kept.
  - cbn. rewrite lookup_fmap, Hw. cbn. eexists. split; [done|].
    apply done_expire.
Qed.

Lemma waiter_run_kept ins : forall st sid w,
  wf st ->
  Client._request_waiter st !! sid = Some w ->
  exists w', Client._request_waiter (run ins st) !! sid = Some w'
             /\ (Client.done w = true -> w' = w).
Proof.
  induction ins as [|i ins IH]; intros st sid w Hwf Hw; [by eauto|].
  cbn [Client.run foldl].
  destruct (waiter_step_kept st i sid w Hwf Hw) as (w1 & Hw1 & Hd1).
  destruct (IH _ _ _ (wf_step st i Hwf) Hw1) as (w' & Hw' & Hd').
  exists w'. split; [done|]. intros Hd. specialize (Hd1 Hd). subst w1. auto.
Qed.

(** C5 (as amended). A waiter is never removed from [_request_waiter]:
    whatever happens on the connection afterwards, its entry is still
    there, and once it is done (resolved, or cancelled by the timeout) it
    stays exactly as it is. *)
Theorem waiters_are_kept ins ins' sid w :
  Client._request_waiter (run ins Client.init) !! sid = Some w ->
  exists w',
    Client._request_waiter (run ins' (run ins Client.init)) !! sid = Some w'
    /\ (Client.done w = true -> w' = w).
Proof. apply waiter_run_kept, wf_run, wf_init. Qed.


Lemma resolve_if_pending sid l st w :
  Client._request_waiter st !! sid = Some w ->
  Client.done w = false ->
  resolve_if true sid l st
  = {| Client.heap := Client.heap st;
       Client._request_events := Client._request_events st;
       Client._request_waiter :=
         <[sid := {| Client.fut := Client.Finished l;
                     Client.timer := Client.timer w |}]>
           (Client._request_waiter st);
       Client.calls := Client.calls st;
       Client.next_stream_id := Client.next_stream_id st;
       Client.now := Client.now st;
       Client.set_result_calls := Client.set_result_calls st ++ [(sid, l)] |}.
Proof.
  intros Hw Hd. unfold resolve_if. rewrite Hw, Hd.
  unfold Client.set_result. rewrite Hw.
  unfold Client.done in Hd. by destruct (Client.fut w).
Qed.

Lemma prepared_fields sid st :
  Client._request_waiter (prepared sid st) = Client._request_waiter st
  /\ Client.set_result_calls (prepared sid st) = Client.set_result_calls st.
Proof. unfold prepared, Client.ensure_entry. by case_match. Qed.

(** C4 (as amended). A [DataReceived] event with [stream_ended] set, for
    a stream whose waiter is registered and not done, resolves the waiter
    with the entry dict of the stream, which holds the headers received so
    far and the body including the payload of this event; the waiter
    stays in [_request_waiter]. *)
Theorem data_end_resolves_waiter ins d w :
  let st := run ins Client.init in
  let sid := d_stream_id d in
  let st' := (Client.quic_event_received [EvData d] st).2 in
  d_stream_ended d = true ->
  Client._request_waiter st !! sid = Some w ->
  Client.done w = false ->
  exists l,
    Client._request_events st' !! sid = Some l
    /\ Client.heap st' !! l
       = Some {| Client.headers := entry st sid ≫= Client.headers;
                 Client.data := body st sid ++ d_data d |}
    /\ Client.get_outcome st' sid = Some (Ok l)
    /\ Client.set_result_calls st' = Client.set_result_calls st ++ [(sid, l)]
    /\ dom (Client._request_waiter st') = dom (Client._request_waiter st).
Proof.
  intros st sid st' Hend Hw Hd.
  assert (wf st) as Hwf by apply wf_run, wf_init.
  exists (entry_loc sid st).
  unfold st'. rewrite quic_event_received_closed. cbn [snd foldl].
  unfold handled. rewrite on_data_closed. cbn [snd]. fold sid. rewrite Hend.
  destruct (prepared_fields sid st) as [Hpw Hpl].
  pose proof (prepared_lookup sid st) as Hl.
  rewrite (resolve_if_pending _ _ _ w) by (done || by cbn; rewrite Hpw).
  cbn [Client._request_events Client.heap Client.set_result_calls
       Client._request_waiter updated Client.with_heap Client.get_outcome].
  rewrite Hpw, Hpl. split; [done|]. split; [|split; [|split; [done|]]].
  - rewrite lookup_alter_eq.
    assert (Client.heap (prepared sid st) !! entry_loc sid st
            = entry (prepared sid st) sid) as ->.
    { unfold entry. by rewrite Hl. }
    rewrite entry_prepared by done. rewrite decide_True by done.
    unfold body. unfold entry.
    destruct (Client._request_events st !! sid) as [l0|] eqn:E; cbn; [|done].
    destruct (wf_heap _ Hwf _ _ E) as [e He]. by rewrite He.
  - unfold Client.get_outcome. cbn [Client._request_waiter].
    by rewrite lookup_insert_eq.
  - apply set_eq. intros s. rewrite !elem_of_dom, lookup_insert.
    case_decide; subst; [|done]. rewrite Hw. split; eauto.
Qed.

(** *** The timeout *)

(** An event of the stream that signals its end. *)
Definition carries_end (sid : Z) (ev : H3Event) : bool :=
  match ev with
  | EvHeaders e => h_stream_ended e && bool_decide (sid = h_stream_id e)
  | EvData d => d_stream_ended d && bool_decide (sid = d_stream_id d)
  | EvOther => false
  end.

Definition no_end_of_stream (sid : Z) (i : Client.Input) : bool :=
  match i with
  | Client.QuicEvent events => forallb (fun ev => negb (carries_end sid ev)) events
  | _ => true
  end.

(** The time that passes during a sequence of inputs, in milliseconds. *)
Definition elapsed (ins : list Client.Input) : N :=
  foldr (fun i n => match i with Client.Tick dt => dt + n | _ => n end) 0 ins.

(** The waiter of [sid] has its timer set to [d] and is pending before
    [d], or cancelled. *)
Definition armed (sid : Z) (d : N) (st : Client.State) : Prop :=
  exists w,
    Client._request_waiter st !! sid = Some w
    /\ Client.timer w = Some d
    /\ (sid < Client.next_stream_id st)%Z
    /\ ((Client.fut w = Client.Pending /\ Client.now st < d)
        \/ Client.fut w = Client.Cancelled).

Lemma now_foldl_handled events : forall st,
  Client.now (foldl handled st events) = Client.now st.
Proof.
  induction events as [|ev events IH]; intros st; [done|].
  cbn [foldl]. by rewrite IH, now_handled.
Qed.

Lemma next_stream_id_foldl_handled events : forall st,
  Client.next_stream_id (foldl handled st events) = Client.next_stream_id st.
Proof.
  induction events as [|ev events IH]; intros st; [done|].
  cbn [foldl]. by rewrite IH, next_stream_id_handled.
Qed.

Lemma waiter_foldl_handled_no_end sid events : forall st,
  forallb (fun ev => negb (carries_end sid ev)) events = true ->
  Client._request_waiter (foldl handled st events) !! sid
  = Client._request_waiter st !! sid.
Proof.
  induction events as [|ev events IH]; intros st H; [done|].
  cbn [forallb] in H. apply andb_true_iff in H as [Hev Hrest].
  cbn [foldl]. rewrite IH by done. rewrite waiter_handled.
  destruct ev as [e|e|]; try done.
  cbn [ends_stream carries_end] in *. apply negb_true_iff in Hev.
  by rewrite Hev.
Qed.

Lemma armed_step sid d st i :
  armed sid d st -> no_end_of_stream sid i = true -> armed sid d (step st i).
Proof.
  intros (w & Hw & Ht & Hlt & Hf) Hi.
  destruct i as [path|events|dt]; cbn [Client.step].
  - exists w. rewrite waiter_get by lia. rewrite now_get.
    pose proof (next_stream_id_get path st). split_and!; [done..|lia|done].
  - exists w. rewrite quic_event_received_closed. cbn [snd].
    rewrite waiter_foldl_handled_no_end by done.
    by rewrite now_foldl_handled, next_stream_id_foldl_handled.
  - cbn [Client.tick]. unfold armed. cbn. rewrite lookup_fmap, Hw. cbn.
    unfold Client.expire. rewrite Ht.
    destruct Hf as [[Hp Hnow]|Hc].
    + rewrite Hp. destruct (d <=? Client.now st + dt) eqn:E.
      * eexists. split; [done|]. cbn. split_and!; [done..|by right].
      * apply N.leb_gt in E. eexists. split; [done|].
        split_and!; [done..|by left].
    + rewrite Hc. eexists. split; [done|]. split_and!; [done..|by right].
Qed.

Lemma armed_run sid d ins : forall st,
  armed sid d st -> forallb (no_end_of_stream sid) ins = true ->
  armed sid d (run ins st).
Proof.
  induction ins as [|i ins IH]; intros st Ha H; [done|].
  cbn [forallb] in H. apply andb_true_iff in H as [Hi Hrest].
  cbn [Client.run foldl]. apply IH; [|done]. by apply armed_step.
Qed.

Lemma now_step st i :
  Client.now (step st i)
  = Client.now st + match i with Client.Tick dt => dt | _ => 0 end.
Proof.
  destruct i as [path|events|dt]; cbn [Client.step].
  - rewrite now_get. lia.
  - rewrite quic_event_received_closed. cbn [snd].
    rewrite now_foldl_handled. lia.
  - done.
Qed.

Lemma now_run ins : forall st,
  Client.now (run ins st) = Client.now st + elapsed ins.
Proof.
  induction ins as [|i ins IH]; intros st; cbn [Client.run foldl elapsed foldr].
  - lia.
  - fold (run ins (step st i)). rewrite IH, now_step.
    fold (elapsed ins). destruct i; lia.
Qed.

(** A tick cancels a waiter only when its own deadline has passed. *)
Lemma tick_spares_waiter st dt sid w :
  Client._request_waiter st !! sid = Some w ->
  (forall d, Client.timer w = Some d -> Client.now st + dt < d) ->
  Client._request_waiter (Client.tick dt st) !! sid = Some w.
Proof.
  intros Hw Hd. cbn. rewrite lookup_fmap, Hw. cbn. f_equal.
  unfold Client.expire. destruct (Client.fut w); try done.
  destruct (Client.timer w) as [d|]; [|done].
  specialize (Hd d eq_refl). apply N.leb_gt in Hd. by rewrite Hd.
Qed.

(** C8. A [get] whose stream sees no end-of-stream signal while 5000 ms
    (or more) pass fails with [TimeoutError]: its waiter is cancelled, not
    resolved and not left pending.  The tick that fires one timeout leaves
    every waiter whose own deadline has not passed as it is. *)
Theorem request_times_out ins0 path sid st1 ins :
  get path (run ins0 Client.init) = (Ok sid, st1) ->
  forallb (no_end_of_stream sid) ins = true ->
  Client.timeout_ms <= elapsed ins ->
  Client.get_outcome (run ins st1) sid = Some (Raise TimeoutError)
  /\ (forall st dt sid' w,
        sid' <> sid ->
        Client._request_waiter st !! sid' = Some w ->
        (forall d, Client.timer w = Some d -> Client.now st + dt < d) ->
        Client._request_waiter (Client.tick dt st) !! sid' = Some w).
Proof.
  intros Hget Hno Hel. split.
  2: { intros st dt sid' w _. apply tick_spares_waiter. }
  destruct (get_ok _ _ _ _ Hget) as (Hsid & Hw & Hn & Ht).
  set (d := Client.now st1 + Client.timeout_ms).
  assert (armed sid d st1) as Ha.
  { eexists. rewrite Hw, lookup_insert_eq. split; [done|]. cbn.
    unfold d. rewrite Ht. split_and!; [done|lia|]. left. split; [done|].
    unfold Client.timeout_ms. lia. }
  destruct (armed_run sid d ins st1 Ha Hno) as (w & Hw' & _ & _ & Hf).
  unfold Client.get_outcome. rewrite Hw'.
  destruct Hf as [[_ Hlt] | ->]; [|done].
  rewrite now_run in Hlt. unfold d in Hlt. lia.
Qed.

End ClientProperties.

(** * Concrete runs *)

(** A transport that accepts every call, a clock and the text of the
    exceptions, for the runs below. *)
Definition never_raises : list Attempt -> H3Call -> option Exn :=
  fun _ _ => None.

Definition sample_clock : nat -> datetime :=
  fun _ => {| year := 2024; month := 5; day := 1; hour := 12; minute := 30;
              second := 59; microsecond := 123456 |}.

Definition sample_exn_str (e : Exn) : str :=
  match e with
  | UnicodeDecodeError =>
      slit "'utf-8' codec can't decode byte 0xff in position 0: invalid start byte"
  | UnicodeEncodeError => slit "'utf-8' codec can't encode character"
  | TimeoutError => []
  | KeyError => slit "0"
  | InvalidStateError => slit "invalid state"
  | TransportError _ => slit "transport error"
  end.

Definition request (stream_id : Z) (path : bytes) : HeadersReceived :=
  {| h_stream_id := stream_id;
     h_headers := [(blit ":method", blit "GET");
                   (blit ":scheme", blit "https");
                   (blit ":authority", blit "localhost:4433");
                   (blit ":path", path);
                   (blit "user-agent", blit "Python-HTTP3-Client")];
     h_stream_ended := true |}.

(** A request without [:path]. *)
Definition no_path_request : HeadersReceived :=
  {| h_stream_id := 0;
     h_headers := [(blit ":method", blit "GET");
                   (blit ":scheme", blit "https");
                   (blit ":authority", blit "localhost:4433")];
     h_stream_ended := true |}.

Definition response_headers (status content_type content_length : string)
  : list (bytes * bytes) :=
  [(blit ":status", blit status);
   (blit "content-type", blit content_type);
   (blit "content-length", blit content_length);
   (blit "server", blit "HTTP/3-Python-Server")].

(** ** C1: the content-length of the homepage *)

(** The header carries the number of characters of the body, the stream
    the UTF-8 form of the body. *)
Lemma content_length_is_len_of_str stream_id status_code body ctype :
  response stream_id status_code ctype body
  = [SendHeaders stream_id
       [(blit ":status", bytes_of_int status_code);
        (blit "content-type", utf8 ctype);
        (blit "content-length", bytes_of_int (Z.of_nat (length body)));
        (blit "server", blit "HTTP/3-Python-Server")] false;
     SendData stream_id (utf8 body) true;
     Transmit].
Proof. reflexivity. Qed.

(** The two lengths agree exactly for the ASCII bodies. *)
Lemma content_length_right_iff_ascii (body : str) :
  length (utf8 body) = length body <-> is_ascii body = true.
Proof.
  split; [|apply length_utf8_ascii].
  intros H. destruct (is_ascii body) eqn:E; [done|].
  pose proof (length_utf8_non_ascii body E). lia.
Qed.

(** They agree for every body of [send_json_response]: [json.dumps]
    escapes what is not ASCII. *)
Lemma json_content_length_right (data : json) :
  length (utf8 (json_dumps data)) = length (json_dumps data).
Proof. apply length_utf8_ascii, is_ascii_json_dumps. Qed.

(** C1. For [GET /] the server sends [content-length: 1144], the number
    of characters of the homepage, and then the 1152 bytes of its UTF-8
    form: the three characters outside ASCII take eight bytes more. *)
Theorem homepage_content_length_is_character_count clock exn_str :
  Server.calls
    (Server.handle_request never_raises clock exn_str
       (request 0 (blit "/")) Server.init).2
  = [(SendHeaders 0 (response_headers "200" "text/html" "1144") false, None);
     (SendData 0 (utf8 Server.get_homepage) true, None);
     (Transmit, None)]
  /\ length (utf8 Server.get_homepage) = 1152%nat
  /\ length Server.get_homepage = 1144%nat.
Proof.
  rewrite handle_request_unfold. split; [|split]; vm_compute; reflexivity.
Qed.

(** ** C2: resolved once, dispatched per request *)



(** ** C4, C5: what becomes of a waiter *)

Definition status_204 : HeadersReceived :=
  {| h_stream_id := 0;
     h_headers := [(blit ":status", blit "204")];
     h_stream_ended := true |}.

Definition status_200 : HeadersReceived :=
  {| h_stream_id := 0;
     h_headers := [(blit ":status", blit "200")];
     h_stream_ended := false |}.

Definition last_data : DataReceived :=
  {| d_stream_id := 0; d_data := blit "{}"; d_stream_ended := true |}.

(** A response that ends with its headers leaves the waiter pending, and
    a response that ends with data resolves the waiter and leaves it in
    the table. *)
Lemma end_on_headers_unresolved_end_on_data_kept :
  Client.get_outcome
    (Client.run never_raises
       [Client.CallGet (slit "/api/status"); Client.QuicEvent [EvHeaders status_204]]
       Client.init) 0
  = None
  /\ Client._request_waiter
       (Client.run never_raises
          [Client.CallGet (slit "/api/status");
           Client.QuicEvent [EvHeaders status_200; EvData last_data]]
          Client.init) !! 0%Z
     = Some {| Client.fut := Client.Finished 0; Client.timer := Some 5000 |}.
Proof. split; vm_compute; reflexivity. Qed.

(** The result of the waiter is the entry dict itself: data that arrives
    after the resolution is appended to the dict the caller of [get] was
    given. *)
Example resolved_entry_is_shared :
  Client.get_outcome
    (Client.run never_raises
       [Client.CallGet (slit "/api/status");
        Client.QuicEvent [EvHeaders status_200; EvData last_data;
                          EvData last_data]]
       Client.init) 0
  = Some (Ok 0%nat)
  /\ Client.data <$>
       Client.heap
         (Client.run never_raises
            [Client.CallGet (slit "/api/status");
             Client.QuicEvent [EvHeaders status_200; EvData last_data;
                               EvData last_data]]
            Client.init) !! 0%nat
     = Some (blit "{}{}").
Proof. split; vm_compute; reflexivity. Qed.

(** A resolved waiter and a timed-out waiter are both still in the
    table. *)
Lemma done_waiters_stay_registered :
  Client._request_waiter
    (Client.run never_raises
       [Client.CallGet (slit "/api/status");
        Client.QuicEvent [EvHeaders status_200; EvData last_data];
        Client.Tick 60000]
       Client.init) !! 0%Z
  = Some {| Client.fut := Client.Finished 0; Client.timer := Some 5000 |}
  /\ Client._request_waiter
       (Client.run never_raises
          [Client.CallGet (slit "/api/status"); Client.Tick 5000;
           Client.QuicEvent [EvHeaders status_200; EvData last_data]]
          Client.init) !! 0%Z
     = Some {| Client.fut := Client.Cancelled; Client.timer := Some 5000 |}.
Proof. split; vm_compute; reflexivity. Qed.

Lemma data_end_resolves_waiter_witness :
  d_stream_ended last_data = true
  /\ exists l,
       Client._request_events
         (Client.quic_event_received [EvData last_data]
            (Client.run never_raises
               [Client.CallGet (slit "/api/status");
                Client.QuicEvent [EvHeaders status_200]] Client.init)).2 !! 0%Z
       = Some l
       /\ Client.get_outcome
            (Client.quic_event_received [EvData last_data]
               (Client.run never_raises
                  [Client.CallGet (slit "/api/status");
                   Client.QuicEvent [EvHeaders status_200]] Client.init)).2 0
          = Some (Ok l).
Proof.
  split; [reflexivity|].
  destruct (data_end_resolves_waiter never_raises
              [Client.CallGet (slit "/api/status");
               Client.QuicEvent [EvHeaders status_200]]
              last_data
              {| Client.fut := Client.Pending; Client.timer := Some 5000 |})
    as (l & H1 & _ & H3 & _).
  - reflexivity.
  - vm_compute. reflexivity.
  - reflexivity.
  - exists l. split; [exact H1|exact H3].
Defined.

Lemma waiters_are_kept_witness :
  Client._request_waiter
    (Client.run never_raises
       [Client.CallGet (slit "/api/status");
        Client.QuicEvent [EvHeaders status_200; EvData last_data]]
       Client.init) !! 0%Z
  = Some {| Client.fut := Client.Finished 0; Client.timer := Some 5000 |}
  /\ exists w',
       Client._request_waiter
         (Client.run never_raises [Client.Tick 60000; Client.CallGet (slit "/")]
            (Client.run never_raises
               [Client.CallGet (slit "/api/status");
                Client.QuicEvent [EvHeaders status_200; EvData last_data]]
               Client.init)) !! 0%Z
       = Some w'
       /\ (true = true ->
           w' = {| Client.fut := Client.Finished 0; Client.timer := Some 5000 |}).
Proof.
  assert (Client._request_waiter
            (Client.run never_raises
               [Client.CallGet (slit "/api/status");
                Client.QuicEvent [EvHeaders status_200; EvData last_data]]
               Client.init) !! 0%Z
          = Some {| Client.fut := Client.Finished 0; Client.timer := Some 5000 |})
    as H by (vm_compute; reflexivity).
  split; [exact H|].
  exact (waiters_are_kept never_raises _
           [Client.Tick 60000; Client.CallGet (slit "/")] 0 _ H).
Defined.

(** ** C8: the timeout *)

Lemma request_times_out_witness :
  (Client.get never_raises (slit "/api/status") Client.init).1 = Ok 0%Z
  /\ Client.get_outcome
       (Client.run never_raises
          [Client.QuicEvent [EvHeaders status_200]; Client.Tick 2500;
           Client.CallGet (slit "/api/data"); Client.Tick 2500]
          (Client.get never_raises (slit "/api/status") Client.init).2) 0
     = Some (Raise TimeoutError).
Proof.
  split; [reflexivity|].
  apply (request_times_out never_raises [] (slit "/api/status") 0
           (Client.get never_raises (slit "/api/status") Client.init).2
           [Client.QuicEvent [EvHeaders status_200]; Client.Tick 2500;
            Client.CallGet (slit "/api/data"); Client.Tick 2500]).
  - vm_compute. reflexivity.
  - reflexivity.
  - vm_compute. discriminate.
Defined.

(** ** C6, C7, C9, C10: the server on concrete requests *)

(** ['4xx'] *)
Definition is_4xx (status : bytes) : bool :=
  match status with
  | [x34; _; _] => true
  | _ => false
  end.

(** A request without [:path] is answered with status 200 and the
    homepage. *)
Lemma missing_path_answered_200 :
  py_dict (h_headers no_path_request) !! blit ":path" = None
  /\ Server.calls
       (Server.handle_request never_raises sample_clock sample_exn_str
          no_path_request Server.init).2
     = [(SendHeaders 0 (response_headers "200" "text/html" "1144") false, None);
        (SendData 0 (utf8 Server.get_homepage) true, None);
        (Transmit, None)]
  /\ is_4xx (blit "200") = false.
Proof. repeat split; vm_compute; reflexivity. Qed.

Lemma missing_path_served_as_root_witness :
  py_dict (h_headers no_path_request) !! blit ":path" = None
  /\ Server.handle_request never_raises sample_clock sample_exn_str
       no_path_request Server.init
     = (Ok tt,
        responded never_raises 0 200 (slit "text/html") Server.get_homepage
          Server.init).
Proof.
  split; [vm_compute; reflexivity|].
  apply (missing_path_served_as_root never_raises sample_clock sample_exn_str
           no_path_request Server.init).
  vm_compute. reflexivity.
Defined.


Lemma api_status_response_witness :
  py_dict (h_headers (request 0 (blit "/api/status"))) !! blit ":path"
  = Some (blit "/api/status")
  /\ Server.handle_request never_raises sample_clock sample_exn_str
       (request 0 (blit "/api/status")) Server.init
     = (Ok tt,
        responded never_raises 0 200 (slit "application/json")
          (json_dumps (status_object (sample_clock 0%nat)))
          (tick_clock Server.init)).
Proof.
  split; [vm_compute; reflexivity|].
  apply (api_status_response never_raises sample_clock sample_exn_str
           (request 0 (blit "/api/status")) Server.init).
  - vm_compute. reflexivity.
  - vm_compute. reflexivity.
Defined.

Definition upload (stream_id : Z) (data : string) (ended : bool) : H3Event :=
  EvData {| d_stream_id := stream_id; d_data := blit data;
            d_stream_ended := ended |}.

Definition unfinished (e : HeadersReceived) : HeadersReceived :=
  {| h_stream_id := h_stream_id e; h_headers := h_headers e;
     h_stream_ended := false |}.

Lemma response_depends_only_on_headers_witness :
  Server.quic_event_received never_raises sample_clock sample_exn_str
    [EvHeaders (request 0 (blit "/api/status")); upload 0 "abc" false;
     EvHeaders (request 4 (blit "/nowhere")); upload 0 "def" true]
    Server.init
  = Server.quic_event_received never_raises sample_clock sample_exn_str
      [EvHeaders (unfinished (request 0 (blit "/api/status")));
       EvHeaders (unfinished (request 4 (blit "/nowhere")))]
      Server.init.
Proof.
  apply (response_depends_only_on_headers never_raises sample_clock sample_exn_str
           [EvHeaders (request 0 (blit "/api/status")); upload 0 "abc" false;
            EvHeaders (request 4 (blit "/nowhere")); upload 0 "def" true]
           [EvHeaders (unfinished (request 0 (blit "/api/status")));
            EvHeaders (unfinished (request 4 (blit "/nowhere")))]
           Server.init).
  reflexivity.
Defined.

(** * UTF-8: decoding what was encoded *)

Ltac lia_div := zify; Z.to_euclidean_division_equations; lia.

Lemma lor_add hi lo k : hi mod 2 ^ k = 0 -> lo < 2 ^ k -> N.lor hi lo = hi + lo.
Proof.
  intros Hhi Hlo.
  assert (N.land hi lo = 0) as Hland.
  { apply N.bits_inj_0. intros i. rewrite N.land_spec.
    destruct (N.lt_ge_cases i k) as [Hi|Hi].
    - rewrite <- (N.mod_pow2_bits_low hi k i Hi), Hhi, N.bits_0. done.
    - rewrite <- (N.mod_small lo (2 ^ k) Hlo), (N.mod_pow2_bits_high lo k i Hi).
      apply andb_false_r. }
  rewrite <- (N.lxor_lor _ _ Hland). symmetry. by apply N.add_nocarry_lxor.
Qed.

Lemma shiftr_6 c : N.shiftr c 6 = c / 64.
Proof. by rewrite N.shiftr_div_pow2. Qed.
Lemma shiftr_12 c : N.shiftr c 12 = c / 4096.
Proof. by rewrite N.shiftr_div_pow2. Qed.
Lemma shiftr_18 c : N.shiftr c 18 = c / 262144.
Proof. by rewrite N.shiftr_div_pow2. Qed.
Lemma shiftl_6 c : N.shiftl c 6 = c * 64.
Proof. by rewrite N.shiftl_mul_pow2. Qed.
Lemma shiftl_12 c : N.shiftl c 12 = c * 4096.
Proof. by rewrite N.shiftl_mul_pow2. Qed.
Lemma shiftl_18 c : N.shiftl c 18 = c * 262144.
Proof. by rewrite N.shiftl_mul_pow2. Qed.
Lemma land_3F c : N.land c 0x3F = c mod 64.
Proof. change 0x3F with (N.ones 6). by rewrite N.land_ones. Qed.
Lemma land_1F c : N.land c 0x1F = c mod 32.
Proof. change 0x1F with (N.ones 5). by rewrite N.land_ones. Qed.
Lemma land_0F c : N.land c 0x0F = c mod 16.
Proof. change 0x0F with (N.ones 4). by rewrite N.land_ones. Qed.
Lemma land_07 c : N.land c 0x07 = c mod 8.
Proof. change 0x07 with (N.ones 3). by rewrite N.land_ones. Qed.

Lemma lor_80 x : x < 64 -> N.lor 0x80 x = 128 + x.
Proof. intros. by apply (lor_add 0x80 x 6). Qed.
Lemma lor_C0 x : x < 64 -> N.lor 0xC0 x = 192 + x.
Proof. intros. by apply (lor_add 0xC0 x 6). Qed.
Lemma lor_E0 x : x < 16 -> N.lor 0xE0 x = 224 + x.
Proof. intros. by apply (lor_add 0xE0 x 4). Qed.
Lemma lor_F0 x : x < 8 -> N.lor 0xF0 x = 240 + x.
Proof. intros. by apply (lor_add 0xF0 x 3). Qed.

Lemma lor_shift_6 a x : x < 64 -> N.lor (a * 64) x = a * 64 + x.
Proof. intros. apply (lor_add (a * 64) x 6); [|done]. by apply N.Div0.mod_mul. Qed.
Lemma lor_shift_12 a x : x < 4096 -> N.lor (a * 4096) x = a * 4096 + x.
Proof. intros. apply (lor_add (a * 4096) x 12); [|done]. by apply N.Div0.mod_mul. Qed.
Lemma lor_shift_18 a x : x < 262144 -> N.lor (a * 262144) x = a * 262144 + x.
Proof. intros. apply (lor_add (a * 262144) x 18); [|done]. by apply N.Div0.mod_mul. Qed.

(** A Unicode scalar value: at most U+10FFFF and no surrogate. *)
Definition valid_cp (c : N) : bool := (c <=? 0x10FFFF) && negb (is_surrogate c).

Definition valid_str (s : str) : bool := forallb valid_cp s.

Lemma valid_cp_spec c :
  valid_cp c = true <-> c <= 0x10FFFF /\ ~ (0xD800 <= c <= 0xDFFF).
Proof.
  unfold valid_cp, is_surrogate.
  rewrite andb_true_iff, negb_true_iff, andb_false_iff, N.leb_le, !N.leb_gt.
  lia.
Qed.

Ltac bool_true := first [apply N.ltb_lt | apply N.leb_le | apply N.eqb_eq].
Ltac bool_false := first [apply N.ltb_ge | apply N.leb_gt | apply N.eqb_neq].

Lemma in_range_true lo hi x : lo <= x -> x <= hi -> in_range lo hi x = true.
Proof.
  intros. unfold in_range. apply andb_true_iff. by rewrite !N.leb_le.
Qed.

Lemma in_range_false lo hi x : x < lo \/ hi < x -> in_range lo hi x = false.
Proof.
  intros. unfold in_range. apply andb_false_iff. rewrite !N.leb_gt. tauto.
Qed.

Lemma utf8_decode_encode_cp c rest :
  valid_cp c = true ->
  utf8_decode (map Byte.to_N (utf8_encode_cp c) ++ rest)
  = result_bind (utf8_decode rest) (fun s => Ok (c :: s)).
Proof.
  intros [Hmax Hsur]%valid_cp_spec. unfold utf8_encode_cp.
  destruct (c <? 0x80) eqn:E1.
  { apply N.ltb_lt in E1. cbn [map app utf8_decode].
    rewrite to_N_byte_of_N by lia. by rewrite (proj2 (N.ltb_lt _ _) E1). }
  apply N.ltb_ge in E1.
  destruct (c <? 0x800) eqn:E2.
  { apply N.ltb_lt in E2.
    rewrite shiftr_6, land_3F, lor_C0, lor_80 by lia_div.
    cbn [map app utf8_decode].
    rewrite !to_N_byte_of_N by lia_div.
    rewrite (proj2 (N.ltb_ge _ _)) by lia_div.
    rewrite in_range_true by lia_div.
    unfold is_cont. rewrite (proj2 (N.leb_le 128 _)), (proj2 (N.leb_le _ 191))
      by lia_div.
    cbn [andb]. unfold cont_bits.
    rewrite land_1F, land_3F, shiftl_6, lor_shift_6 by lia_div.
    replace ((192 + c / 64) mod 32 * 64 + (128 + c mod 64) mod 64) with c
      by lia_div.
    done. }
  apply N.ltb_ge in E2.
  destruct (c <? 0x10000) eqn:E3.
  { apply N.ltb_lt in E3.
    rewrite shiftr_6, shiftr_12, !land_3F, lor_E0, !lor_80 by lia_div.
    cbn [map app utf8_decode].
    rewrite !to_N_byte_of_N by lia_div.
    rewrite (proj2 (N.ltb_ge _ _)) by lia_div.
    rewrite (in_range_false 0xC2) by lia_div.
    rewrite (in_range_true 0xE0) by lia_div.
    rewrite in_range_true.
    2: { destruct (_ =? 0xE0) eqn:E; [apply N.eqb_eq in E|]; lia_div. }
    2: { destruct (_ =? 0xED) eqn:E; [apply N.eqb_eq in E|]; lia_div. }
    unfold is_cont. rewrite (proj2 (N.leb_le 128 _)), (proj2 (N.leb_le _ 191))
      by lia_div.
    cbn [andb]. unfold cont_bits.
    rewrite land_0F, !land_3F, shiftl_6, shiftl_12 by lia_div.
    rewrite lor_shift_6 by lia_div. rewrite lor_shift_12 by lia_div.
    match goal with |- context [Ok (?x :: _)] => replace x with c by lia_div end.
    done. }
  apply N.ltb_ge in E3.
  rewrite shiftr_6, shiftr_12, shiftr_18, land_07, !land_3F, lor_F0, !lor_80
    by lia_div.
  cbn [map app utf8_decode].
  rewrite !to_N_byte_of_N by lia_div.
  rewrite (proj2 (N.ltb_ge _ _)) by lia_div.
  rewrite (in_range_false 0xC2) by lia_div.
  rewrite (in_range_false 0xE0) by lia_div.
  rewrite (in_range_true 0xF0) by lia_div.
  rewrite in_range_true.
  2: { destruct (_ =? 0xF0) eqn:E; [apply N.eqb_eq in E|]; lia_div. }
  2: { destruct (_ =? 0xF4) eqn:E; [apply N.eqb_eq in E|]; lia_div. }
  unfold is_cont.
  rewrite !(proj2 (N.leb_le 128 _)) by lia_div.
  rewrite !(proj2 (N.leb_le _ 191)) by lia_div.
  cbn [andb]. unfold cont_bits.
  rewrite land_07, !land_3F, shiftl_6, shiftl_12, shiftl_18 by lia_div.
  rewrite lor_shift_6 by lia_div. rewrite lor_shift_12 by lia_div.
  rewrite lor_shift_18 by lia_div.
  match goal with |- context [Ok (?x :: _)] => replace x with c by lia_div end.
  done.
Qed.

Lemma valid_str_no_surrogate s : valid_str s = true -> no_surrogate s = true.
Proof.
  unfold valid_str, no_surrogate. rewrite !forallb_forall. intros H c Hc.
  specialize (H c Hc). unfold valid_cp in H. by apply andb_true_iff in H as [_ ?].
Qed.

Lemma bytes_decode_utf8 s : valid_str s = true -> bytes_decode (utf8 s) = Ok s.
Proof.
  intros H. unfold bytes_decode, utf8. induction s as [|c s IH]; [done|].
  cbn [valid_str forallb] in H. apply andb_true_iff in H as [Hc Hs].
  cbn [map concat]. rewrite map_app, utf8_decode_encode_cp by done.
  by rewrite (IH Hs).
Qed.

(** [s.encode().decode('utf-8') == s] for every string of Unicode scalar
    values: what the client puts into [:path] is what the server routes
    on. *)
Theorem decode_encode s :
  valid_str s = true ->
  str_encode s = Ok (utf8 s) /\ bytes_decode (utf8 s) = Ok s.
Proof.
  intros H. split.
  - by apply str_encode_utf8, valid_str_no_surrogate.
  - by apply bytes_decode_utf8.
Qed.

(** * JSON: reading back what was written *)

Lemma shiftr_4 c : N.shiftr c 4 = c / 16.
Proof. by rewrite N.shiftr_div_pow2. Qed.
Lemma shiftr_8 c : N.shiftr c 8 = c / 256.
Proof. by rewrite N.shiftr_div_pow2. Qed.
Lemma shiftr_10 c : N.shiftr c 10 = c / 1024.
Proof. by rewrite N.shiftr_div_pow2. Qed.
Lemma shiftl_10 c : N.shiftl c 10 = c * 1024.
Proof. by rewrite N.shiftl_mul_pow2. Qed.
Lemma land_15 c : N.land c 15 = c mod 16.
Proof. change 15 with (N.ones 4). by rewrite N.land_ones. Qed.
Lemma land_3FF c : N.land c 0x3FF = c mod 1024.
Proof. change 0x3FF with (N.ones 10). by rewrite N.land_ones. Qed.
Lemma lor_D800 x : x < 1024 -> N.lor 0xD800 x = 0xD800 + x.
Proof. intros. by apply (lor_add 0xD800 x 10). Qed.
Lemma lor_DC00 x : x < 1024 -> N.lor 0xDC00 x = 0xDC00 + x.
Proof. intros. by apply (lor_add 0xDC00 x 10). Qed.
Lemma lor_shift_10 a x : x < 1024 -> N.lor (a * 1024) x = a * 1024 + x.
Proof. intros. apply (lor_add (a * 1024) x 10); [|done]. by apply N.Div0.mod_mul. Qed.

Lemma hex_value_hex_digit d : d < 16 -> hex_value (hex_digit d) = Some d.
Proof.
  intros H. unfold hex_digit, hex_value.
  destruct (d <? 10) eqn:E.
  - apply N.ltb_lt in E. rewrite in_range_true by lia. f_equal. lia.
  - apply N.ltb_ge in E. rewrite in_range_false by lia.
    rewrite in_range_true by lia. f_equal. lia.
Qed.

Lemma decode_uXXXX_hex4 n tail :
  n < 0x10000 -> decode_uXXXX (hex4 n ++ tail) = Some (n, tail).
Proof.
  intros H. unfold hex4, decode_uXXXX. cbn [app].
  rewrite !land_15, shiftr_12, shiftr_8, shiftr_4.
  rewrite !hex_value_hex_digit by lia_div. cbn [mbind option_bind].
  do 2 f_equal. lia_div.
Qed.

(** One character of a string literal is read back. *)
Lemma scanstring_escape_char c fuel tail :
  valid_cp c = true ->
  scanstring (S fuel) (escape_char c ++ tail)
  = '(cs, r) ← scanstring fuel tail; Some (c :: cs, r).
Proof.
  intros [Hmax Hsur]%valid_cp_spec. unfold escape_char.
  destruct (c =? 34) eqn:E34; [apply N.eqb_eq in E34; by subst|].
  destruct (c =? 92) eqn:E92; [apply N.eqb_eq in E92; by subst|].
  destruct (c =? 10) eqn:E10; [apply N.eqb_eq in E10; by subst|].
  destruct (c =? 13) eqn:E13; [apply N.eqb_eq in E13; by subst|].
  destruct (c =? 9) eqn:E9; [apply N.eqb_eq in E9; by subst|].
  destruct (c =? 8) eqn:E8; [apply N.eqb_eq in E8; by subst|].
  destruct (c =? 12) eqn:E12; [apply N.eqb_eq in E12; by subst|].
  destruct (in_range 32 126 c) eqn:Er.
  { unfold in_range in Er. apply andb_true_iff in Er as [Hlo _].
    apply N.leb_le in Hlo. cbn [app scanstring]. rewrite E34, E92.
    by rewrite (proj2 (N.ltb_ge c 32)) by lia. }
  destruct (c <? 0x10000) eqn:Eu.
  { apply N.ltb_lt in Eu.
    change ((slit "\u" ++ hex4 c) ++ tail) with (92 :: 117 :: (hex4 c ++ tail)).
    cbn [scanstring N.eqb Pos.eqb].
    rewrite decode_uXXXX_hex4 by done. cbn [mbind option_bind].
    rewrite in_range_false by lia. cbn [mbind option_bind]. done. }
  apply N.ltb_ge in Eu.
  rewrite shiftr_10, !land_3FF, lor_D800, lor_DC00 by lia_div.
  set (hi := 0xD800 + _). set (lo := 0xDC00 + _).
  change ((slit "\u" ++ hex4 hi ++ slit "\u" ++ hex4 lo) ++ tail)
    with (92 :: 117 :: (hex4 hi ++ 92 :: 117 :: (hex4 lo ++ tail))).
  cbn [scanstring N.eqb Pos.eqb].
  rewrite decode_uXXXX_hex4 by (unfold hi; lia_div). cbn [mbind option_bind].
  rewrite in_range_true by (unfold hi; lia_div).
  rewrite decode_uXXXX_hex4 by (unfold lo; lia_div). cbn [mbind option_bind].
  rewrite in_range_true by (unfold lo; lia_div). cbn [mbind option_bind].
  rewrite shiftl_10, lor_shift_10 by (unfold lo; lia_div).
  replace (0x10000 + ((hi - 0xD800) * 1024 + (lo - 0xDC00))) with c
    by (unfold hi, lo; lia_div).
  done.
Qed.

Definition escaped (s : str) : str := concat (map escape_char s).

Lemma length_escaped s : (length s <= length (escaped s))%nat.
Proof.
  induction s as [|c s IH]; [done|]. unfold escaped in *. cbn [map concat length].
  rewrite length_app.
  assert (1 <= length (escape_char c))%nat; [|lia].
  unfold escape_char, hex4. repeat case_match; cbn; lia.
Qed.

Lemma scanstring_escaped s rest : forall fuel,
  valid_str s = true -> (length s < fuel)%nat ->
  scanstring fuel (escaped s ++ 34 :: rest) = Some (s, rest).
Proof.
  induction s as [|c s IH]; intros fuel H Hf.
  - destruct fuel; [lia|]. done.
  - destruct fuel; [cbn in Hf; lia|].
    cbn [valid_str forallb] in H. apply andb_true_iff in H as [Hc Hs].
    unfold escaped. cbn [map concat]. rewrite <- app_assoc.
    rewrite scanstring_escape_char by done.
    fold (escaped s). rewrite IH; [done|done|]. cbn in Hf. lia.
Qed.

(** [json.loads(json.dumps(s)) == s] for a string of Unicode scalar
    values. *)
Lemma json_loads_dumps_string s :
  valid_str s = true -> json_loads (json_dumps (JStr s)) = Some (JStr s).
Proof.
  intros H. unfold json_dumps. cbn [dumps_at]. unfold encode_basestring_ascii.
  fold (escaped s). unfold json_loads.
  change (skip_ws ([34] ++ ?x)) with (34 :: x).
  change (length ([34] ++ ?x)) with (S (length x)).
  cbn [scan_once N.eqb Pos.eqb].
  change (escaped s ++ [34]) with (escaped s ++ 34 :: []).
  rewrite scanstring_escaped; [done|done|].
  rewrite length_app. pose proof (length_escaped s). cbn. lia.
Qed.

Definition flat_valid (items : list (str * str)) : bool :=
  forallb (fun kv => valid_str kv.1 && valid_str kv.2) items.

(** The members of a flat object as [json.dumps(indent=2)] writes them,
    with their escapes, up to the closing brace, followed by [tail]. *)
Fixpoint flat_text_escaped (items : list (str * str)) (tail : str) : str :=
  match items with
  | [] => tail
  | kv :: items' =>
      34 :: escaped kv.1 ++ 34 :: 58 :: 32 :: 34 :: escaped kv.2 ++ 34 ::
        match items' with
        | [] => 10 :: 125 :: tail
        | _ => 44 :: 10 :: 32 :: 32 :: flat_text_escaped items' tail
        end
  end.

Lemma flat_text_escaped_cons kv items tail :
  items <> [] ->
  flat_text_escaped (kv :: items) tail
  = 34 :: escaped kv.1 ++ 34 :: 58 :: 32 :: 34 :: escaped kv.2 ++ 34 ::
      44 :: 10 :: 32 :: 32 :: flat_text_escaped items tail.
Proof. by destruct items. Qed.

Lemma encode_basestring_ascii_app s tail :
  encode_basestring_ascii s ++ tail = 34 :: escaped s ++ 34 :: tail.
Proof.
  unfold encode_basestring_ascii, escaped. by rewrite <- !app_assoc.
Qed.

Lemma join_flat_text_escaped items tail :
  items <> [] ->
  join (slit "," ++ newline_indent 1)
    (map (fun kv => encode_basestring_ascii kv.1 ++ slit ": " ++ dumps_at 1 kv.2)
       (map (fun kv => (kv.1, JStr kv.2)) items))
  ++ 10 :: 125 :: tail
  = flat_text_escaped items tail.
Proof.
  induction items as [|kv items IH]; intros Hne; [done|].
  destruct (decide (items = [])) as [->|Hne'].
  - cbn [map join flat_text_escaped fst snd dumps_at].
    rewrite <- !app_assoc. by rewrite !encode_basestring_ascii_app.
  - rewrite flat_text_escaped_cons by done. rewrite <- (IH Hne').
    cbn [map]. rewrite join_cons by (by destruct items).
    cbn [fst snd dumps_at].
    rewrite <- !app_assoc. by rewrite !encode_basestring_ascii_app.
Qed.

Lemma flat_text_escaped_quote items tail :
  items <> [] -> exists r, flat_text_escaped items tail = 34 :: r.
Proof. destruct items; [done|]. intros _. eexists. reflexivity. Qed.

Lemma scan_once_escaped f s rest :
  valid_str s = true ->
  scan_once (S f) (34 :: escaped s ++ 34 :: rest) = Some (JStr s, rest).
Proof.
  intros H. cbn [scan_once N.eqb Pos.eqb].
  rewrite scanstring_escaped; [done|done|].
  rewrite length_app. pose proof (length_escaped s). cbn. lia.
Qed.

Lemma scan_members_flat_escaped f items tail : forall fuel,
  flat_valid items = true -> items <> [] -> (length items <= fuel)%nat ->
  scan_members (scan_once (S f)) fuel (flat_text_escaped items tail)
  = Some (map (fun kv => (kv.1, JStr kv.2)) items, tail).
Proof.
  induction items as [|kv items IH]; intros fuel H Hne Hf; [done|].
  cbn [flat_valid forallb] in H.
  apply andb_true_iff in H as [[Hk Hv]%andb_true_iff Hrest].
  destruct fuel as [|fuel]; [cbn in Hf; lia|].
  pose proof (length_escaped kv.1) as Hlen.
  destruct (decide (items = [])) as [->|Hne'].
  - cbn [flat_text_escaped scan_members].
    rewrite scanstring_escaped by (done || rewrite length_app; cbn; lia).
    cbn [mbind option_bind]. change (skip_ws (58 :: ?x)) with (58 :: x).
    cbv iota. change (skip_ws (32 :: 34 :: ?x)) with (34 :: x).
    rewrite scan_once_escaped by done. cbn [mbind option_bind].
    change (skip_ws (10 :: 125 :: ?x)) with (125 :: x). done.
  - rewrite flat_text_escaped_cons by done. cbn [scan_members].
    rewrite scanstring_escaped by (done || rewrite length_app; cbn; lia).
    cbn [mbind option_bind]. change (skip_ws (58 :: ?x)) with (58 :: x).
    cbv iota. change (skip_ws (32 :: 34 :: ?x)) with (34 :: x).
    rewrite scan_once_escaped by done. cbn [mbind option_bind].
    change (skip_ws (44 :: ?x)) with (44 :: x). cbv iota.
    rewrite skip_ws_indent.
    destruct (flat_text_escaped_quote items tail Hne') as [r Hr].
    rewrite Hr, skip_ws_quote, <- Hr.
    rewrite IH by (done || cbn in Hf; lia). done.
Qed.

Lemma length_flat_text_escaped items tail :
  (length items <= length (flat_text_escaped items tail))%nat.
Proof.
  induction items as [|kv items IH]; [cbn; lia|].
  destruct (decide (items = [])) as [->|Hne].
  - cbn. lia.
  - rewrite flat_text_escaped_cons by done. cbn [length]. rewrite !length_app.
    cbn [length]. rewrite !length_app. cbn [length]. lia.
Qed.

(** A non-empty object whose keys and values are strings of Unicode
    scalar values is read back from its serialisation. *)
Lemma json_loads_dumps_flat_object items :
  flat_valid items = true -> items <> [] ->
  json_loads (json_dumps (flat_object items))
  = Some (JDict (dict_of_pairs (map (fun kv => (kv.1, JStr kv.2)) items))).
Proof.
  intros H Hne.
  assert (json_dumps (flat_object items)
          = 123 :: 10 :: 32 :: 32 :: flat_text_escaped items []) as ->.
  { rewrite <- (join_flat_text_escaped items [] Hne).
    unfold json_dumps, flat_object. destruct items as [|kv items]; [done|].
    cbn [map dumps_at]. generalize (join (slit "," ++ newline_indent 1)).
    intros j. reflexivity. }
  unfold json_loads. change (skip_ws (123 :: ?x)) with (123 :: x).
  change (length (123 :: 10 :: ?x)) with (S (S (length x))).
  generalize (length (32 :: 32 :: flat_text_escaped items [])). intros f.
  rewrite scan_once_object.
  change (skip_ws (10 :: 32 :: 32 :: ?x)) with (skip_ws x).
  destruct (flat_text_escaped_quote items [] Hne) as [r Hr].
  rewrite Hr. change (skip_ws (34 :: r)) with (34 :: r). cbv iota.
  rewrite <- Hr. cbv zeta.
  rewrite scan_members_flat_escaped by (done || apply length_flat_text_escaped).
  done.
Qed.

(** What strict decoding returns is a string of Unicode scalar values. *)
Lemma utf8_decode_valid n : forall bs s,
  (length bs <= n)%nat -> utf8_decode bs = Ok s -> valid_str s = true.
Proof.
  induction n as [|n IH]; intros bs s Hn.
  { destruct bs; [by intros [= <-]|cbn in Hn; lia]. }
  destruct bs as [|b0 r0]; [by intros [= <-]|]. cbn [utf8_decode]. cbn in Hn.
  intros H.
  repeat (case_match; subst); try discriminate.
  all: match goal with
    | H : result_bind (utf8_decode ?r) _ = Ok _ |- _ =>
        destruct (utf8_decode r) as [s'|] eqn:Hr; [|discriminate H];
        cbn [result_bind] in H; injection H as <-;
        apply IH in Hr; [|cbn [length] in Hn |- *; lia];
        unfold valid_str in Hr |- *; cbn [forallb]; rewrite Hr, andb_true_r
    end.
  all: apply valid_cp_spec; unfold cont_bits;
    rewrite ?land_1F, ?land_0F, ?land_07, ?land_3F,
      ?shiftl_6, ?shiftl_12, ?shiftl_18.
  all: repeat match goal with
      | H : (_ && _) = true |- _ => apply andb_true_iff in H as [? ?]
      | H : in_range _ _ _ = true |- _ =>
          unfold in_range in H; apply andb_true_iff in H as [? ?]
      | H : is_cont _ = true |- _ =>
          unfold is_cont in H; apply andb_true_iff in H as [? ?]
      | H : (_ <=? _) = true |- _ => apply N.leb_le in H
      | H : (_ <? _) = true |- _ => apply N.ltb_lt in H
      | H : (_ <? _) = false |- _ => apply N.ltb_ge in H
      | H : (_ =? _) = true |- _ => apply N.eqb_eq in H
      | H : (_ =? _) = false |- _ => apply N.eqb_neq in H
      end.
  all: rewrite ?lor_shift_6 by lia_div; rewrite ?lor_shift_12 by lia_div;
    rewrite ?lor_shift_18 by lia_div.
  all: lia_div.
Qed.

Lemma bytes_decode_valid bs s : bytes_decode bs = Ok s -> valid_str s = true.
Proof. unfold bytes_decode. by apply (utf8_decode_valid _ _ _ (le_n _)). Qed.

Lemma dict_set_fresh k v d : k ∉ d.*1 -> dict_set k v d = d ++ [(k, v)].
Proof.
  induction d as [|[k' v'] d IH]; [done|]. cbn [dict_set fmap list_fmap fst].
  intros [Hne Hk]%not_elem_of_cons. rewrite decide_False by done.
  by rewrite IH.
Qed.

Lemma dict_of_pairs_NoDup pairs : NoDup pairs.*1 -> dict_of_pairs pairs = pairs.
Proof.
  unfold dict_of_pairs.
  induction pairs as [|[k v] pairs IH] using rev_ind; [done|].
  rewrite fmap_app. intros (Hnd & Hk & _)%NoDup_app.
  rewrite foldl_app. cbn [foldl fst snd]. rewrite IH by done.
  apply dict_set_fresh. intros Hin. apply (Hk k Hin). cbn. apply list_elem_of_here.
Qed.

(** [json.loads(json.dumps(d, indent=2)) == d] for every dict [d] whose
    keys and values are strings of Unicode scalar values: the escapes that
    [dumps] writes for quotes, backslashes, control characters and
    everything outside ASCII, surrogate pairs included, are read back by
    [loads]. *)
Theorem flat_object_round_trip items :
  flat_valid items = true -> NoDup items.*1 ->
  json_loads (json_dumps (flat_object items)) = Some (flat_object items).
Proof.
  intros Hv Hnd. destruct (decide (items = [])) as [->|Hne]; [done|].
  rewrite json_loads_dumps_flat_object by done. unfold flat_object.
  rewrite dict_of_pairs_NoDup; [done|].
  rewrite <- list_fmap_compose. by erewrite list_fmap_ext.
Qed.

(** * Further properties of the server *)

Section ServerFurther.

Variable h3_raises : list Attempt -> H3Call -> option Exn.
Variable clock : nat -> datetime.
Variable exn_str : Exn -> str.

Local Abbreviation send_response := (Server.send_response h3_raises).
Local Abbreviation send_json_response := (Server.send_json_response h3_raises).
Local Abbreviation handle_request :=
  (Server.handle_request h3_raises clock exn_str).
Local Abbreviation quic_event_received :=
  (Server.quic_event_received h3_raises clock exn_str).
Local Abbreviation responded := (responded h3_raises).
Local Abbreviation attempt_all := (attempt_all h3_raises).

(** ** [send_response] *)

(** A log in which every attempt carries the verdict of the transport and
    only the last one may have raised. *)
Fixpoint attempted (log : list Attempt) (new : list Attempt) : Prop :=
  match new with
  | [] => True
  | (c, o) :: new' =>
      o = h3_raises log c
      /\ (o = None \/ new' = [])
      /\ attempted (log ++ [(c, o)]) new'
  end.

Lemma attempt_all_app cs log :
  exists new,
    attempt_all cs log = log ++ new
    /\ map fst new `prefix_of` cs
    /\ attempted log new
    /\ (Forall (fun a => a.2 = None) new -> map fst new = cs).
Proof.
  revert log. induction cs as [|c cs IH]; intros log.
  - exists []. cbn. rewrite app_nil_r. split_and!; try done.
  - simpl (attempt_all (c :: cs) log). destruct (h3_raises log c) as [e|] eqn:E.
    + exists [(c, Some e)]. split_and!; try done.
      * by apply prefix_cons, prefix_nil.
      * cbn. rewrite E. repeat split; auto.
      * intros H. by apply Forall_inv in H.
    + destruct (IH (log ++ [(c, None)])) as (new & -> & Hp & Ha & Hall).
      exists ((c, None) :: new). rewrite <- app_assoc. split_and!; try done.
      * cbn. by apply prefix_cons.
      * cbn. rewrite E. repeat split; auto.
      * intros H. cbn. f_equal. apply Hall. by apply Forall_inv_tail in H.
Qed.

(** [send_response] never raises, whatever the transport does.  It only
    appends to the log: a prefix of [send_headers] (stream left open),
    [send_data] (with the end of the stream), [transmit], in this order,
    each with the verdict of the transport, and nothing after a call that
    raised. *)
Theorem send_response_contained stream_id status_code body content_type st :
  exists new,
    send_response stream_id status_code body content_type st
    = (Ok tt, {| Server.calls := Server.calls st ++ new;
                 Server.clock_reads := Server.clock_reads st |})
    /\ map fst new `prefix_of` response stream_id status_code content_type body
    /\ attempted (Server.calls st) new.
Proof.
  unfold Server.send_response, try_except, mbind, M_bind, lift.
  rewrite !str_encode_str_of_int.
  assert (forall st' : Server.State,
            st' = {| Server.calls := Server.calls st' ++ [];
                     Server.clock_reads := Server.clock_reads st' |}) as Hnil.
  { intros [? ?]. cbn. by rewrite app_nil_r. }
  destruct (str_encode content_type) as [ctype|e] eqn:Ec.
  2: { exists []. split_and!; [by rewrite <- Hnil|apply prefix_nil|done]. }
  assert (ctype = utf8 content_type) as ->.
  { clear -Ec. revert ctype Ec. induction content_type as [|c s IH]; intros ctype.
    - by intros [= <-].
    - cbn. destruct (is_surrogate c); [done|].
      destruct (str_encode s) as [bs|]; [|done]. intros [= <-].
      unfold utf8 in *. cbn. by rewrite (IH bs). }
  unfold Server.perform at 1. cbn [Server.calls Server.clock_reads].
  set (H := SendHeaders _ _ _).
  destruct (h3_raises (Server.calls st) H) as [e|] eqn:E1.
  { exists [(H, Some e)]. split_and!; [done|by apply prefix_cons, prefix_nil|].
    cbn. rewrite E1. repeat split; auto. }
  destruct (str_encode body) as [data|e] eqn:Eb.
  2: { exists [(H, None)]. split_and!; [done|by apply prefix_cons, prefix_nil|].
       cbn. rewrite E1. repeat split; auto. }
  assert (data = utf8 body) as ->.
  { clear -Eb. revert data Eb. induction body as [|c s IH]; intros data.
    - by intros [= <-].
    - cbn. destruct (is_surrogate c); [done|].
      destruct (str_encode s) as [bs|]; [|done]. intros [= <-].
      unfold utf8 in *. cbn. by rewrite (IH bs). }
  unfold Server.perform at 1. cbn [Server.calls Server.clock_reads].
  set (D := SendData _ _ _).
  destruct (h3_raises (Server.calls st ++ [(H, None)]) D) as [e|] eqn:E2.
  { exists [(H, None); (D, Some e)]. rewrite <- app_assoc.
    split_and!; [done|by apply prefix_cons, prefix_cons, prefix_nil|].
    cbn. rewrite E1, E2. repeat split; auto. }
  unfold Server.perform. cbn [Server.calls Server.clock_reads].
  destruct (h3_raises ((Server.calls st ++ [(H, None)]) ++ [(D, None)]) Transmit)
    as [e|] eqn:E3.
  - exists [(H, None); (D, None); (Transmit, Some e)]. rewrite <- !app_assoc.
    split_and!; [done|done|]. cbn. rewrite E1, E2, E3. repeat split; auto.
  - exists [(H, None); (D, None); (Transmit, None)]. rewrite <- !app_assoc.
    split_and!; [done|done|]. cbn. rewrite E1, E2, E3. repeat split; auto.
Qed.

(** ** Where the server writes *)

Definition on_stream_of (sids : list Z) (c : H3Call) : Prop :=
  match c with
  | SendHeaders s _ _ | SendData s _ _ => s ∈ sids
  | Transmit => True
  end.

Lemma responded_appends sid status ctype body st :
  exists new,
    Server.calls (responded sid status ctype body st) = Server.calls st ++ new
    /\ Forall (fun a => on_stream_of [sid] a.1) new.
Proof.
  destruct (attempt_all_app (response sid status ctype body) (Server.calls st))
    as (new & H & Hp & _).
  exists new. split; [done|].
  destruct Hp as [k Hk]. apply List.Forall_map.
  assert (Forall (on_stream_of [sid]) (response sid status ctype body)) as Hall.
  { unfold response. repeat constructor; cbn; set_solver. }
  rewrite Hk in Hall. by apply Forall_app in Hall as [? _].
Qed.

Lemma handle_request_appends event st :
  exists new,
    Server.calls (handle_request event st).2 = Server.calls st ++ new
    /\ Forall (fun a => on_stream_of [h_stream_id event] a.1) new.
Proof.
  rewrite handle_request_unfold. cbn [snd].
  repeat case_match; try apply responded_appends.
  exact (responded_appends _ _ _ _ (tick_clock st)).
Qed.

Lemma on_stream_of_mono sids sids' c :
  sids ⊆ sids' -> on_stream_of sids c -> on_stream_of sids' c.
Proof. intros H. destruct c; cbn; set_solver. Qed.

(** The server never raises out of [quic_event_received], only appends
    to what it has sent, and sends only on streams on which a
    [HeadersReceived] event of this call arrived. *)
Theorem server_answers_only_requests events st :
  exists new,
    (quic_event_received events st).1 = Ok tt
    /\ Server.calls (quic_event_received events st).2 = Server.calls st ++ new
    /\ Forall (fun a => on_stream_of (h_stream_id <$> requests events) a.1) new.
Proof.
  rewrite quic_event_received_dispatch_all. cbn [fst snd].
  generalize (requests events). intros es. revert st.
  induction es as [|e es IH]; intros st.
  - exists []. cbn. by rewrite app_nil_r.
  - unfold dispatch_all. cbn [foldl].
    destruct (handle_request_appends e st) as (new1 & H1 & Hall1).
    destruct (IH (handle_request e st).2) as (new2 & _ & H2 & Hall2).
    exists (new1 ++ new2). split; [done|]. split.
    + unfold dispatch_all in H2. rewrite H2, H1. by rewrite app_assoc.
    + apply Forall_app. split.
      * eapply Forall_impl; [exact Hall1|]. intros a.
        apply on_stream_of_mono. intros x ->%list_elem_of_singleton.
        cbn. apply list_elem_of_here.
      * eapply Forall_impl; [exact Hall2|]. intros a.
        apply on_stream_of_mono. intros x Hx. cbn. by apply list_elem_of_further.
Qed.

(** ** Routing *)

Lemma result_bind_raises {A B} (r : result A) (f : A -> B) e :
  result_bind r (fun a => Ok (f a)) = Raise e -> r = Raise e.
Proof. by destruct r; intros [= <-]. Qed.

(** Strict decoding fails with [UnicodeDecodeError] only. *)
Lemma utf8_decode_raises n : forall bs e,
  (length bs <= n)%nat -> utf8_decode bs = Raise e -> e = UnicodeDecodeError.
Proof.
  induction n as [|n IH]; intros bs e Hn.
  { destruct bs; [done|cbn in Hn; lia]. }
  destruct bs as [|b0 r0]; [done|]. cbn [utf8_decode]. cbn in Hn. intros H.
  repeat (case_match; subst); try (by injection H as <-);
    apply result_bind_raises in H; apply IH in H; try done; cbn in *; lia.
Qed.

Lemma bytes_decode_raises bs e :
  bytes_decode bs = Raise e -> e = UnicodeDecodeError.
Proof. unfold bytes_decode. by apply (utf8_decode_raises _ _ _ (le_n _)). Qed.

Local Abbreviation handle_request_try :=
  (Server.handle_request_try h3_raises clock).

(** The [try] block of [handle_request] raises exactly when the value of
    [:path] or of [:method] is not valid UTF-8, before anything is sent;
    the request is then answered with status 500 and the text of
    [UnicodeDecodeError].  No behaviour of the transport makes it raise. *)
Theorem answers_500_iff_not_utf8 event st :
  let path := dict_get (py_dict (h_headers event)) (blit ":path") (blit "/") in
  let method := dict_get (py_dict (h_headers event)) (blit ":method") (blit "GET") in
  let invalid := bytes_decode path = Raise UnicodeDecodeError
                 \/ bytes_decode method = Raise UnicodeDecodeError in
  (forall e st1,
     handle_request_try event st = (Raise e, st1)
     <-> e = UnicodeDecodeError /\ st1 = st /\ invalid)
  /\ (invalid ->
      handle_request event st
      = (Ok tt,
         responded (h_stream_id event) 500 (slit "application/json")
           (json_dumps (JDict [(slit "error", JStr (slit "Internal Server Error"));
                               (slit "message",
                                JStr (exn_str UnicodeDecodeError))]))
           st)).
Proof.
  intros path method invalid.
  assert (forall e st1,
            handle_request_try event st = (Raise e, st1)
            <-> e = UnicodeDecodeError /\ st1 = st /\ invalid) as Hiff.
  { intros e st1. unfold invalid, Server.handle_request_try, mbind, M_bind, lift.
    fold path. fold method.
    destruct (bytes_decode path) as [p|e1] eqn:Ep.
    2: { apply bytes_decode_raises in Ep as Hp. subst e1. split.
         - intros [= <- <-]. auto.
         - by intros (-> & -> & _). }
    destruct (bytes_decode method) as [m|e2] eqn:Em.
    2: { apply bytes_decode_raises in Em as Hm. subst e2. split.
         - intros [= <- <-]. auto.
         - by intros (-> & -> & _). }
    split; [|by intros (_ & _ & [?|?])].
    repeat case_decide; unfold Server.datetime_now.
    - by rewrite send_response_calls by (done || apply no_surrogate_get_homepage).
    - by rewrite send_json_response_calls.
    - by rewrite send_json_response_calls.
    - by rewrite send_json_response_calls. }
  split; [exact Hiff|].
  intros Hinv. apply (handle_request_caught h3_raises clock exn_str _ _ _ st).
  apply Hiff. auto.
Qed.

(** Apart from the stream id, a request is routed on the value of [:path]
    alone: the method and the other headers make no difference, as long as
    the value of [:method] is valid UTF-8. *)
Theorem routed_on_path_alone event1 event2 st m1 m2 :
  h_stream_id event1 = h_stream_id event2 ->
  dict_get (py_dict (h_headers event1)) (blit ":path") (blit "/")
  = dict_get (py_dict (h_headers event2)) (blit ":path") (blit "/") ->
  bytes_decode (dict_get (py_dict (h_headers event1)) (blit ":method") (blit "GET"))
  = Ok m1 ->
  bytes_decode (dict_get (py_dict (h_headers event2)) (blit ":method") (blit "GET"))
  = Ok m2 ->
  handle_request event1 st = handle_request event2 st.
Proof.
  intros Hs Hp H1 H2. rewrite !handle_request_unfold. cbn zeta.
  by rewrite Hs, Hp, H1, H2.
Qed.

(** ** [dict(event.headers)] *)

Lemma py_dict_snoc hs k v : py_dict (hs ++ [(k, v)]) = <[k := v]> (py_dict hs).
Proof. unfold py_dict. by rewrite foldl_app. Qed.

(** The last pair with a key decides its value; a key has a value exactly
    when it occurs. *)
Theorem py_dict_last_wins hs1 k v hs2 :
  k ∉ hs2.*1 ->
  py_dict (hs1 ++ (k, v) :: hs2) !! k = Some v
  /\ (forall hs k', py_dict hs !! k' = None <-> k' ∉ hs.*1).
Proof.
  intros Hk. split.
  - induction hs2 as [|[k2 v2] hs2 IH] using rev_ind.
    + by rewrite py_dict_snoc, lookup_insert_eq.
    + rewrite fmap_app in Hk. apply not_elem_of_app in Hk as [Hk Hk2].
      change ((k, v) :: hs2 ++ [(k2, v2)]) with (((k, v) :: hs2) ++ [(k2, v2)]).
      rewrite app_assoc, py_dict_snoc.
      rewrite lookup_insert_ne; [by apply IH|].
      intros ->. apply Hk2. cbn. apply list_elem_of_here.
  - intros hs k'. induction hs as [|[k2 v2] hs IH] using rev_ind.
    + cbn. rewrite lookup_empty. split; [intros _|done]. apply not_elem_of_nil.
    + rewrite py_dict_snoc, fmap_app, not_elem_of_app, lookup_insert.
      cbn. case_decide; subst.
      * split; [done|]. intros [_ H]. destruct H. apply list_elem_of_here.
      * rewrite IH. split; [|by intros [? _]]. intros H0. split; [done|].
        by intros ->%list_elem_of_singleton.
Qed.

(** ** The content-length of the JSON responses *)

(** Every response to a request whose path is not ['/'] has a JSON body
    of ASCII characters only, so its [content-length] is the number of
    bytes passed to [send_data]. *)
Theorem content_length_right_off_root event st :
  bytes_decode (dict_get (py_dict (h_headers event)) (blit ":path") (blit "/"))
  <> Ok (slit "/") ->
  exists status body st',
    handle_request event st
    = (Ok tt,
       responded (h_stream_id event) status (slit "application/json") body st')
    /\ response (h_stream_id event) status (slit "application/json") body
       = [SendHeaders (h_stream_id event)
            [(blit ":status", bytes_of_int status);
             (blit "content-type", blit "application/json");
             (blit "content-length", bytes_of_int (len (utf8 body)));
             (blit "server", blit "HTTP/3-Python-Server")]
            false;
          SendData (h_stream_id event) (utf8 body) true;
          Transmit].
Proof.
  intros Hp. rewrite handle_request_unfold. cbn zeta.
  assert (forall status body,
            response (h_stream_id event) status (slit "application/json")
              (json_dumps body)
            = [SendHeaders (h_stream_id event)
                 [(blit ":status", bytes_of_int status);
                  (blit "content-type", blit "application/json");
                  (blit "content-length",
                   bytes_of_int (len (utf8 (json_dumps body))));
                  (blit "server", blit "HTTP/3-Python-Server")]
                 false;
               SendData (h_stream_id event) (utf8 (json_dumps body)) true;
               Transmit]) as Hr.
  { intros status body. unfold response, len.
    by rewrite json_content_length_right. }
  destruct (bytes_decode (dict_get _ (blit ":path") _)) as [path|e];
    [|by eauto].
  destruct (bytes_decode (dict_get _ (blit ":method") _)); [|by eauto].
  rewrite decide_False by congruence.
  repeat case_decide; by eauto.
Qed.

(** ** The answer to an unknown path *)

(** A request for any other path is answered with status 404 and a JSON
    body from which [json.loads] reads back the error text and the very
    path that was asked for, whatever characters it holds. *)
Theorem not_found_names_path event st path method :
  bytes_decode (dict_get (py_dict (h_headers event)) (blit ":path") (blit "/"))
  = Ok path ->
  bytes_decode (dict_get (py_dict (h_headers event)) (blit ":method") (blit "GET"))
  = Ok method ->
  path <> slit "/" -> path <> slit "/api/status" -> path <> slit "/api/data" ->
  let body := json_dumps (JDict [(slit "error", JStr (slit "Not Found"));
                                 (slit "path", JStr path)]) in
  handle_request event st
  = (Ok tt, responded (h_stream_id event) 404 (slit "application/json") body st)
  /\ bytes_decode (utf8 body) = Ok body
  /\ json_loads body
     = Some (JDict [(slit "error", JStr (slit "Not Found"));
                    (slit "path", JStr path)]).
Proof.
  intros Hp Hm H1 H2 H3 body. split_and!.
  - rewrite handle_request_unfold. cbn zeta. rewrite Hp, Hm.
    by rewrite !decide_False by done.
  - apply bytes_decode_utf8_ascii, is_ascii_json_dumps.
  - apply bytes_decode_valid in Hp.
    apply (json_loads_dumps_flat_object
             [(slit "error", slit "Not Found"); (slit "path", path)]); [|done].
    unfold flat_valid. cbn [forallb fst snd]. by rewrite Hp.
Qed.

End ServerFurther.

(** * More about the client *)

Section ClientFurther.

Variable h3_raises : list Attempt -> H3Call -> option Exn.

Local Abbreviation get := (Client.get h3_raises).
Local Abbreviation step := (Client.step h3_raises).
Local Abbreviation run := (Client.run h3_raises).

(** ** What the events handler touches *)

(** The stream an event belongs to. *)
Definition stream_of (ev : H3Event) : option Z :=
  match ev with
  | EvHeaders e => Some (h_stream_id e)
  | EvData d => Some (d_stream_id d)
  | EvOther => None
  end.

Lemma resolve_if_fields ended sid l st :
  let st' := resolve_if ended sid l st in
  Client.heap st' = Client.heap st
  /\ Client._request_events st' = Client._request_events st
  /\ Client.calls st' = Client.calls st
  /\ Client.next_stream_id st' = Client.next_stream_id st
  /\ dom (Client._request_waiter st') = dom (Client._request_waiter st).
Proof.
  cbn zeta. unfold resolve_if. destruct ended; [|done].
  destruct (Client._request_waiter st !! sid) as [w|] eqn:E; [|done].
  destruct (Client.done w); [done|].
  unfold Client.set_result. rewrite E. destruct (Client.fut w); try done.
  cbn. split_and!; try done.
  apply set_eq. intros s. rewrite !elem_of_dom, lookup_insert.
  case_decide; subst; [|done]. rewrite E. split; eauto.
Qed.

Lemma prepared_more sid st :
  Client._request_events (prepared sid st)
  = <[sid := entry_loc sid st]> (Client._request_events st)
  /\ Client.calls (prepared sid st) = Client.calls st
  /\ Client.next_stream_id (prepared sid st) = Client.next_stream_id st.
Proof.
  unfold prepared, entry_loc, Client.ensure_entry.
  destruct (Client._request_events st !! sid) eqn:E; cbn; [|done].
  by rewrite insert_id.
Qed.

Lemma handled_fields st ev :
  Client._request_events (handled st ev)
  = match stream_of ev with
    | Some sid => <[sid := entry_loc sid st]> (Client._request_events st)
    | None => Client._request_events st
    end
  /\ dom (Client._request_waiter (handled st ev)) = dom (Client._request_waiter st)
  /\ Client.calls (handled st ev) = Client.calls st.
Proof.
  unfold handled. destruct ev as [e|e|]; [| |done].
  - rewrite on_headers_closed. cbn.
    destruct (prepared_more (h_stream_id e) st) as (-> & -> & _).
    by destruct (prepared_fields (h_stream_id e) st) as [-> _].
  - rewrite on_data_closed. cbn [snd stream_of].
    destruct (resolve_if_fields (d_stream_ended e) (d_stream_id e)
                (entry_loc (d_stream_id e) st)
                (updated (entry_loc (d_stream_id e) st)
                   (Client.append_data (d_data e)) (prepared (d_stream_id e) st)))
      as (_ & -> & -> & _ & ->). cbn.
    destruct (prepared_more (d_stream_id e) st) as (-> & -> & _).
    by destruct (prepared_fields (d_stream_id e) st) as [-> _].
Qed.

(** The handler keeps an entry for every stream an event names, whether
    or not a request was made on it, and removes none; it adds and
    removes no waiter, and calls nothing on the connection. *)
Theorem events_create_entries_only events st :
  let st' := (Client.quic_event_received events st).2 in
  (Client.quic_event_received events st).1 = Ok tt
  /\ dom (Client._request_events st')
     = dom (Client._request_events st) ∪ list_to_set (omap stream_of events)
  /\ dom (Client._request_waiter st') = dom (Client._request_waiter st)
  /\ Client.calls st' = Client.calls st.
Proof.
  cbn zeta. rewrite quic_event_received_closed. cbn [fst snd]. split; [done|].
  revert st. induction events as [|ev events IH]; intros st.
  - cbn. split_and!; try done. by rewrite (right_id_L ∅ (∪)).
  - cbn [foldl]. destruct (IH (handled st ev)) as (-> & -> & ->).
    destruct (handled_fields st ev) as (-> & -> & ->). split_and!; try done.
    destruct ev as [e|e|]; cbn [omap list_omap stream_of]; [| |done];
      rewrite dom_insert_L, list_to_set_cons;
      by rewrite (assoc_L (∪)), (comm_L (∪) (dom _) {[_]}).
Qed.

(** ** The headers of a response *)

(** The header lists of the [HeadersReceived] events of a stream, in
    order. *)
Definition header_blocks (stream_id : Z) (events : list H3Event)
    : list (list (bytes * bytes)) :=
  omap (fun ev =>
          match ev with
          | EvHeaders e =>
              if decide (h_stream_id e = stream_id) then Some (h_headers e)
              else None
          | _ => None
          end) events.

Definition entry_headers (st : Client.State) (stream_id : Z)
    : option (gmap bytes bytes) :=
  entry st stream_id ≫= Client.headers.

Lemma entry_headers_handled st ev sid :
  wf st ->
  entry_headers (handled st ev) sid
  = match ev with
    | EvHeaders e =>
        if decide (h_stream_id e = sid) then Some (py_dict (h_headers e))
        else entry_headers st sid
    | _ => entry_headers st sid
    end.
Proof.
  intros Hwf. unfold entry_headers, handled. destruct ev as [e|e|]; [| |done].
  - rewrite on_headers_closed. cbn [snd].
    rewrite (entry_updated _ _ (h_stream_id e))
      by (by apply wf_prepared || apply prepared_lookup).
    rewrite entry_prepared by done.
    destruct (decide (h_stream_id e = sid)) as [<-|Hne].
    + rewrite !decide_True by done.
      destruct (entry st (h_stream_id e)) eqn:E; [done|].
      unfold entry in E.
      destruct (Client._request_events st !! h_stream_id e) as [l|] eqn:El;
        [|done].
      destruct (wf_heap _ Hwf _ _ El) as [x Hx]. cbn in E. congruence.
    + rewrite !decide_False by done. by destruct (entry st sid).
  - rewrite on_data_closed. cbn [snd]. rewrite entry_resolve_if.
    rewrite (entry_updated _ _ (d_stream_id e))
      by (by apply wf_prepared || apply prepared_lookup).
    rewrite entry_prepared by done.
    destruct (decide (sid = d_stream_id e)) as [->|Hne].
    + destruct (entry st (d_stream_id e)) eqn:E; [done|].
      by destruct (Client._request_events st !! d_stream_id e).
    + by destruct (entry st sid).
Qed.

(** The headers kept for a stream are those of its last [HeadersReceived]
    event alone: a later block (trailers, say) replaces the earlier one
    and is not merged into it; [DataReceived] events and the events of
    other streams leave them as they are. *)
Theorem headers_are_the_last_block ins events sid :
  let st := run ins Client.init in
  entry_headers (Client.quic_event_received events st).2 sid
  = match last (header_blocks sid events) with
    | Some hs => Some (py_dict hs)
    | None => entry_headers st sid
    end.
Proof.
  cbn zeta. rewrite quic_event_received_closed. cbn [snd].
  assert (wf (run ins Client.init)) as Hwf by apply wf_run, wf_init.
  revert Hwf. generalize (run ins Client.init).
  induction events as [|ev events IH] using rev_ind; intros st Hwf; [done|].
  rewrite foldl_app. cbn [foldl].
  assert (wf (foldl handled st events)) as Hwf'.
  { clear IH. revert st Hwf. induction events as [|ev' events IH]; intros st Hwf;
      [done|]. cbn [foldl]. by apply IH, wf_handled. }
  rewrite entry_headers_handled by done. unfold header_blocks.
  rewrite omap_app. cbn [omap list_omap].
  destruct ev as [e|e|]; rewrite ?app_nil_r; try by apply IH.
  case_decide; rewrite ?app_nil_r; [|by apply IH].
  by rewrite last_snoc.
Qed.

(** ** When [get] fails *)

Lemma str_encode_raises s e : str_encode s = Raise e -> e = UnicodeEncodeError.
Proof.
  induction s as [|c s IH]; [done|]. cbn [str_encode].
  destruct (is_surrogate c); [by intros [= <-]|].
  destruct (str_encode s); [done|]. cbn. intros [= <-]. by apply IH.
Qed.

Lemma entry_ext st st' sid :
  Client.heap st' = Client.heap st ->
  Client._request_events st' = Client._request_events st ->
  entry st' sid = entry st sid.
Proof. unfold entry. by intros -> ->. Qed.

Lemma registered_entries c st :
  let st' := registered h3_raises c st in
  let l := fresh (dom (Client.heap st)) in
  Client.heap st' = <[l := Client.empty_entry]> (Client.heap st)
  /\ Client._request_events st'
     = <[Client.next_stream_id st := l]> (Client._request_events st)
  /\ Client.calls st' = Client.calls st ++ [(c, h3_raises (Client.calls st) c)].
Proof.
  cbn zeta. unfold registered. cbn.
  destruct (perform_fields h3_raises c st) as (-> & -> & _).
  split_and!; try done. unfold Client.perform. by destruct (h3_raises _ _).
Qed.

Lemma entry_registered_new c st :
  entry (registered h3_raises c st) (Client.next_stream_id st)
  = Some Client.empty_entry.
Proof.
  destruct (registered_entries c st) as (Hh & He & _). unfold entry.
  rewrite He, lookup_insert_eq. cbn -[registered].
  by rewrite Hh, lookup_insert_eq.
Qed.

Lemma entry_registered_old c st sid :
  wf st -> sid <> Client.next_stream_id st ->
  entry (registered h3_raises c st) sid = entry st sid.
Proof.
  intros Hwf Hne. destruct (registered_entries c st) as (Hh & He & _).
  unfold entry. rewrite He, lookup_insert_ne by done.
  destruct (Client._request_events st !! sid) as [l|] eqn:E; [|done].
  cbn -[registered]. rewrite Hh, lookup_insert_ne; [done|].
  intros <-. destruct (wf_heap _ Hwf _ _ E) as [x Hx].
  by apply (is_fresh (dom (Client.heap st))), elem_of_dom.
Qed.

(** How [get] can raise before it reaches its [await]. *)
Lemma get_raises_before_await path st e st1 :
  get path st = (Raise e, st1) ->
  let sid := Client.next_stream_id st in
  (str_encode path = Raise e /\ e = UnicodeEncodeError /\ st1 = st)
  \/ (exists p,
        str_encode path = Ok p
        /\ Client.calls st1 = Client.calls st ++ [(get_headers sid p, Some e)]
        /\ Client._request_events st1 = Client._request_events st
        /\ Client._request_waiter st1 = Client._request_waiter st)
  \/ (exists p,
        str_encode path = Ok p
        /\ Client.calls st1
           = Client.calls st ++ [(get_headers sid p, None); (Transmit, Some e)]
        /\ entry st1 sid = Some Client.empty_entry
        /\ Client._request_waiter st1
           = <[sid := {| Client.fut := Client.Pending; Client.timer := None |}]>
               (Client._request_waiter st)).
Proof.
  rewrite get_closed. cbn zeta.
  destruct (str_encode path) as [p|e0] eqn:Ep.
  2: { intros [= <- <-]. left. split_and!; try done.
       by apply (str_encode_raises path). }
  set (c := get_headers _ _).
  destruct (h3_raises (Client.calls st) c) as [e1|] eqn:E1.
  { intros [= <- <-]. right. left. exists p.
    destruct (perform_fields h3_raises c st) as (_ & -> & -> & _).
    split_and!; try done. unfold Client.perform. by rewrite E1. }
  destruct (h3_raises (Client.calls (registered h3_raises c st)) Transmit)
    as [e2|] eqn:E2; [|done].
  intros [= <- <-]. right. right. exists p.
  destruct (registered_entries c st) as (Hh & He & Hc).
  destruct (registered_fields h3_raises c st) as (Hw & _).
  destruct (perform_fields h3_raises Transmit (registered h3_raises c st))
    as (Hh' & He' & Hw' & _).
  split_and!; try done.
  - unfold Client.perform. rewrite E2. cbn -[registered]. rewrite Hc, E1.
    by rewrite <- app_assoc.
  - rewrite (entry_ext (registered h3_raises c st)) by done.
    apply entry_registered_new.
  - by rewrite Hw', Hw.
Qed.

(** A [DataReceived] event that ends the stream, among the inputs. *)
Definition data_ends (sid : Z) (i : Client.Input) : bool :=
  match i with
  | Client.QuicEvent events => existsb (ends_stream sid) events
  | _ => false
  end.

(** The waiter of [sid] is pending and nothing waits on it. *)
Definition unawaited (sid : Z) (st : Client.State) : Prop :=
  Client._request_waiter st !! sid
  = Some {| Client.fut := Client.Pending; Client.timer := None |}
  /\ (sid < Client.next_stream_id st)%Z.

Lemma waiter_foldl_handled_no_data_end sid events : forall st,
  existsb (ends_stream sid) events = false ->
  Client._request_waiter (foldl handled st events) !! sid
  = Client._request_waiter st !! sid.
Proof.
  induction events as [|ev events IH]; intros st H; [done|].
  cbn [existsb] in H. apply orb_false_iff in H as [Hev Hrest].
  cbn [foldl]. rewrite IH by done. by rewrite waiter_handled, Hev.
Qed.

Lemma unawaited_step sid st i :
  unawaited sid st -> data_ends sid i = false -> unawaited sid (step st i).
Proof.
  intros [Hw Hlt] Hi. destruct i as [path|events|dt]; cbn [Client.step].
  - split; [by rewrite waiter_get by lia|].
    pose proof (next_stream_id_get h3_raises path st). lia.
  - rewrite quic_event_received_closed. cbn [snd]. split.
    + by rewrite waiter_foldl_handled_no_data_end.
    + by rewrite next_stream_id_foldl_handled.
  - split; [|done]. cbn. by rewrite lookup_fmap, Hw.
Qed.

Lemma unawaited_run sid ins : forall st,
  unawaited sid st -> existsb (data_ends sid) ins = false ->
  unawaited sid (run ins st).
Proof.
  induction ins as [|i ins IH]; intros st Hu H; [done|].
  cbn [existsb] in H. apply orb_false_iff in H as [Hi Hrest].
  cbn [Client.run foldl]. apply IH; [|done]. by apply unawaited_step.
Qed.

(** After a [get] that failed in [transmit], the waiter it registered is
    never cancelled: no timeout was set for it, so however much time
    passes it stays pending in [_request_waiter] until a [DataReceived]
    event ends its stream. *)
Theorem failed_transmit_leaves_waiter_pending ins0 path p e st1 ins :
  let st := run ins0 Client.init in
  let sid := Client.next_stream_id st in
  str_encode path = Ok p ->
  h3_raises (Client.calls st) (get_headers sid p) = None ->
  get path st = (Raise e, st1) ->
  existsb (data_ends sid) ins = false ->
  Client._request_waiter (run ins st1) !! sid
  = Some {| Client.fut := Client.Pending; Client.timer := None |}
  /\ Client.get_outcome (run ins st1) sid = None.
Proof.
  intros st sid Hp H1 Hget Hins.
  assert (unawaited sid (run ins st1)) as [Hw _].
  { apply unawaited_run; [|done].
    revert Hget. rewrite get_closed. cbn zeta. fold st sid. rewrite Hp, H1.
    set (c := get_headers sid p).
    destruct (h3_raises _ Transmit); [|done]. intros [= <- <-].
    destruct (registered_fields h3_raises c st) as (Hw & Hn & _).
    destruct (perform_fields h3_raises Transmit (registered h3_raises c st))
      as (_ & _ & Hw' & Hn' & _).
    split.
    - rewrite Hw', Hw. by rewrite lookup_insert_eq.
    - rewrite Hn', Hn. fold sid. lia. }
  split; [done|]. unfold Client.get_outcome. by rewrite Hw.
Qed.

(** ** A response that arrives in time *)

(** The events delivered by the inputs, in order. *)
Definition events_of (i : Client.Input) : list H3Event :=
  match i with
  | Client.QuicEvent events => events
  | _ => []
  end.

Definition received (ins : list Client.Input) : list H3Event :=
  concat (map events_of ins).

(** A [get] waits on the stream: its waiter has the deadline [d], the
    stream has its entry dict, a resolved waiter holds that very dict, and
    a cancelled one saw its deadline pass.  [seen] records that a
    [DataReceived] event has ended the stream. *)
Definition awaited (sid : Z) (d : N) (seen : bool) (st : Client.State) : Prop :=
  exists w l,
    Client._request_waiter st !! sid = Some w
    /\ Client.timer w = Some d
    /\ (sid < Client.next_stream_id st)%Z
    /\ Client._request_events st !! sid = Some l
    /\ match Client.fut w with
       | Client.Pending => seen = false
       | Client.Finished l' => l' = l
       | Client.Cancelled => d <= Client.now st
       end.

Lemma awaited_handled sid d seen st ev :
  awaited sid d seen st -> awaited sid d (seen || ends_stream sid ev) (handled st ev).
Proof.
  intros (w & l & Hw & Ht & Hlt & Hl & Hf). unfold awaited.
  rewrite waiter_handled, Hw, now_handled, next_stream_id_handled.
  destruct (handled_fields st ev) as (-> & _).
  assert (entry_loc sid st = l) as Hloc by (unfold entry_loc; by rewrite Hl).
  assert (match stream_of ev with
          | Some sid' => <[sid' := entry_loc sid' st]> (Client._request_events st)
          | None => Client._request_events st
          end !! sid = Some l) as Hl'.
  { destruct (stream_of ev) as [sid'|]; [|done]. rewrite lookup_insert.
    case_decide as Hd; [|done]. by rewrite Hd, Hloc. }
  destruct (ends_stream sid ev); cbn [fmap option_fmap option_map].
  - exists (resolved l w), l. rewrite Hloc. unfold resolved, Client.done.
    split_and!; try done;
      destruct (Client.fut w) eqn:Ef; cbn; rewrite ?Ef; done.
  - exists w, l. split_and!; try done. rewrite orb_false_r. done.
Qed.

Lemma awaited_foldl_handled sid d events : forall seen st,
  awaited sid d seen st ->
  awaited sid d (seen || existsb (ends_stream sid) events) (foldl handled st events).
Proof.
  induction events as [|ev events IH]; intros seen st Ha.
  - cbn. by rewrite orb_false_r.
  - cbn [foldl existsb]. rewrite orb_assoc. by apply IH, awaited_handled.
Qed.

Lemma events_get path st sid :
  sid <> Client.next_stream_id st ->
  Client._request_events (get path st).2 !! sid
  = Client._request_events st !! sid.
Proof.
  intros Hne. rewrite get_closed. cbn zeta.
  destruct (str_encode path) as [p|]; [|done].
  set (c := get_headers _ _).
  destruct (perform_fields h3_raises c st) as (_ & He0 & _).
  destruct (h3_raises _ _); [cbn [snd]; by rewrite He0|].
  destruct (registered_entries c st) as (_ & He & _).
  destruct (perform_fields h3_raises Transmit (registered h3_raises c st))
    as (_ & He' & _).
  destruct (h3_raises _ Transmit); cbn [snd].
  - rewrite He', He. by rewrite lookup_insert_ne.
  - cbn [Client.wait_for snd Client.with_waiter Client._request_events].
    rewrite He', He. by rewrite lookup_insert_ne.
Qed.

Lemma awaited_step sid d seen st i :
  awaited sid d seen st -> awaited sid d (seen || data_ends sid i) (step st i).
Proof.
  intros Ha. destruct i as [path|events|dt]; cbn [Client.step data_ends].
  - rewrite orb_false_r. destruct Ha as (w & l & Hw & Ht & Hlt & Hl & Hf).
    exists w, l. rewrite waiter_get, events_get, now_get by lia.
    pose proof (next_stream_id_get h3_raises path st).
    split_and!; try done. lia.
  - rewrite quic_event_received_closed. cbn [snd].
    by apply awaited_foldl_handled.
  - rewrite orb_false_r. destruct Ha as (w & l & Hw & Ht & Hlt & Hl & Hf).
    unfold awaited. cbn. rewrite lookup_fmap, Hw. cbn.
    unfold Client.expire. rewrite Ht.
    destruct (Client.fut w) eqn:Ef.
    + destruct (d <=? Client.now st + dt) eqn:E.
      * eexists _, l. split_and!; try done. cbn. by apply N.leb_le.
      * exists w, l. split_and!; try done. by rewrite Ef.
    + exists w, l. split_and!; try done. by rewrite Ef.
    + exists w, l. split_and!; try done. rewrite Ef. lia.
Qed.

Lemma awaited_run sid d ins : forall seen st,
  awaited sid d seen st ->
  awaited sid d (seen || existsb (data_ends sid) ins) (run ins st).
Proof.
  induction ins as [|i ins IH]; intros seen st Ha.
  - cbn. by rewrite orb_false_r.
  - cbn [Client.run foldl existsb]. rewrite orb_assoc.
    by apply IH, awaited_step.
Qed.

(** *** What the entry of a stream holds after a run *)

Lemma entry_get path st sid :
  wf st -> sid <> Client.next_stream_id st ->
  entry (get path st).2 sid = entry st sid.
Proof.
  intros Hwf Hne. rewrite get_closed. cbn zeta.
  destruct (str_encode path) as [p|]; [|done].
  set (c := get_headers _ _).
  destruct (perform_fields h3_raises c st) as (Hh0 & He0 & _).
  destruct (h3_raises _ _); [cbn [snd]; by apply entry_ext|].
  destruct (perform_fields h3_raises Transmit (registered h3_raises c st))
    as (Hh' & He' & _).
  rewrite <- (entry_registered_old c st sid) by done.
  destruct (h3_raises _ Transmit); cbn [snd]; by apply entry_ext.
Qed.

Lemma wf_foldl_handled events : forall st, wf st -> wf (foldl handled st events).
Proof.
  induction events as [|ev events IH]; intros st Hwf; [done|].
  cbn [foldl]. by apply IH, wf_handled.
Qed.

Lemma entry_headers_foldl_handled events : forall st sid,
  wf st ->
  entry_headers (foldl handled st events) sid
  = match last (header_blocks sid events) with
    | Some hs => Some (py_dict hs)
    | None => entry_headers st sid
    end.
Proof.
  induction events as [|ev events IH] using rev_ind; intros st sid Hwf; [done|].
  rewrite foldl_app. cbn [foldl].
  rewrite entry_headers_handled by by apply wf_foldl_handled.
  unfold header_blocks. rewrite omap_app. cbn [omap list_omap].
  destruct ev as [e|e|]; rewrite ?app_nil_r; try by apply IH.
  case_decide; rewrite ?app_nil_r; [|by apply IH].
  by rewrite last_snoc.
Qed.

Lemma received_cons i ins : received (i :: ins) = events_of i ++ received ins.
Proof. done. Qed.

Lemma entry_run sid ins : forall st,
  wf st -> (sid < Client.next_stream_id st)%Z ->
  body (run ins st) sid = body st sid ++ concat (fragments sid (received ins))
  /\ entry_headers (run ins st) sid
     = match last (header_blocks sid (received ins)) with
       | Some hs => Some (py_dict hs)
       | None => entry_headers st sid
       end.
Proof.
  induction ins as [|i ins IH]; intros st Hwf Hlt.
  { cbn. by rewrite app_nil_r. }
  cbn [Client.run foldl]. fold (run ins (step st i)).
  assert ((sid < Client.next_stream_id (step st i))%Z) as Hlt'.
  { destruct i as [path|events|dt]; cbn [Client.step].
    - pose proof (next_stream_id_get h3_raises path st). lia.
    - rewrite quic_event_received_closed. cbn [snd].
      by rewrite next_stream_id_foldl_handled.
    - done. }
  destruct (IH (step st i) (wf_step h3_raises st i Hwf) Hlt') as [-> ->].
  rewrite received_cons. unfold fragments, header_blocks.
  rewrite !omap_app, concat_app, last_app.
  fold (fragments sid (events_of i)) (fragments sid (received ins)).
  fold (header_blocks sid (events_of i)) (header_blocks sid (received ins)).
  assert (body (step st i) sid = body st sid ++ concat (fragments sid (events_of i))
          /\ entry_headers (step st i) sid
             = match last (header_blocks sid (events_of i)) with
               | Some hs => Some (py_dict hs)
               | None => entry_headers st sid
               end) as [-> ->].
  { destruct i as [path|events|dt]; cbn [Client.step events_of].
    - unfold body, entry_headers. rewrite entry_get by (done || lia).
      cbn. by rewrite app_nil_r.
    - rewrite quic_event_received_closed. cbn [snd].
      by rewrite body_foldl_handled, entry_headers_foldl_handled.
    - cbn. by rewrite app_nil_r. }
  split; [by rewrite app_assoc|].
  by destruct (last (header_blocks sid (received ins))).
Qed.

Lemma get_resolved_in_time ins0 path sid st1 ins :
  get path (run ins0 Client.init) = (Ok sid, st1) ->
  existsb (data_ends sid) ins = true ->
  elapsed ins < Client.timeout_ms ->
  exists l,
    Client.get_outcome (run ins st1) sid = Some (Ok l)
    /\ Client._request_events (run ins st1) !! sid = Some l
    /\ Client.heap (run ins st1) !! l
       = Some {| Client.headers :=
                   py_dict <$> last (header_blocks sid (received ins));
                 Client.data := concat (fragments sid (received ins)) |}.
Proof.
  intros Hget Hend Hel.
  assert (wf (run ins0 Client.init)) as Hwf0 by apply wf_run, wf_init.
  pose proof (wf_get h3_raises path _ Hwf0) as Hwf1. rewrite Hget in Hwf1.
  cbn [snd] in Hwf1.
  destruct (get_ok h3_raises _ _ _ _ Hget) as (Hsid & Hw & Hn & Ht).
  assert (entry st1 sid = Some Client.empty_entry) as Hentry.
  { revert Hget. rewrite get_closed. cbn zeta.
    destruct (str_encode path) as [p|]; [|done].
    destruct (h3_raises _ _); [done|].
    destruct (h3_raises _ Transmit); [done|]. intros [= <- <-].
    set (c := get_headers _ _).
    destruct (perform_fields h3_raises Transmit
                (registered h3_raises c (run ins0 Client.init)))
      as (Hh' & He' & _).
    rewrite (entry_ext (registered h3_raises c (run ins0 Client.init)))
      by done.
    apply entry_registered_new. }
  set (d := Client.now st1 + Client.timeout_ms).
  assert (awaited sid d false st1) as Ha.
  { unfold entry in Hentry.
    destruct (Client._request_events st1 !! sid) as [l|] eqn:El; [|done].
    eexists _, l. rewrite Hw, lookup_insert_eq.
    split_and!; try done; cbn.
    - unfold d. by rewrite Ht.
    - lia. }
  apply (awaited_run sid d ins) in Ha. rewrite Hend in Ha. cbn [orb] in Ha.
  destruct Ha as (w & l & Hw' & _ & _ & Hl & Hf).
  exists l. unfold Client.get_outcome. rewrite Hw'.
  destruct (Client.fut w) as [|l'|]; [done| |].
  2: { rewrite now_run in Hf. unfold d in Hf. lia. }
  subst l'. split_and!; try done.
  destruct (entry_run sid ins st1 Hwf1 ltac:(lia)) as [Hb Hh].
  pose proof (wf_run h3_raises ins st1 Hwf1) as Hwf2.
  destruct (wf_heap _ Hwf2 _ _ Hl) as [[hs dt] He]. rewrite He.
  assert (body st1 sid = []) as Hb1 by (unfold body; by rewrite Hentry).
  assert (entry_headers st1 sid = None) as Hh1
    by (unfold entry_headers; by rewrite Hentry).
  rewrite Hb1 in Hb. rewrite Hh1 in Hh. clear Hb1 Hh1 Hentry.
  assert (entry (run ins st1) sid = Some {| Client.headers := hs; Client.data := dt |})
    as Hentry2 by (unfold entry; rewrite Hl; exact He).
  unfold body in Hb. unfold entry_headers in Hh. rewrite Hentry2 in Hb, Hh.
  cbn in Hb, Hh. rewrite Hb, Hh.
  by destruct (last (header_blocks sid (received ins))).
Qed.

(** When a [DataReceived] event ends the stream of a [get] before 5000 ms
    have passed, the [get] returns the entry dict of its stream.  By then
    the dict holds the header block received last on the stream, if any,
    and the payloads of all the [DataReceived] events of the stream since
    the call, in order, those after the end included. *)
Theorem response_in_time_resolves_get ins0 path sid st1 ins :
  get path (run ins0 Client.init) = (Ok sid, st1) ->
  existsb (data_ends sid) ins = true ->
  elapsed ins < Client.timeout_ms ->
  exists l,
    Client.get_outcome (run ins st1) sid = Some (Ok l)
    /\ Client._request_events (run ins st1) !! sid = Some l
    /\ Client.heap (run ins st1) !! l
       = Some {| Client.headers :=
                   py_dict <$> last (header_blocks sid (received ins));
                 Client.data := concat (fragments sid (received ins)) |}.
Proof. apply get_resolved_in_time. Qed.

(** *** The ways [get] fails *)

Lemma awaited_get ins0 path sid st1 :
  get path (run ins0 Client.init) = (Ok sid, st1) ->
  awaited sid (Client.now st1 + Client.timeout_ms) false st1.
Proof.
  intros Hget.
  destruct (get_ok h3_raises _ _ _ _ Hget) as (Hsid & Hw & Hn & Ht).
  assert (is_Some (Client._request_events st1 !! sid)) as [l Hl].
  { revert Hget. rewrite get_closed. cbn zeta.
    destruct (str_encode path) as [p|]; [|done].
    destruct (h3_raises _ _); [done|].
    destruct (h3_raises _ Transmit); [done|]. intros [= <- <-].
    set (c := get_headers _ _).
    destruct (perform_fields h3_raises Transmit
                (registered h3_raises c (run ins0 Client.init)))
      as (_ & He' & _).
    destruct (registered_entries c (run ins0 Client.init)) as (_ & He & _).
    cbn [Client.wait_for snd Client.with_waiter Client._request_events].
    rewrite He', He, lookup_insert_eq. eauto. }
  exists {| Client.fut := Client.Pending;
            Client.timer := Some (Client.now st1 + Client.timeout_ms) |}, l.
  rewrite Hw, lookup_insert_eq, Ht. split_and!; try done. lia.
Qed.

(** Every way in which [get] raises.  Before its [await] it raises in
    one of three ways.  A path that cannot be encoded raises
    [UnicodeEncodeError] before anything is done.  When [send_headers]
    raises, the call is the only trace: no entry and no waiter is
    registered.  When [transmit] raises, the entry and the waiter are
    already registered, and the waiter has no timeout, as [wait_for] was
    never reached.  At its [await], whatever calls, events and time
    follow, a [get] that fails does so with [TimeoutError], and only once
    5000 ms have passed since the call. *)
Theorem get_failure_modes path :
  (forall st e st1,
     get path st = (Raise e, st1) ->
     let sid := Client.next_stream_id st in
     (str_encode path = Raise e /\ e = UnicodeEncodeError /\ st1 = st)
     \/ (exists p,
           str_encode path = Ok p
           /\ Client.calls st1 = Client.calls st ++ [(get_headers sid p, Some e)]
           /\ Client._request_events st1 = Client._request_events st
           /\ Client._request_waiter st1 = Client._request_waiter st)
     \/ (exists p,
           str_encode path = Ok p
           /\ Client.calls st1
              = Client.calls st
                ++ [(get_headers sid p, None); (Transmit, Some e)]
           /\ entry st1 sid = Some Client.empty_entry
           /\ Client._request_waiter st1
              = <[sid := {| Client.fut := Client.Pending;
                            Client.timer := None |}]>
                  (Client._request_waiter st)))
  /\ (forall ins0 sid st1 ins e,
        get path (run ins0 Client.init) = (Ok sid, st1) ->
        Client.get_outcome (run ins st1) sid = Some (Raise e) ->
        e = TimeoutError /\ Client.timeout_ms <= elapsed ins).
Proof.
  split; [apply get_raises_before_await|].
  intros ins0 sid st1 ins e Hget Hout.
  pose proof (awaited_get _ _ _ _ Hget) as Ha.
  apply (awaited_run sid _ ins) in Ha.
  destruct Ha as (w & l & Hw & _ & _ & _ & Hf).
  unfold Client.get_outcome in Hout. rewrite Hw in Hout.
  destruct (Client.fut w); try done. injection Hout as <-.
  split; [done|]. rewrite now_run in Hf. lia.
Qed.

End ClientFurther.

(** * A request and its response *)

Section Exchange.

Variable client_raises : list Attempt -> H3Call -> option Exn.
Variable server_raises : list Attempt -> H3Call -> option Exn.
Variable clock : nat -> datetime.
Variable exn_str : Exn -> str.

Lemma attempt_all_never_raises cs : forall log,
  (forall log c, server_raises log c = None) ->
  attempt_all server_raises cs log = log ++ map (fun c => (c, None)) cs.
Proof.
  induction cs as [|c cs IH]; intros log H; cbn [attempt_all map].
  - by rewrite app_nil_r.
  - rewrite H, IH by done. by rewrite <- app_assoc.
Qed.

Lemma valid_str_ascii s : is_ascii s = true -> valid_str s = true.
Proof.
  unfold is_ascii, valid_str. rewrite !forallb_forall. intros H c Hc.
  specialize (H c Hc). apply N.ltb_lt in H. apply valid_cp_spec. lia.
Qed.

Lemma valid_str_get_homepage : valid_str Server.get_homepage = true.
Proof. vm_compute. reflexivity. Qed.

(** What the server sends for a request when the transport works: a
    status, a content type and a body of Unicode scalar values. *)
Lemma handle_request_sends request sst :
  (forall log c, server_raises log c = None) ->
  exists status ctype body,
    valid_str body = true
    /\ Server.calls
         (Server.handle_request server_raises clock exn_str request sst).2
       = Server.calls sst
         ++ map (fun c => (c, None))
              (response (h_stream_id request) status ctype body).
Proof.
  intros H. rewrite handle_request_unfold. cbn zeta. cbn [snd].
  assert (forall (status : Z) (ctype body : str) (st : Server.State),
            Server.calls st = Server.calls sst ->
            Server.calls
              (responded server_raises (h_stream_id request) status ctype body st)
            = Server.calls sst
              ++ map (fun c => (c, None))
                   (response (h_stream_id request) status ctype body))
    as Hr.
  { intros status ctype body st Hst. unfold responded. cbn [Server.calls].
    by rewrite attempt_all_never_raises, Hst. }
  assert (forall j, valid_str (json_dumps j) = true) as Hj
    by (intros j; apply valid_str_ascii, is_ascii_json_dumps).
  destruct (bytes_decode (dict_get _ (blit ":path") _));
    [|eexists _, _, _; split; [|by apply Hr]; by apply Hj].
  destruct (bytes_decode (dict_get _ (blit ":method") _));
    [|eexists _, _, _; split; [|by apply Hr]; by apply Hj].
  case_decide.
  { exists 200%Z, (slit "text/html"), Server.get_homepage.
    split; [apply valid_str_get_homepage|by apply Hr]. }
  repeat case_decide; (eexists _, _, _; split; [|by apply Hr]); apply Hj.
Qed.

Lemma bytes_decode_bytes_of_int z :
  bytes_decode (bytes_of_int z) = Ok (str_of_int z).
Proof.
  unfold bytes_of_int. rewrite <- (utf8_slit _ (is_ascii_str_of_int z)).
  apply bytes_decode_utf8_ascii, is_ascii_str_of_int.
Qed.

(** Whatever the server answers to a request counts as a passed test.
    When the transport of the server works, its answer is a header block,
    the body with the end of the stream, and a transmit.  Delivered to a
    client that waits on the stream, as one [HeadersReceived] and one
    [DataReceived] event, they resolve the [get] with an entry for which
    [test_endpoint] returns [True], whether the status is 200, 404 or
    500. *)
Theorem server_answer_passes_test_endpoint ins0 path sid cst request sst :
  (forall log c, server_raises log c = None) ->
  Client.get client_raises path (Client.run client_raises ins0 Client.init)
  = (Ok sid, cst) ->
  h_stream_id request = sid ->
  exists hs data,
    Server.calls (Server.handle_request server_raises clock exn_str request sst).2
    = Server.calls sst
      ++ [(SendHeaders sid hs false, None);
          (SendData sid data true, None);
          (Transmit, None)]
    /\ let events :=
         [EvHeaders {| h_stream_id := sid; h_headers := hs;
                       h_stream_ended := false |};
          EvData {| d_stream_id := sid; d_data := data;
                    d_stream_ended := true |}] in
       let cst' := Client.run client_raises [Client.QuicEvent events] cst in
       exists l response,
         Client.get_outcome cst' sid = Some (Ok l)
         /\ Client.heap cst' !! l = Some response
         /\ TestEndpoint.test_endpoint (Ok response) = true.
Proof.
  intros Hnever Hget Hsid.
  destruct (handle_request_sends request sst Hnever)
    as (status & ctype & body & Hbody & Hcalls).
  rewrite Hsid in Hcalls. unfold response in Hcalls. cbn [map] in Hcalls.
  eexists _, _. split; [exact Hcalls|]. cbn zeta.
  set (hs := [(blit ":status", bytes_of_int status); _; _; _]).
  set (events := [EvHeaders _; EvData _]).
  destruct (get_resolved_in_time client_raises ins0 path sid cst
              [Client.QuicEvent events] Hget) as (l & Hout & _ & Hheap).
  { cbn. by rewrite bool_decide_eq_true_2. }
  { done. }
  exists l. eexists. split; [exact Hout|]. split; [exact Hheap|].
  assert (header_blocks sid (received [Client.QuicEvent events]) = [hs]) as ->.
  { cbn. by rewrite decide_True. }
  assert (fragments sid (received [Client.QuicEvent events]) = [utf8 body]) as ->.
  { cbn. by rewrite decide_True. }
  unfold TestEndpoint.test_endpoint, TestEndpoint.read_response.
  cbn [last fmap option_fmap option_map Client.headers Client.data concat].
  rewrite app_nil_r, bytes_decode_utf8 by done.
  assert (dict_get (py_dict hs) (blit ":status") (blit "???")
          = bytes_of_int status) as ->.
  { unfold dict_get, py_dict, hs. cbn [foldl fst snd].
    rewrite !lookup_insert_ne by done. by rewrite lookup_insert_eq. }
  by rewrite bytes_decode_bytes_of_int.
Qed.

(** The path given to [get] is the path the server routes on.  A [get]
    that succeeds has made two calls, [send_headers] and [transmit]; the
    header block it sent carries the path in UTF-8 and, delivered to the
    server as a [HeadersReceived] event, is answered by the branch of
    [handle_request] for that very path, whatever characters it holds. *)
Theorem get_is_routed_on_its_path path cst sid cst1 sst ended :
  valid_str path = true ->
  Client.get client_raises path cst = (Ok sid, cst1) ->
  exists hs,
    Client.calls cst1
    = Client.calls cst ++ [(SendHeaders sid hs true, None); (Transmit, None)]
    /\ Server.handle_request server_raises clock exn_str
         {| h_stream_id := sid; h_headers := hs; h_stream_ended := ended |} sst
       = (Ok tt,
          if decide (path = slit "/") then
            responded server_raises sid 200 (slit "text/html")
              Server.get_homepage sst
          else if decide (path = slit "/api/status") then
            responded server_raises sid 200 (slit "application/json")
              (json_dumps
                 (JDict [(slit "status", JStr (slit "healthy"));
                         (slit "protocol", JStr (slit "HTTP/3"));
                         (slit "timestamp",
                          JStr (isoformat (clock (Server.clock_reads sst))))]))
              (tick_clock sst)
          else if decide (path = slit "/api/data") then
            responded server_raises sid 200 (slit "application/json")
              (json_dumps
                 (JDict [(slit "message",
                          JStr (slit "Sample data from HTTP/3 server"));
                         (slit "items",
                          JList [Server.item 1 "Item 1" 100;
                                 Server.item 2 "Item 2" 200;
                                 Server.item 3 "Item 3" 300])]))
              sst
          else
            responded server_raises sid 404 (slit "application/json")
              (json_dumps (JDict [(slit "error", JStr (slit "Not Found"));
                                  (slit "path", JStr path)]))
              sst).
Proof.
  intros Hv. rewrite get_closed. cbn zeta.
  rewrite (str_encode_utf8 path) by by apply valid_str_no_surrogate.
  set (c := get_headers _ _).
  destruct (client_raises (Client.calls cst) c) eqn:E1; [done|].
  destruct (client_raises _ Transmit) eqn:E2; [done|]. intros [= <- <-].
  eexists. split.
  { cbn [Client.wait_for snd Client.with_waiter Client.calls].
    unfold Client.perform. rewrite E2. cbn -[registered].
    destruct (registered_entries client_raises c cst) as (_ & _ & ->).
    rewrite E1, <- app_assoc. reflexivity. }
  rewrite handle_request_unfold. cbn zeta. cbn [h_headers h_stream_id].
  assert (forall k d,
            dict_get
              (py_dict [(blit ":method", blit "GET");
                        (blit ":scheme", blit "https");
                        (blit ":authority", blit "localhost:4433");
                        (blit ":path", utf8 path);
                        (blit "user-agent", blit "Python-HTTP3-Client")]) k d
            = if decide (k = blit ":path") then utf8 path
              else if decide (k = blit ":method") then blit "GET"
              else dict_get
                     (py_dict [(blit ":scheme", blit "https");
                               (blit ":authority", blit "localhost:4433");
                               (blit "user-agent", blit "Python-HTTP3-Client")])
                     k d) as Hd.
  { intros k d. unfold dict_get, py_dict. cbn [foldl fst snd].
    rewrite !lookup_insert. repeat case_decide; subst; done. }
  rewrite !Hd. rewrite decide_True by done.
  rewrite decide_False by done. rewrite decide_True by done.
  rewrite bytes_decode_utf8 by done.
  change (bytes_decode (blit "GET")) with (Ok (A:=str) (slit "GET")).
  done.
Qed.

End Exchange.

(** * Further concrete runs *)

(** A transport that refuses every call, and one on which only
    [transmit] fails. *)
Definition refusing : list Attempt -> H3Call -> option Exn :=
  fun _ _ => Some (TransportError 1).

Definition transmit_fails : list Attempt -> H3Call -> option Exn :=
  fun _ c =>
    match c with
    | Transmit => Some (TransportError 2)
    | _ => None
    end.

(** ['/é🚀'] and a text with a quote, a backslash and a newline. *)
Definition odd_path : str := [47; 233; 128640].

Definition odd_text : str := [47; 34; 92; 10; 233; 8364; 128640].

Definition post_request : HeadersReceived :=
  {| h_stream_id := 0;
     h_headers := [(blit ":path", blit "/api/data"); (blit ":method", blit "POST")];
     h_stream_ended := false |}.

Lemma routed_on_path_alone_witness :
  Server.handle_request never_raises sample_clock sample_exn_str
    (request 0 (blit "/api/data")) Server.init
  = Server.handle_request never_raises sample_clock sample_exn_str
      post_request Server.init.
Proof.
  apply (routed_on_path_alone never_raises sample_clock sample_exn_str
           (request 0 (blit "/api/data")) post_request Server.init
           (slit "GET") (slit "POST"));
    vm_compute; reflexivity.
Defined.

Lemma py_dict_last_wins_witness :
  py_dict ([(blit ":path", blit "/a")] ++ (blit ":path", blit "/b")
             :: [(blit ":method", blit "GET")]) !! blit ":path"
  = Some (blit "/b")
  /\ (forall hs k', py_dict hs !! k' = None <-> k' ∉ hs.*1).
Proof.
  apply (py_dict_last_wins [(blit ":path", blit "/a")] (blit ":path")
           (blit "/b") [(blit ":method", blit "GET")]).
  apply (bool_decide_unpack _). vm_compute. reflexivity.
Defined.

Lemma content_length_right_off_root_witness :
  exists status body st',
    Server.handle_request never_raises sample_clock sample_exn_str
      (request 0 (blit "/api/data")) Server.init
    = (Ok tt,
       responded never_raises 0 status (slit "application/json") body st')
    /\ response 0 status (slit "application/json") body
       = [SendHeaders 0
            [(blit ":status", bytes_of_int status);
             (blit "content-type", blit "application/json");
             (blit "content-length", bytes_of_int (len (utf8 body)));
             (blit "server", blit "HTTP/3-Python-Server")]
            false;
          SendData 0 (utf8 body) true;
          Transmit].
Proof.
  apply (content_length_right_off_root never_raises sample_clock sample_exn_str
           (request 0 (blit "/api/data")) Server.init).
  vm_compute. discriminate.
Defined.

Lemma not_found_names_path_witness :
  json_loads
    (json_dumps (JDict [(slit "error", JStr (slit "Not Found"));
                        (slit "path", JStr odd_path)]))
  = Some (JDict [(slit "error", JStr (slit "Not Found"));
                 (slit "path", JStr odd_path)]).
Proof.
  apply (not_found_names_path never_raises sample_clock sample_exn_str
           (request 4 (utf8 odd_path)) Server.init odd_path (slit "GET"));
    try (vm_compute; reflexivity); vm_compute; discriminate.
Defined.

Lemma decode_encode_witness :
  str_encode odd_text = Ok (utf8 odd_text)
  /\ bytes_decode (utf8 odd_text) = Ok odd_text.
Proof. apply (decode_encode odd_text). vm_compute. reflexivity. Defined.

Lemma flat_object_round_trip_witness :
  json_loads
    (json_dumps (flat_object [(slit "error", slit "Not Found");
                              (slit "path", odd_text)]))
  = Some (flat_object [(slit "error", slit "Not Found");
                       (slit "path", odd_text)]).
Proof.
  apply (flat_object_round_trip [(slit "error", slit "Not Found");
                                 (slit "path", odd_text)]).
  - vm_compute. reflexivity.
  - apply (bool_decide_unpack _). vm_compute. reflexivity.
Defined.

Lemma get_failure_modes_witness :
  (Client.calls (Client.get refusing (slit "/") Client.init).2
   = [(get_headers 0 (blit "/"), Some (TransportError 1))]
   /\ Client._request_waiter (Client.get refusing (slit "/") Client.init).2 = ∅)
  /\ Client.get_outcome
       (Client.run never_raises [Client.Tick 5000]
          (Client.get never_raises (slit "/") Client.init).2) 0
     = Some (Raise TimeoutError)
  /\ Client.timeout_ms <= elapsed [Client.Tick 5000].
Proof.
  split; [|split; [vm_compute; reflexivity|]].
  - destruct (proj1 (get_failure_modes refusing (slit "/")) Client.init
                (TransportError 1)
                (Client.get refusing (slit "/") Client.init).2)
      as [(H & _)|[(p & Hp & Hc & _ & Hw)|(p & _ & Hc & _)]].
    + vm_compute. reflexivity.
    + vm_compute in H. discriminate H.
    + injection Hp as <-. split; [exact Hc|exact Hw].
    + vm_compute in Hc. discriminate Hc.
  - apply (proj2 (get_failure_modes never_raises (slit "/")) [] 0%Z
             (Client.get never_raises (slit "/") Client.init).2
             [Client.Tick 5000] TimeoutError);
      vm_compute; reflexivity.
Defined.

Lemma failed_transmit_leaves_waiter_pending_witness :
  Client.get_outcome
    (Client.run transmit_fails
       [Client.Tick 60000; Client.QuicEvent [EvHeaders status_200]]
       (Client.get transmit_fails (slit "/") Client.init).2) 0
  = None.
Proof.
  apply (failed_transmit_leaves_waiter_pending transmit_fails [] (slit "/")
           (blit "/") (TransportError 2)
           (Client.get transmit_fails (slit "/") Client.init).2
           [Client.Tick 60000; Client.QuicEvent [EvHeaders status_200]]);
    vm_compute; reflexivity.
Defined.

Lemma response_in_time_resolves_get_witness :
  exists l,
    Client.get_outcome
      (Client.run never_raises
         [Client.QuicEvent [EvHeaders status_200]; Client.Tick 4999;
          Client.QuicEvent [upload 0 "{}" true]]
         (Client.get never_raises (slit "/api/status") Client.init).2) 0
    = Some (Ok l).
Proof.
  destruct (response_in_time_resolves_get never_raises [] (slit "/api/status") 0
              (Client.get never_raises (slit "/api/status") Client.init).2
              [Client.QuicEvent [EvHeaders status_200]; Client.Tick 4999;
               Client.QuicEvent [upload 0 "{}" true]])
    as (l & H & _).
  - vm_compute. reflexivity.
  - vm_compute. reflexivity.
  - vm_compute. reflexivity.
  - exists l. exact H.
Defined.

Lemma server_answer_passes_test_endpoint_witness :
  exists hs data,
    Server.calls
      (Server.handle_request never_raises sample_clock sample_exn_str
         (request 0 (blit "/nowhere")) Server.init).2
    = [(SendHeaders 0 hs false, None); (SendData 0 data true, None);
       (Transmit, None)].
Proof.
  destruct (server_answer_passes_test_endpoint never_raises never_raises
              sample_clock sample_exn_str [] (slit "/nowhere") 0
              (Client.get never_raises (slit "/nowhere") Client.init).2
              (request 0 (blit "/nowhere")) Server.init)
    as (hs & data & H & _).
  - reflexivity.
  - vm_compute. reflexivity.
  - reflexivity.
  - exists hs, data. exact H.
Defined.

Lemma get_is_routed_on_its_path_witness :
  exists hs,
    Client.calls (Client.get never_raises odd_path Client.init).2
    = [(SendHeaders 0 hs true, None); (Transmit, None)].
Proof.
  destruct (get_is_routed_on_its_path never_raises never_raises sample_clock
              sample_exn_str odd_path Client.init 0
              (Client.get never_raises odd_path Client.init).2
              Server.init true)
    as (hs & H & _).
  - vm_compute. reflexivity.
  - vm_compute. reflexivity.
  - exists hs. exact H.
Defined.
